(** * FaceFusion job orchestration: a shallow embedding of [backend/jobs.py],
    [backend/app.py] and [backend/config.py].

    The persisted job records live in a finite map keyed by job id, the two
    lanes are the FIFO queues and flags of [app.state], and every function
    that touches them is a computation in a state-and-exception monad over
    that world.  What the process cannot decide on its own (the random ids,
    the bytes of an upload, the lines and the exit code of the engine, the
    fate of a webhook post) is an explicit argument of the function that
    consumes it. *)

From Stdlib Require Import ZArith NArith Ascii String List Bool Lia.
From stdpp Require Import gmap strings list fin_maps.
Import ListNotations.

Local Open Scope Z_scope.

(** ** Text helpers (code points 0..255) *)

Definition chars (s : string) : list ascii := list_ascii_of_string s.
Definition text (l : list ascii) : string := string_of_list_ascii l.

Definition code (c : ascii) : N := N_of_ascii c.

(** [str.isspace] on the Latin-1 range, which is also what [\s] matches in a
    [str] pattern: TAB..CR, FS..US, SPACE, NEL and NBSP. *)
Definition is_space (c : ascii) : bool :=
  let n := code c in
  ((9 <=? n) && (n <=? 13) || (28 <=? n) && (n <=? 32)
   || (n =? 133) || (n =? 160))%N.

(** [\d] on the same range: the ten decimal digits. *)
Definition is_digit (c : ascii) : bool :=
  let n := code c in ((48 <=? n) && (n <=? 57))%N.

Definition digit_value (c : ascii) : Z := Z.of_N (code c) - 48.

(** [int(s)] for a string of decimal digits (Python integers are unbounded). *)
Definition int_of_digits (ds : list ascii) : Z :=
  fold_left (fun acc c => 10 * acc + digit_value c) ds 0.

Definition lower_char (c : ascii) : ascii :=
  let n := code c in
  if ((65 <=? n) && (n <=? 90))%N then ascii_of_N (n + 32) else c.

(** [str.lower] on ASCII letters. *)
Definition lower (s : string) : string := text (map lower_char (chars s)).

(** [str.strip()] *)
Fixpoint lstrip (l : list ascii) : list ascii :=
  match l with
  | c :: l' => if is_space c then lstrip l' else l
  | [] => []
  end.

Definition strip (s : string) : string :=
  text (rev (lstrip (rev (lstrip (chars s))))).

(** [str.startswith] *)
Definition startswith (s p : string) : bool := String.prefix p s.

(** The last path component, and [PurePath.suffix] on it: the text from the
    last dot on, unless that dot is the first or the last character. *)
Fixpoint last_component (acc l : list ascii) : list ascii :=
  match l with
  | [] => acc
  | c :: l' => if Ascii.eqb c "/" then last_component [] l' else last_component (acc ++ [c]) l'
  end.

Fixpoint rfind_dot (i : nat) (found : option nat) (l : list ascii) : option nat :=
  match l with
  | [] => found
  | c :: l' => rfind_dot (S i) (if Ascii.eqb c "." then Some i else found) l'
  end.

Definition path_suffix (p : string) : string :=
  let name := last_component [] (chars p) in
  match rfind_dot 0 None name with
  | Some i =>
      if (Nat.ltb 0 i && Nat.ltb i (length name - 1))%bool
      then text (drop i name) else ""
  | None => ""
  end.

Definition str_mem (x : string) (l : list string) : bool :=
  existsb (String.eqb x) l.

(** [str(n)] for an integer. *)
Fixpoint digits_of_pos_fuel (fuel : nat) (n : N) (acc : list ascii) : list ascii :=
  match fuel with
  | O => acc
  | S f =>
      let d := ascii_of_N (48 + n mod 10) in
      if (n <? 10)%N then d :: acc else digits_of_pos_fuel f (n / 10) (d :: acc)
  end.

Definition str_of_Z (z : Z) : string :=
  let n := Z.abs_N z in
  let ds := text (digits_of_pos_fuel (S (N.to_nat (N.log2 n))) n []) in
  if z <? 0 then "-" +:+ ds else ds.

(** ** Configuration ([backend/config.py]) *)

(** The directories and engine flags are read from the environment at import
    time; they are constants of one run of the service. *)
Record Config := {
  JOBS_PATH : string;
  CONFIG_PATH : string;
  SOURCE_DIR : string;
  TARGET_DIR : string;
  OUTPUT_DIR : string;
  VIDEO_EXEC_PROVIDERS : list string;
  IMAGE_EXEC_PROVIDERS : list string;
  VIDEO_VMS : string;
  IMAGE_VMS : string;
}.

(** The values [config.py] falls back to when the environment is silent,
    under a base directory [/srv]. *)
Definition default_config : Config := {|
  JOBS_PATH := "/srv/jobs_path";
  CONFIG_PATH := "/srv/facefusion-3.5.2/facefusion.ini";
  SOURCE_DIR := "/srv/source_paths";
  TARGET_DIR := "/srv/target_path";
  OUTPUT_DIR := "/srv/output_path";
  VIDEO_EXEC_PROVIDERS := ["cuda"];
  IMAGE_EXEC_PROVIDERS := ["cpu"];
  VIDEO_VMS := "strict";
  IMAGE_VMS := "strict";
|}.

Definition DEFAULT_MODE : string := "photo_video_fast".
Definition ALLOWED_IMAGE_EXT : list string := [".jpg"; ".jpeg"; ".png"].
Definition ALLOWED_VIDEO_EXT : list string := [".mp4"; ".mov"].
Definition MAX_VIDEO_SIZE_BYTES : Z := 60 * 1024 * 1024.

(** [app.py] *)
Definition ALLOWED_MODES : list string :=
  ["photo_video_fast"; "photo_video_quality"; "photo_photo_gpen"; "photo_photo_codeformer"].

(** ** Job records *)

Inductive Kind := image | video.

Definition kind_str (k : Kind) : string :=
  match k with image => "image" | video => "video" end.

Definition kind_eqb (a b : Kind) : bool :=
  match a, b with image, image | video, video => true | _, _ => false end.

(** The values the program ever assigns to [job["status"]]. *)
Inductive Status :=
| WaitingSource | WaitingTarget | Ready | Queued | Running
| Completed | Failed | Cancelled.

Definition status_str (s : Status) : string :=
  match s with
  | WaitingSource => "waiting_source" | WaitingTarget => "waiting_target"
  | Ready => "ready" | Queued => "queued" | Running => "running"
  | Completed => "completed" | Failed => "failed" | Cancelled => "cancelled"
  end.

Definition status_eqb (a b : Status) : bool :=
  String.eqb (status_str a) (status_str b).

(** The dictionary built by [create_job_record]; [error] and
    [webhook_last_error] are the two keys added later, absent ([None]) until
    then.  Timestamps are readings of the world's clock. *)
Record Job := {
  job_id : string;
  owner_id : string;
  mode : string;
  target_kind : Kind;
  status : Status;
  source_path : option string;
  target_path : option string;
  output_path : option string;
  reference_frame_number : option Z;
  progress : Z;
  stage : option string;
  webhook_url : option string;
  webhook_events : option (list string);
  created_at : nat;
  updated_at : nat;
  error : option string;
  webhook_last_error : option string;
}.

Definition set_status (v : Status) (j : Job) : Job :=
  {| job_id := job_id j; owner_id := owner_id j; mode := mode j;
     target_kind := target_kind j; status := v; source_path := source_path j;
     target_path := target_path j; output_path := output_path j;
     reference_frame_number := reference_frame_number j; progress := progress j;
     stage := stage j; webhook_url := webhook_url j;
     webhook_events := webhook_events j; created_at := created_at j;
     updated_at := updated_at j; error := error j;
     webhook_last_error := webhook_last_error j |}.

Definition set_source_path (v : option string) (j : Job) : Job :=
  {| job_id := job_id j; owner_id := owner_id j; mode := mode j;
     target_kind := target_kind j; status := status j; source_path := v;
     target_path := target_path j; output_path := output_path j;
     reference_frame_number := reference_frame_number j; progress := progress j;
     stage := stage j; webhook_url := webhook_url j;
     webhook_events := webhook_events j; created_at := created_at j;
     updated_at := updated_at j; error := error j;
     webhook_last_error := webhook_last_error j |}.

Definition set_target_path (v : option string) (j : Job) : Job :=
  {| job_id := job_id j; owner_id := owner_id j; mode := mode j;
     target_kind := target_kind j; status := status j; source_path := source_path j;
     target_path := v; output_path := output_path j;
     reference_frame_number := reference_frame_number j; progress := progress j;
     stage := stage j; webhook_url := webhook_url j;
     webhook_events := webhook_events j; created_at := created_at j;
     updated_at := updated_at j; error := error j;
     webhook_last_error := webhook_last_error j |}.

Definition set_output_path (v : option string) (j : Job) : Job :=
  {| job_id := job_id j; owner_id := owner_id j; mode := mode j;
     target_kind := target_kind j; status := status j; source_path := source_path j;
     target_path := target_path j; output_path := v;
     reference_frame_number := reference_frame_number j; progress := progress j;
     stage := stage j; webhook_url := webhook_url j;
     webhook_events := webhook_events j; created_at := created_at j;
     updated_at := updated_at j; error := error j;
     webhook_last_error := webhook_last_error j |}.

Definition set_reference_frame_number (v : option Z) (j : Job) : Job :=
  {| job_id := job_id j; owner_id := owner_id j; mode := mode j;
     target_kind := target_kind j; status := status j; source_path := source_path j;
     target_path := target_path j; output_path := output_path j;
     reference_frame_number := v; progress := progress j;
     stage := stage j; webhook_url := webhook_url j;
     webhook_events := webhook_events j; created_at := created_at j;
     updated_at := updated_at j; error := error j;
     webhook_last_error := webhook_last_error j |}.

Definition set_progress (v : Z) (j : Job) : Job :=
  {| job_id := job_id j; owner_id := owner_id j; mode := mode j;
     target_kind := target_kind j; status := status j; source_path := source_path j;
     target_path := target_path j; output_path := output_path j;
     reference_frame_number := reference_frame_number j; progress := v;
     stage := stage j; webhook_url := webhook_url j;
     webhook_events := webhook_events j; created_at := created_at j;
     updated_at := updated_at j; error := error j;
     webhook_last_error := webhook_last_error j |}.

Definition set_stage (v : option string) (j : Job) : Job :=
  {| job_id := job_id j; owner_id := owner_id j; mode := mode j;
     target_kind := target_kind j; status := status j; source_path := source_path j;
     target_path := target_path j; output_path := output_path j;
     reference_frame_number := reference_frame_number j; progress := progress j;
     stage := v; webhook_url := webhook_url j;
     webhook_events := webhook_events j; created_at := created_at j;
     updated_at := updated_at j; error := error j;
     webhook_last_error := webhook_last_error j |}.

Definition set_webhook_url (v : option string) (j : Job) : Job :=
  {| job_id := job_id j; owner_id := owner_id j; mode := mode j;
     target_kind := target_kind j; status := status j; source_path := source_path j;
     target_path := target_path j; output_path := output_path j;
     reference_frame_number := reference_frame_number j; progress := progress j;
     stage := stage j; webhook_url := v;
     webhook_events := webhook_events j; created_at := created_at j;
     updated_at := updated_at j; error := error j;
     webhook_last_error := webhook_last_error j |}.

Definition set_webhook_events (v : option (list string)) (j : Job) : Job :=
  {| job_id := job_id j; owner_id := owner_id j; mode := mode j;
     target_kind := target_kind j; status := status j; source_path := source_path j;
     target_path := target_path j; output_path := output_path j;
     reference_frame_number := reference_frame_number j; progress := progress j;
     stage := stage j; webhook_url := webhook_url j;
     webhook_events := v; created_at := created_at j;
     updated_at := updated_at j; error := error j;
     webhook_last_error := webhook_last_error j |}.

Definition set_updated_at (v : nat) (j : Job) : Job :=
  {| job_id := job_id j; owner_id := owner_id j; mode := mode j;
     target_kind := target_kind j; status := status j; source_path := source_path j;
     target_path := target_path j; output_path := output_path j;
     reference_frame_number := reference_frame_number j; progress := progress j;
     stage := stage j; webhook_url := webhook_url j;
     webhook_events := webhook_events j; created_at := created_at j;
     updated_at := v; error := error j;
     webhook_last_error := webhook_last_error j |}.

Definition set_error (v : option string) (j : Job) : Job :=
  {| job_id := job_id j; owner_id := owner_id j; mode := mode j;
     target_kind := target_kind j; status := status j; source_path := source_path j;
     target_path := target_path j; output_path := output_path j;
     reference_frame_number := reference_frame_number j; progress := progress j;
     stage := stage j; webhook_url := webhook_url j;
     webhook_events := webhook_events j; created_at := created_at j;
     updated_at := updated_at j; error := v;
     webhook_last_error := webhook_last_error j |}.

Definition set_webhook_last_error (v : option string) (j : Job) : Job :=
  {| job_id := job_id j; owner_id := owner_id j; mode := mode j;
     target_kind := target_kind j; status := status j; source_path := source_path j;
     target_path := target_path j; output_path := output_path j;
     reference_frame_number := reference_frame_number j; progress := progress j;
     stage := stage j; webhook_url := webhook_url j;
     webhook_events := webhook_events j; created_at := created_at j;
     updated_at := updated_at j; error := error j;
     webhook_last_error := v |}.

(** Python truthiness of an optional string ([None] and [""] are falsy). *)
Definition truthy (o : option string) : bool :=
  match o with
  | Some (String _ _) => true
  | _ => false
  end.

(** ** The world: store, clock, lanes, and what leaves the process *)

(** The JSON body posted to a webhook subscriber. *)
Record Push := {
  push_url : string;
  push_event : string;
  push_job_id : string;
  push_status : Status;
  push_stage : option string;
  push_progress : Z;
  push_mode : string;
  push_target_kind : Kind;
  push_owner_id : string;
  push_updated_at : nat;
}.

(** One lane of [app.state]: [queue_<kind>] (head is the next job to run),
    [running_<kind>], the local variables [job_id] and [job] of the lane's
    [worker] coroutine once it has loaded a record, and whether that
    coroutine is still alive. *)
Record Lane := {
  queue : list string;
  running : bool;
  frame : option (string * Job);
  alive : bool;
}.

Record World := {
  store : gmap string Job;          (* API_JOBS_PATH/<job_id>.json *)
  clock : nat;                      (* what now_iso() reads *)
  lane_video : Lane;
  lane_image : Lane;
  notified : list (string * string);  (* calls of send_webhook: (job id, event) *)
  pushes : list Push;               (* webhook posts, oldest first *)
  cli : list (list string);         (* engine command lines, oldest first *)
}.

Definition lane (k : Kind) (w : World) : Lane :=
  match k with video => lane_video w | image => lane_image w end.

Definition with_store (s : gmap string Job) (w : World) : World :=
  {| store := s; clock := clock w; lane_video := lane_video w;
     lane_image := lane_image w; notified := notified w;
     pushes := pushes w; cli := cli w |}.

Definition with_clock (c : nat) (w : World) : World :=
  {| store := store w; clock := c; lane_video := lane_video w;
     lane_image := lane_image w; notified := notified w;
     pushes := pushes w; cli := cli w |}.

Definition with_lane (k : Kind) (l : Lane) (w : World) : World :=
  match k with
  | video =>
      {| store := store w; clock := clock w; lane_video := l;
         lane_image := lane_image w; notified := notified w;
         pushes := pushes w; cli := cli w |}
  | image =>
      {| store := store w; clock := clock w; lane_video := lane_video w;
         lane_image := l; notified := notified w;
         pushes := pushes w; cli := cli w |}
  end.

Definition with_notified (n : list (string * string)) (w : World) : World :=
  {| store := store w; clock := clock w; lane_video := lane_video w;
     lane_image := lane_image w; notified := n;
     pushes := pushes w; cli := cli w |}.

Definition with_pushes (p : list Push) (w : World) : World :=
  {| store := store w; clock := clock w; lane_video := lane_video w;
     lane_image := lane_image w; notified := notified w;
     pushes := p; cli := cli w |}.

Definition with_cli (c : list (list string)) (w : World) : World :=
  {| store := store w; clock := clock w; lane_video := lane_video w;
     lane_image := lane_image w; notified := notified w;
     pushes := pushes w; cli := c |}.

Definition with_queue (q : list string) (l : Lane) : Lane :=
  {| queue := q; running := running l; frame := frame l; alive := alive l |}.
Definition with_running (b : bool) (l : Lane) : Lane :=
  {| queue := queue l; running := b; frame := frame l; alive := alive l |}.
Definition with_frame (f : option (string * Job)) (l : Lane) : Lane :=
  {| queue := queue l; running := running l; frame := f; alive := alive l |}.
Definition with_alive (b : bool) (l : Lane) : Lane :=
  {| queue := queue l; running := running l; frame := frame l; alive := b |}.

(** ** Exceptions and the monad *)

Inductive Exc :=
| HTTPException (status_code : Z) (detail : string)
| CalledProcessError (returncode : Z) (cmd : list string)
| TypeError (msg : string).

Inductive Res (A : Type) :=
| Ok (a : A)
| Raise (e : Exc).
Arguments Ok {A} a.
Arguments Raise {A} e.

Definition M (A : Type) : Type := World -> Res A * World.

Definition ret {A} (a : A) : M A := fun w => (Ok a, w).
Definition raise {A} (e : Exc) : M A := fun w => (Raise e, w).
Definition bind {A B} (m : M A) (f : A -> M B) : M B :=
  fun w => match m w with
           | (Ok a, w') => f a w'
           | (Raise e, w') => (Raise e, w')
           end.
Definition gets {A} (f : World -> A) : M A := fun w => (Ok (f w), w).
Definition modify (f : World -> World) : M unit := fun w => (Ok tt, f w).

(** [try: body / except Exception as exc: handler exc] *)
Definition try_except {A} (body : M A) (handler : Exc -> M A) : M A :=
  fun w => match body w with
           | (Ok a, w') => (Ok a, w')
           | (Raise e, w') => handler e w'
           end.

(** [try: body / finally: fin] *)
Definition try_finally {A} (body : M A) (fin : M unit) : M A :=
  fun w => match body w with
           | (r, w') =>
               match fin w' with
               | (Ok _, w'') => (r, w'')
               | (Raise e, w'') => (Raise e, w'')
               end
           end.

Declare Scope m_scope.
Delimit Scope m_scope with M.
Notation "x <- m ;; k" := (bind m (fun x => k))
  (at level 100, m at next level, right associativity) : m_scope.
Notation "m ;;; k" := (bind m (fun _ => k))
  (at level 100, right associativity) : m_scope.
Local Open Scope m_scope.

Fixpoint for_each {A} (l : list A) (body : A -> M unit) : M unit :=
  match l with
  | [] => ret tt
  | x :: l' => body x ;;; for_each l' body
  end.

(** [repr] of a list of plain strings, and [str(exc)] for the exceptions the
    program meets: Starlette prints an [HTTPException] as [code: detail], the
    standard library a [CalledProcessError] as below (a negative return code
    names the signal). *)
Definition repr_str (s : string) : string := "'" +:+ s +:+ "'".

Fixpoint join (sep : string) (l : list string) : string :=
  match l with
  | [] => ""
  | [x] => x
  | x :: l' => x +:+ sep +:+ join sep l'
  end.

Definition repr_list (l : list string) : string :=
  "[" +:+ join ", " (map repr_str l) +:+ "]".

Definition str_exc (e : Exc) : string :=
  match e with
  | HTTPException c d => str_of_Z c +:+ ": " +:+ d
  | CalledProcessError r cmd =>
      if r <? 0
      then "Command '" +:+ repr_list cmd +:+ "' died with signal " +:+ str_of_Z (- r) +:+ "."
      else "Command '" +:+ repr_list cmd +:+ "' returned non-zero exit status "
           +:+ str_of_Z r +:+ "."
  | TypeError m => m
  end.

(** ** [backend/jobs.py]: the record store *)

Definition now_iso : M nat :=
  fun w => (Ok (clock w), with_clock (S (clock w)) w).

(** Records are stored under [API_JOBS_PATH/<job_id>.json]; the map is keyed
    by the job id. *)
Definition load_job (id : string) : M Job :=
  fun w => match store w !! id with
           | None => (Raise (HTTPException 404 "Job not found"), w)
           | Some j => (Ok j, w)
           end.

(** [save_job] stamps the dictionary it is given, so it returns the stamped
    dictionary: the caller's variable refers to it from then on. *)
Definition save_job (job : Job) : M Job :=
  t <- now_iso ;;
  let job' := set_updated_at t job in
  modify (fun w => with_store (<[job_id job' := job']> (store w)) w) ;;;
  ret job'.

Definition update_job (id : string) (fields : Job -> Job) : M Job :=
  job <- load_job id ;;
  job <- save_job (fields job) ;;
  ret job.

Definition allowed_target_kind (mode : string) : Kind :=
  if startswith mode "photo_video" then video else image.

Definition resolve_models (mode : string) (target : string) : string * string :=
  if String.eqb mode "photo_video_fast" then ("inswapper_128_fp16", "gfpgan_1.4")
  else if String.eqb mode "photo_video_quality" then ("hyperswap_1c_256", "codeformer")
  else if String.eqb mode "photo_photo_gpen" then ("hyperswap_1c_256", "gpen_bfr_1024")
  else if String.eqb mode "photo_photo_codeformer" then ("hyperswap_1c_256", "codeformer")
  else if str_mem (lower (path_suffix target)) ALLOWED_VIDEO_EXT
       then ("inswapper_128_fp16", "gfpgan_1.4")
  else ("hyperswap_1c_256", "gpen_bfr_1024").

(** [hex] is [uuid.uuid4().hex]. *)
Definition build_output_path (cfg : Config) (hex : string) (target_path : string) : string :=
  let ext := match path_suffix target_path with "" => ".mp4" | e => e end in
  OUTPUT_DIR cfg +:+ "/" +:+ hex +:+ ext.

(** An upload: its file name and the sizes of the chunks [upload.read]
    hands out; [too_long] is what [is_video_too_long] finds once the file
    is on disk. *)
Record UploadFile := {
  filename : option string;
  chunks : list Z;
  too_long : bool;
}.

Fixpoint save_upload_chunks (cs : list Z) (size : Z) (max_bytes : option Z) : Res Z :=
  match cs with
  | [] => Ok size
  | c :: cs' =>
      if c =? 0 then Ok size
      else
        let size := size + c in
        match max_bytes with
        | Some m =>
            if negb (m =? 0) && (m <? size)
            then Raise (HTTPException 413 "File too large")
            else save_upload_chunks cs' size max_bytes
        | None => save_upload_chunks cs' size max_bytes
        end
  end.

Definition save_upload_file (upload : UploadFile) (dest : string) (max_bytes : option Z) : M Z :=
  fun w => (save_upload_chunks (chunks upload) 0 max_bytes, w).

(** [subprocess.run(args, check=True)]: [code] is the exit status of the
    child. *)
Definition run_cli (code : Z) (args : list string) : M unit :=
  modify (fun w => with_cli (cli w ++ [args]) w) ;;;
  if code =? 0 then ret tt else raise (CalledProcessError code args).

Definition enqueue_facefusion_job (cfg : Config) (codes : Z * Z * Z) (job : Job) : M unit :=
  match source_path job, target_path job, output_path job with
  | Some source, Some target, Some output =>
      let '(c1, c2, c3) := codes in
      let '(swap_model, enh_model) := resolve_models (mode job) target in
      run_cli c1 ["python"; "facefusion.py"; "job-create"; job_id job;
                  "--jobs-path"; JOBS_PATH cfg] ;;;
      let args := ["python"; "facefusion.py"; "job-add-step"; job_id job;
                   "-s"; source; "-t"; target; "-o"; output;
                   "--face-swapper-model"; swap_model;
                   "--face-enhancer-model"; enh_model;
                   "--jobs-path"; JOBS_PATH cfg;
                   "--config-path"; CONFIG_PATH cfg] in
      let args := match reference_frame_number job with
                  | Some n => if n =? 0 then args
                              else args ++ ["--reference-frame-number"; str_of_Z n]
                  | None => args
                  end in
      run_cli c2 args ;;;
      run_cli c3 ["python"; "facefusion.py"; "job-submit"; job_id job;
                  "--jobs-path"; JOBS_PATH cfg]
  | _, _, _ => raise (TypeError "expected str, bytes or os.PathLike object, not NoneType")
  end.

(** ** Notification *)

Definition ALL_EVENTS : list string := ["queued"; "running"; "completed"; "failed"].

(** [job.get("webhook_events") or [...]]: a missing or empty list means all
    four events. *)
Definition subscribed_events (job : Job) : list string :=
  match webhook_events job with
  | None | Some [] => ALL_EVENTS
  | Some l => l
  end.

Definition payload (url : string) (job : Job) (event : string) : Push :=
  {| push_url := url; push_event := event; push_job_id := job_id job;
     push_status := status job; push_stage := stage job;
     push_progress := progress job; push_mode := mode job;
     push_target_kind := target_kind job; push_owner_id := owner_id job;
     push_updated_at := updated_at job |}.

(** [delivered] tells whether [client.post] returned; when it raised, the
    failure is noted on the dictionary and saved.  The dictionary is returned
    because the caller's [job] is the one that was marked.  Every call is
    entered in [notified], every post in [pushes]. *)
Definition send_webhook (delivered : bool) (job : Job) (event : string) : M Job :=
  modify (fun w => with_notified (notified w ++ [(job_id job, event)]) w) ;;;
  match webhook_url job with
  | Some (String a u) =>
      let url := String a u in
      if negb (str_mem event (subscribed_events job)) then ret job
      else
        modify (fun w => with_pushes (pushes w ++ [payload url job event]) w) ;;;
        if delivered then ret job
        else save_job (set_webhook_last_error (Some "failed") job)
  | _ => ret job
  end.

(** ** Progress parsing: a backtracking matcher for the pattern language
    [PROGRESS_RE] is written in *)

Inductive regex :=
| Lit (s : list ascii)               (* literal text *)
| Class (p : ascii -> bool)          (* one character of a class *)
| Alt (r1 r2 : regex)                (* r1|r2, left alternative first *)
| Cat (r1 r2 : regex)                (* r1 r2 *)
| Plus (r : regex)                   (* r+, greedy *)
| Group (g : nat) (r : regex).       (* capturing group number g *)

(** Captured groups, most recent first. *)
Definition captures := list (nat * list ascii).

Fixpoint strip_prefix (p s : list ascii) : option (list ascii) :=
  match p, s with
  | [], _ => Some s
  | a :: p', b :: s' => if Ascii.eqb a b then strip_prefix p' s' else None
  | _ :: _, [] => None
  end.

(** The greedy loop of [r+]: one more round of the body [m], then, if the
    rest of the pattern fails after it, the continuation [k]. *)
Definition plus_loop {R : Type}
    (m : list ascii -> captures -> (list ascii -> captures -> option R) -> option R)
    (k : list ascii -> captures -> option R)
    : nat -> list ascii -> captures -> option R :=
  fix loop (n : nat) (s : list ascii) (caps : captures) : option R :=
    match n with
    | O => None
    | S n' =>
        m s caps
          (fun s' caps' =>
             match loop n' s' caps' with
             | Some x => Some x
             | None => k s' caps'
             end)
    end.

(** [rmatch r s caps k]: match [r] at the start of [s], then hand the rest
    of the input and the groups to the continuation [k]; when [k] fails the
    matcher backtracks into [r]. *)
Fixpoint rmatch {R : Type} (r : regex) (s : list ascii) (caps : captures)
    (k : list ascii -> captures -> option R) {struct r} : option R :=
  match r with
  | Lit p =>
      match strip_prefix p s with
      | Some s' => k s' caps
      | None => None
      end
  | Class p =>
      match s with
      | c :: s' => if p c then k s' caps else None
      | [] => None
      end
  | Alt r1 r2 =>
      match rmatch r1 s caps k with
      | Some x => Some x
      | None => rmatch r2 s caps k
      end
  | Cat r1 r2 => rmatch r1 s caps (fun s' caps' => rmatch r2 s' caps' k)
  | Plus r1 => plus_loop (rmatch r1) k (S (length s)) s caps
  | Group g r1 =>
      rmatch r1 s caps
        (fun s' caps' => k s' ((g, take (length s - length s') s) :: caps'))
  end.

(** [pattern.search]: the leftmost position at which the pattern matches. *)
Fixpoint search (r : regex) (s : list ascii) : option captures :=
  match rmatch r s [] (fun _ caps => Some caps) with
  | Some caps => Some caps
  | None =>
      match s with
      | [] => None
      | _ :: s' => search r s'
      end
  end.

Fixpoint group (g : nat) (caps : captures) : option (list ascii) :=
  match caps with
  | [] => None
  | (g', t) :: caps' => if Nat.eqb g g' then Some t else group g caps'
  end.

Definition VERBS : list string :=
  ["analysing"; "extracting"; "processing"; "merging"; "restoring"; "finalizing"].

(** [analysing|extracting|processing|merging|restoring|finalizing] *)
Definition verbs_re : regex :=
  Alt (Lit (chars "analysing"))
 (Alt (Lit (chars "extracting"))
 (Alt (Lit (chars "processing"))
 (Alt (Lit (chars "merging"))
 (Alt (Lit (chars "restoring"))
      (Lit (chars "finalizing")))))).

(** [(analysing|extracting|processing|merging|restoring|finalizing):\s+(\d+)%] *)
Definition PROGRESS_RE : regex :=
  Cat (Group 1 verbs_re)
 (Cat (Lit (chars ":"))
 (Cat (Plus (Class is_space))
 (Cat (Group 2 (Plus (Class is_digit)))
      (Lit (chars "%"))))).

Definition parse_progress (line : string) : option (string * Z) :=
  match search PROGRESS_RE (chars line) with
  | None => None
  | Some caps =>
      match group 1 caps, group 2 caps with
      | Some stage, Some digits => Some (text stage, int_of_digits digits)
      | _, _ => None
      end
  end.

(** What it means for a text to match a pattern, with the groups it leaves
    behind: the reading of the pattern the matcher is checked against. *)
Inductive lang : regex -> list ascii -> captures -> captures -> Prop :=
| L_lit p c : lang (Lit p) p c c
| L_class (p : ascii -> bool) a c : p a = true -> lang (Class p) [a] c c
| L_alt_l r1 r2 s c c' : lang r1 s c c' -> lang (Alt r1 r2) s c c'
| L_alt_r r1 r2 s c c' : lang r2 s c c' -> lang (Alt r1 r2) s c c'
| L_cat r1 r2 s1 s2 c c' c'' :
    lang r1 s1 c c' -> lang r2 s2 c' c'' -> lang (Cat r1 r2) (s1 ++ s2) c c''
| L_plus_one r s c c' : lang r s c c' -> lang (Plus r) s c c'
| L_plus_more r s1 s2 c c' c'' :
    lang r s1 c c' -> lang (Plus r) s2 c' c'' -> lang (Plus r) (s1 ++ s2) c c''
| L_group g r s c c' : lang r s c c' -> lang (Group g r) s c ((g, s) :: c').

(** Every repeated body consumes at least one character. *)
Fixpoint productive (r : regex) : Prop :=
  match r with
  | Lit _ | Class _ => True
  | Alt r1 r2 | Cat r1 r2 => productive r1 /\ productive r2
  | Plus r1 => productive r1 /\ (forall s c c', lang r1 s c c' -> s <> [])
  | Group _ r1 => productive r1
  end.

(** A line reports progress when it contains one of the verbs, a colon,
    some white space, some digits and a percent sign, in that order. *)
Definition progress_report (line : string) (stage : string) (percent : Z) : Prop :=
  exists pre ws ds post,
    chars line = pre ++ chars stage ++ chars ":" ++ ws ++ ds ++ chars "%" ++ post
    /\ In stage VERBS
    /\ ws <> [] /\ forallb is_space ws = true
    /\ ds <> [] /\ forallb is_digit ds = true
    /\ percent = int_of_digits ds.

(** ** The process runner *)

Definition job_run_args (cfg : Config) (id : string) (kind : Kind) : list string :=
  let args := ["python"; "facefusion.py"; "job-run"; id;
               "--jobs-path"; JOBS_PATH cfg; "--config-path"; CONFIG_PATH cfg] in
  let exec_providers :=
    match kind with video => VIDEO_EXEC_PROVIDERS cfg | image => IMAGE_EXEC_PROVIDERS cfg end in
  let vms := match kind with video => VIDEO_VMS cfg | image => IMAGE_VMS cfg end in
  let args := match exec_providers with
              | [] => args
              | _ => args ++ "--execution-providers" :: exec_providers
              end in
  match vms with
  | "" => args
  | _ => args ++ ["--video-memory-strategy"; vms]
  end.

(** The body of [for raw_line in proc.stdout]. *)
Definition on_output_line (id : string) (raw_line : string) : M unit :=
  let line := strip raw_line in
  match line with
  | "" => ret tt
  | _ =>
      match parse_progress line with
      | Some (stage, percent) =>
          update_job id (fun j => set_progress percent (set_stage (Some stage) j)) ;;;
          ret tt
      | None => ret tt
      end
  end.

(** [proc.wait()] and the check that follows it. *)
Definition on_exit (args : list string) (code : Z) : M unit :=
  if code =? 0 then ret tt else raise (CalledProcessError code args).

(** [output] is what the child prints, line by line, and [code] its exit
    status. *)
Definition run_facefusion_job (cfg : Config) (output : list string) (code : Z)
    (id : string) (kind : Kind) : M unit :=
  let args := job_run_args cfg id kind in
  modify (fun w => with_cli (cli w ++ [args]) w) ;;;
  for_each output (on_output_line id) ;;;
  on_exit args code.

(** ** The lane dispatcher *)

Definition idle_lane : Lane :=
  {| queue := []; running := false; frame := None; alive := true |}.

(** [start_workers]: fresh queues, flags down, one task per lane. *)
Definition start_workers : M unit :=
  modify (fun w => with_lane image idle_lane (with_lane video idle_lane w)).

(** [queue.put_nowait(job_id)] on the lane of [target_kind]. *)
Definition queue_job (id : string) (kind : Kind) : M unit :=
  modify (fun w => with_lane kind (with_queue (queue (lane kind w) ++ [id]) (lane kind w)) w).

(** The worker's locals: [job_id, job = ...], reading [job], and rebinding
    what [job] refers to. *)
Definition enter (kind : Kind) (id : string) (job : Job) : M unit :=
  modify (fun w => with_lane kind (with_frame (Some (id, job)) (lane kind w)) w).

Definition get_frame (kind : Kind) : M Job :=
  fun w => match frame (lane kind w) with
           | Some (_, j) => (Ok j, w)
           | None => (Raise (TypeError "local variable 'job' referenced before assignment"), w)
           end.

Definition get_frame_id (kind : Kind) : M string :=
  fun w => match frame (lane kind w) with
           | Some (id, _) => (Ok id, w)
           | None => (Raise (TypeError "local variable 'job_id' referenced before assignment"), w)
           end.

Definition set_frame (kind : Kind) (j : Job) : M unit :=
  modify (fun w =>
    match frame (lane kind w) with
    | Some (id, _) => with_lane kind (with_frame (Some (id, j)) (lane kind w)) w
    | None => w
    end).

(** [job[...] = v] on the worker's dictionary. *)
Definition assign (kind : Kind) (f : Job -> Job) : M unit :=
  j <- get_frame kind ;; set_frame kind (f j).

(** A call that takes the worker's dictionary and mutates it in place. *)
Definition with_job (kind : Kind) (f : Job -> M Job) : M unit :=
  j <- get_frame kind ;; j' <- f j ;; set_frame kind j'.

Definition set_running_flag (kind : Kind) (b : bool) : M unit :=
  modify (fun w => with_lane kind (with_running b (lane kind w)) w).

(** What one iteration of the loop is told by its surroundings: the lines
    and exit status of the engine, and whether each webhook post went
    through. *)
Record RunEnv := {
  engine_output : list string;
  engine_exit : Z;
  post_running : bool;
  post_done : bool;
}.

(** Lines 250-254: the transition to [running] and its notification. *)
Definition mark_running (kind : Kind) (delivered : bool) : M unit :=
  assign kind (set_status Running) ;;;
  assign kind (set_stage None) ;;;
  assign kind (set_progress 0) ;;;
  with_job kind save_job ;;;
  with_job kind (fun j => send_webhook delivered j "running").

(** Lines 257-261. *)
Definition mark_completed (kind : Kind) (delivered : bool) : M unit :=
  assign kind (set_status Completed) ;;;
  assign kind (set_stage (Some "completed")) ;;;
  assign kind (set_progress 100) ;;;
  with_job kind save_job ;;;
  with_job kind (fun j => send_webhook delivered j "completed").

(** Lines 262-267: the [except Exception as exc] clause. *)
Definition mark_failed (kind : Kind) (delivered : bool) (exc : Exc) : M unit :=
  assign kind (set_status Failed) ;;;
  assign kind (set_stage (Some "failed")) ;;;
  assign kind (set_error (Some (str_exc exc))) ;;;
  with_job kind save_job ;;;
  with_job kind (fun j => send_webhook delivered j "failed").

(** Lines 268-270: the [finally] clause; [queue.task_done()] only feeds
    [queue.join()], which nothing awaits. *)
Definition release (kind : Kind) : M unit :=
  set_running_flag kind false.

(** Lines 247-270 for the id [queue.get()] returned. *)
Definition worker_body (cfg : Config) (kind : Kind) (env : RunEnv) (id : string) : M unit :=
  job <- load_job id ;;
  enter kind id job ;;;
  set_running_flag kind true ;;;
  try_finally
    (try_except
       (mark_running kind (post_running env) ;;;
        j <- get_frame kind ;;
        run_facefusion_job cfg (engine_output env) (engine_exit env) id (target_kind j) ;;;
        mark_completed kind (post_done env))
       (fun exc => mark_failed kind (post_done env) exc))
    (release kind).

(** One pass through [while True]: [None] while the queue is empty (the
    coroutine stays suspended in [queue.get()]) or the task is gone;
    otherwise the outcome of the body.  An exception that leaves the body
    ends the coroutine. *)
Definition worker_iteration (cfg : Config) (kind : Kind) (env : RunEnv) (w : World)
    : option (Res unit * World) :=
  if alive (lane kind w) then
    match queue (lane kind w) with
    | [] => None
    | id :: rest =>
        let w1 := with_lane kind (with_queue rest (lane kind w)) w in
        match worker_body cfg kind env id w1 with
        | (Ok tt, w2) => Some (Ok tt, w2)
        | (Raise e, w2) =>
            Some (Raise e, with_lane kind (with_alive false (lane kind w2)) w2)
        end
    end
  else None.

(** The loop, for as many jobs as there are environments. *)
Fixpoint worker (cfg : Config) (kind : Kind) (envs : list RunEnv) (w : World) : World :=
  match envs with
  | [] => w
  | env :: envs' =>
      match worker_iteration cfg kind env w with
      | Some (_, w') => worker cfg kind envs' w'
      | None => w
      end
  end.

(** [hex] is [uuid.uuid4().hex]. *)
Definition create_job_record (owner : string) (mode : string) (hex : string) : M Job :=
  let kind := allowed_target_kind mode in
  let id := "api-" +:+ String.substring 0 8 hex in
  created <- now_iso ;;
  updated <- now_iso ;;
  let job := {| job_id := id; owner_id := owner; mode := mode;
                target_kind := kind; status := WaitingSource;
                source_path := None; target_path := None; output_path := None;
                reference_frame_number := None; progress := 0; stage := None;
                webhook_url := None; webhook_events := None;
                created_at := created; updated_at := updated;
                error := None; webhook_last_error := None |} in
  save_job job.

(** ** [backend/app.py]: the client-facing handlers *)

Record JobResponse := {
  r_job_id : string;
  r_status : Status;
  r_mode : string;
  r_target_kind : Kind;
  r_owner_id : string;
  r_progress : Z;
  r_stage : option string;
  source_uploaded : bool;
  target_uploaded : bool;
  result_ready : bool;
}.

Definition assert_owner (job : Job) (user_id : string) : M unit :=
  if String.eqb (owner_id job) user_id then ret tt
  else raise (HTTPException 403 "Forbidden").

Definition job_to_response (job : Job) : JobResponse :=
  {| r_job_id := job_id job; r_status := status job; r_mode := mode job;
     r_target_kind := target_kind job; r_owner_id := owner_id job;
     r_progress := progress job; r_stage := stage job;
     source_uploaded := truthy (source_path job);
     target_uploaded := truthy (target_path job);
     result_ready := status_eqb (status job) Completed && truthy (output_path job) |}.

(** [POST /jobs] *)
Definition create_job (payload_mode : string) (user_id : string) (hex : string)
    : M JobResponse :=
  let mode := if str_mem payload_mode ALLOWED_MODES then payload_mode else DEFAULT_MODE in
  job <- create_job_record user_id mode hex ;;
  ret (job_to_response job).

Definition upload_suffix (file : UploadFile) : string :=
  lower (path_suffix (match filename file with Some n => n | None => "" end)).

(** [POST /jobs/{job_id}/source] *)
Definition upload_source (cfg : Config) (id : string) (file : UploadFile)
    (user_id : string) (hex : string) : M JobResponse :=
  job <- load_job id ;;
  assert_owner job user_id ;;;
  let suffix := upload_suffix file in
  if negb (str_mem suffix ALLOWED_IMAGE_EXT)
  then raise (HTTPException 400 "Source must be jpg/jpeg/png")
  else
    let dest := SOURCE_DIR cfg +:+ "/" +:+ hex +:+ suffix in
    save_upload_file file dest None ;;;
    let job := set_source_path (Some dest) job in
    let job := set_status WaitingTarget job in
    job <- save_job job ;;
    ret (job_to_response job).

(** The kind the extension of an uploaded target stands for. *)
Definition detect_kind (suffix : string) : option Kind :=
  if str_mem suffix ALLOWED_IMAGE_EXT then Some image
  else if str_mem suffix ALLOWED_VIDEO_EXT then Some video
  else None.

(** [POST /jobs/{job_id}/target] *)
Definition upload_target (cfg : Config) (id : string) (file : UploadFile)
    (user_id : string) (hex : string) : M JobResponse :=
  job <- load_job id ;;
  assert_owner job user_id ;;;
  let suffix := upload_suffix file in
  match detect_kind suffix with
  | None => raise (HTTPException 400 "Target must be jpg/jpeg/png or mp4/mov")
  | Some detected =>
      if negb (kind_eqb detected (target_kind job))
      then raise (HTTPException 400
                    ("Target type must be " +:+ kind_str (target_kind job)))
      else
        let dest := TARGET_DIR cfg +:+ "/" +:+ hex +:+ suffix in
        let max_bytes := match detected with
                         | video => Some MAX_VIDEO_SIZE_BYTES
                         | image => None
                         end in
        save_upload_file file dest max_bytes ;;;
        if kind_eqb detected video && too_long file
        then raise (HTTPException 400 "Video too long (max 2 minutes)")
        else
          let job := set_target_path (Some dest) job in
          let job := if truthy (source_path job) then set_status Ready job else job in
          job <- save_job job ;;
          ret (job_to_response job)
  end.

(** [POST /jobs/{job_id}/submit]; [codes] are the exit statuses of the three
    engine commands, [delivered] the fate of the [queued] webhook. *)
Definition submit_job (cfg : Config) (id : string) (reference_frame : option Z)
    (user_id : string) (hex : string) (codes : Z * Z * Z) (delivered : bool)
    : M JobResponse :=
  job <- load_job id ;;
  assert_owner job user_id ;;;
  if negb (truthy (source_path job)) || negb (truthy (target_path job))
  then raise (HTTPException 400 "Source and target are required")
  else
    let target := match target_path job with Some t => t | None => "" end in
    let job := set_output_path (Some (build_output_path cfg hex target)) job in
    let job := match reference_frame with
               | Some n => set_reference_frame_number (Some n) job
               | None => job
               end in
    job <- save_job job ;;
    enqueue_facefusion_job cfg codes job ;;;
    queue_job id (target_kind job) ;;;
    let job := set_status Queued job in
    let job := set_stage (Some "queued") job in
    let job := set_progress 0 job in
    job <- save_job job ;;
    job <- send_webhook delivered job "queued" ;;
    ret (job_to_response job).

(** [POST /jobs/{job_id}/webhook] *)
Definition set_webhook (id : string) (url : string) (events : option (list string))
    (user_id : string) : M JobResponse :=
  job <- load_job id ;;
  assert_owner job user_id ;;;
  if negb (startswith url "http://") && negb (startswith url "https://")
  then raise (HTTPException 400 "Webhook url must be http(s)")
  else
    let job := set_webhook_url (Some url) job in
    let job := set_webhook_events
                 (Some (match events with
                        | None | Some [] => ALL_EVENTS
                        | Some l => l
                        end)) job in
    job <- save_job job ;;
    ret (job_to_response job).

(** [POST /jobs/quick] *)
Definition quick_job (cfg : Config) (mode : string) (source target : UploadFile)
    (user_id : string) (hex_job hex_source hex_target hex_output : string)
    (codes : Z * Z * Z) (delivered : bool) : M JobResponse :=
  let job_mode := if str_mem mode ALLOWED_MODES then mode else DEFAULT_MODE in
  job <- create_job_record user_id job_mode hex_job ;;
  let id := job_id job in
  upload_source cfg id source user_id hex_source ;;;
  upload_target cfg id target user_id hex_target ;;;
  submit_job cfg id None user_id hex_output codes delivered.

(** [GET /jobs/{job_id}] *)
Definition get_job (id : string) (user_id : string) : M JobResponse :=
  job <- load_job id ;;
  assert_owner job user_id ;;;
  ret (job_to_response job).

(** [GET /jobs/{job_id}/events]: the checks made before the stream is handed
    to the client. *)
Definition job_events (id : string) (user_id : string) : M unit :=
  job <- load_job id ;;
  assert_owner job user_id ;;;
  ret tt.

(** [GET /jobs/{job_id}/result]; [on_disk] is [path.exists()], the answer is
    the path of the file that is served. *)
Definition get_result (id : string) (user_id : string) (on_disk : bool) : M string :=
  job <- load_job id ;;
  assert_owner job user_id ;;;
  if negb (status_eqb (status job) Completed) || negb (truthy (output_path job))
  then raise (HTTPException 404 "Result not ready")
  else
    if negb on_disk then raise (HTTPException 404 "Result not found")
    else ret (match output_path job with Some p => p | None => "" end).

(** [POST /jobs/{job_id}/cancel] *)
Definition cancel_job (id : string) (user_id : string) : M JobResponse :=
  job <- load_job id ;;
  assert_owner job user_id ;;;
  let job := set_status Cancelled job in
  job <- save_job job ;;
  ret (job_to_response job).

(** ** The service as a transition system

    A request handler is one step: the handlers run on the one event loop,
    and the places where an upload handler or a webhook post waits are not
    taken as points where other steps come in between.  A pass of a lane's
    worker is cut where the coroutine waits for the executor: up to the
    launch of the engine, then one step per line the engine prints (the
    executor thread calls [update_job]), then the step that follows the exit
    of the engine.  A raise inside the [try] block runs the [except] and
    [finally] clauses within the same step. *)

Definition boot : World :=
  {| store := ∅; clock := 0; lane_video := idle_lane; lane_image := idle_lane;
     notified := []; pushes := []; cli := [] |}.

Definition guarded (kind : Kind) (delivered : bool) (m : M unit) : M unit :=
  try_except m
    (fun exc => try_finally (mark_failed kind delivered exc) (release kind)).

Definition launch (cfg : Config) (kind : Kind) : M unit :=
  id <- get_frame_id kind ;;
  j <- get_frame kind ;;
  modify (fun w => with_cli (cli w ++ [job_run_args cfg id (target_kind j)]) w).

Definition step_begin (cfg : Config) (kind : Kind) (delivered : bool) (id : string) : M unit :=
  job <- load_job id ;;
  enter kind id job ;;;
  set_running_flag kind true ;;;
  guarded kind delivered (mark_running kind delivered ;;; launch cfg kind).

Definition step_output (kind : Kind) (delivered : bool) (raw_line : string) : M unit :=
  id <- get_frame_id kind ;;
  guarded kind delivered (on_output_line id raw_line).

Definition step_exit (cfg : Config) (kind : Kind) (code : Z) (delivered : bool) : M unit :=
  id <- get_frame_id kind ;;
  j <- get_frame kind ;;
  try_finally
    (try_except
       (on_exit (job_run_args cfg id (target_kind j)) code ;;;
        mark_completed kind delivered)
       (fun exc => mark_failed kind delivered exc))
    (release kind).

Inductive Action :=
| ACreate (payload_mode user hex : string)
| AUploadSource (id : string) (file : UploadFile) (user hex : string)
| AUploadTarget (id : string) (file : UploadFile) (user hex : string)
| ASubmit (id : string) (reference_frame : option Z) (user hex : string)
          (codes : Z * Z * Z) (delivered : bool)
| ASetWebhook (id url : string) (events : option (list string)) (user : string)
| AGet (id user : string)
| AEvents (id user : string)
| AResult (id user : string) (on_disk : bool)
| ACancel (id user : string)
| ABegin (kind : Kind) (delivered : bool)
| AOutput (kind : Kind) (delivered : bool) (raw_line : string)
| AExit (kind : Kind) (code : Z) (delivered : bool).

(** What an observer of a lane sees: an id entering the queue, and a job
    being moved to [running]. *)
Inductive Event :=
| Enqueued (kind : Kind) (id : string)
| Started (kind : Kind) (id : string).

Definition kill (kind : Kind) (w : World) : World :=
  with_lane kind (with_alive false (lane kind w)) w.

Definition lane_step (kind : Kind) (m : M unit) (ev : list Event) (w : World)
    : World * list Event :=
  match m w with
  | (Ok _, w') => (w', ev)
  | (Raise _, w') => (kill kind w', [])
  end.

(** A step that is not enabled leaves the world as it is.  Job ids are
    drawn at random; a draw that would repeat an id is not enabled. *)
Definition exec (cfg : Config) (a : Action) (w : World) : World * list Event :=
  match a with
  | ACreate payload_mode user hex =>
      match store w !! ("api-" +:+ String.substring 0 8 hex) with
      | None => (snd (create_job payload_mode user hex w), [])
      | Some _ => (w, [])
      end
  | AUploadSource id file user hex => (snd (upload_source cfg id file user hex w), [])
  | AUploadTarget id file user hex => (snd (upload_target cfg id file user hex w), [])
  | ASubmit id rf user hex codes delivered =>
      match submit_job cfg id rf user hex codes delivered w with
      | (Ok r, w') => (w', [Enqueued (r_target_kind r) (r_job_id r)])
      | (Raise _, w') => (w', [])
      end
  | ASetWebhook id url events user => (snd (set_webhook id url events user w), [])
  | AGet id user => (snd (get_job id user w), [])
  | AEvents id user => (snd (job_events id user w), [])
  | AResult id user on_disk => (snd (get_result id user on_disk w), [])
  | ACancel id user => (snd (cancel_job id user w), [])
  | ABegin kind delivered =>
      if alive (lane kind w) && negb (running (lane kind w)) then
        match queue (lane kind w) with
        | [] => (w, [])
        | id :: rest =>
            lane_step kind (step_begin cfg kind delivered id) [Started kind id]
              (with_lane kind (with_queue rest (lane kind w)) w)
        end
      else (w, [])
  | AOutput kind delivered raw_line =>
      if alive (lane kind w) && running (lane kind w)
      then lane_step kind (step_output kind delivered raw_line) [] w
      else (w, [])
  | AExit kind code delivered =>
      if alive (lane kind w) && running (lane kind w)
      then lane_step kind (step_exit cfg kind code delivered) [] w
      else (w, [])
  end.

Fixpoint run_actions (cfg : Config) (acts : list Action) (w : World)
    : World * list Event :=
  match acts with
  | [] => (w, [])
  | a :: acts' =>
      let '(w1, ev1) := exec cfg a w in
      let '(w2, ev2) := run_actions cfg acts' w1 in
      (w2, ev1 ++ ev2)
  end.

Definition event_of_lane (kind : Kind) (e : Event) : bool :=
  match e with
  | Enqueued k _ | Started k _ => kind_eqb k kind
  end.

Fixpoint enqueued (kind : Kind) (evs : list Event) : list string :=
  match evs with
  | [] => []
  | Enqueued k id :: evs' =>
      if kind_eqb k kind then id :: enqueued kind evs' else enqueued kind evs'
  | _ :: evs' => enqueued kind evs'
  end.

Fixpoint started (kind : Kind) (evs : list Event) : list string :=
  match evs with
  | [] => []
  | Started k id :: evs' =>
      if kind_eqb k kind then id :: started kind evs' else started kind evs'
  | _ :: evs' => started kind evs'
  end.

(** The jobs of a lane whose persisted status is [running]. *)
Definition running_in (kind : Kind) (w : World) (id : string) : Prop :=
  exists j, store w !! id = Some j /\ target_kind j = kind /\ status j = Running.

(** ** The record files and [JOB_LOCK]

    One level down, a record is a file and a save or a load is a short
    program run by some thread.  [Path.write_text] opens the file for
    writing, which empties it, and then writes the text. *)
Module Persistence.

Inductive Instr :=
| Acquire                                (* with JOB_LOCK: *)
| Release                                (* leaving the with block *)
| OpenTrunc (p : string)                 (* open(p, "w") *)
| Write (p : string) (data : string)     (* f.write(data) *)
| Probe (p : string)                     (* if not path.exists(): raise *)
| ReadText (p : string).                 (* path.read_text() *)

Inductive Task :=
| Save (p : string) (doc : string)       (* save_job: p = job_path(job["job_id"]) *)
| Load (p : string).                     (* load_job *)

Definition prog (t : Task) : list Instr :=
  match t with
  | Save p doc => [Acquire; OpenTrunc p; Write p doc; Release]
  | Load p => [Acquire; Probe p; ReadText p; Release]
  end.

Record State := {
  files : gmap string string;
  lock : option nat;
  threads : list (list Instr);
  seen : list (nat * string);            (* what each read_text returned *)
}.

Definition init (fs : gmap string string) (tasks : list Task) : State :=
  {| files := fs; lock := None; threads := map prog tasks; seen := [] |}.

Definition contents (fs : gmap string string) (p : string) : string :=
  match fs !! p with Some d => d | None => "" end.

(** Thread [i] runs its next instruction, if it has one and may run it. *)
Definition step (i : nat) (st : State) : State :=
  match threads st !! i with
  | Some (ins :: rest) =>
      let advance fs lk sn :=
        {| files := fs; lock := lk; threads := <[i := rest]> (threads st); seen := sn |} in
      match ins with
      | Acquire =>
          match lock st with
          | None => advance (files st) (Some i) (seen st)
          | Some _ => st
          end
      | Release => advance (files st) None (seen st)
      | OpenTrunc p => advance (<[p := ""]> (files st)) (lock st) (seen st)
      | Write p data =>
          advance (<[p := contents (files st) p +:+ data]> (files st)) (lock st) (seen st)
      | Probe p =>
          match files st !! p with
          | Some _ => advance (files st) (lock st) (seen st)
          | None =>
              {| files := files st; lock := lock st;
                 threads := <[i := [Release]]> (threads st); seen := seen st |}
          end
      | ReadText p =>
          advance (files st) (lock st) (seen st ++ [(i, contents (files st) p)])
      end
  | _ => st
  end.

Fixpoint run (sched : list nat) (st : State) : State :=
  match sched with
  | [] => st
  | i :: sched' => run sched' (step i st)
  end.

(** A document is whole when it is one of the initial files or the full
    text of some save. *)
Definition whole (fs : gmap string string) (tasks : list Task) (d : string) : Prop :=
  (exists p, fs !! p = Some d) \/ (exists p, In (Save p d) tasks).

(** What an atomic replace would guarantee of a lone save: at every
    moment the file holds the old text or the new one. *)
Definition replaces_atomically (fs : gmap string string) (p doc : string) : Prop :=
  forall n, let st := run (repeat 0%nat n) (init fs [Save p doc]) in
            files st !! p = fs !! p \/ files st !! p = Some doc.

(** Every file holds a whole document. *)
Definition all_whole (fs0 : gmap string string) (tasks : list Task)
    (fs : gmap string string) : Prop :=
  forall p d, fs !! p = Some d -> whole fs0 tasks d.

(** Where the holder of the lock may be in its program, and what the files
    look like at that point. *)
Definition critical (fs0 : gmap string string) (tasks : list Task)
    (fs : gmap string string) (l : list Instr) : Prop :=
  (exists p d, l = [OpenTrunc p; Write p d; Release]
               /\ whole fs0 tasks d /\ all_whole fs0 tasks fs)
  \/ (exists p d, l = [Write p d; Release]
                  /\ whole fs0 tasks d /\ fs !! p = Some ""
                  /\ all_whole fs0 tasks (delete p fs))
  \/ (l = [Release] /\ all_whole fs0 tasks fs)
  \/ (exists p, l = [Probe p; ReadText p; Release] /\ all_whole fs0 tasks fs)
  \/ (exists p, l = [ReadText p; Release] /\ all_whole fs0 tasks fs /\ is_Some (fs !! p)).

Record Sound (fs0 : gmap string string) (tasks : list Task) (st : State) : Prop := {
  snd_seen : forall i d, In (i, d) (seen st) -> whole fs0 tasks d;
  snd_free : lock st = None -> all_whole fs0 tasks (files st);
  snd_holder : forall i, lock st = Some i ->
               exists l, threads st !! i = Some l /\ critical fs0 tasks (files st) l;
  snd_others : forall i l, threads st !! i = Some l -> lock st <> Some i ->
               l = [] \/ exists t, In t tasks /\ l = prog t;
}.

End Persistence.

(** ** What holds in every state the service can reach *)

(** A submission request for [id] is among the steps taken. *)
Definition submitted (acts : list Action) (id : string) : Prop :=
  exists rf user hex codes delivered, In (ASubmit id rf user hex codes delivered) acts.

Definition pick (k : Kind) (lv li : Lane) : Lane :=
  match k with video => lv | image => li end.

(** The two lanes after lane [k] has become [l]. *)
Definition putv (k : Kind) (l lv : Lane) : Lane :=
  match k with video => l | image => lv end.
Definition puti (k : Kind) (l li : Lane) : Lane :=
  match k with image => l | video => li end.

(** The records are filed under their own id; a record whose status is
    [running] is the one its lane's worker is busy with; a worker holds a
    record of its own lane; a busy worker holds one; every queued id has a
    record of that lane; the workers are alive; and only a submitted job
    carries an output path, in the store or in a worker's hands. *)
Record InvC (acts : list Action) (s : gmap string Job) (lv li : Lane) : Prop := {
  inv_key : forall id j, s !! id = Some j -> job_id j = id;
  inv_run : forall id j, s !! id = Some j -> status j = Running ->
            running (pick (target_kind j) lv li) = true
            /\ exists fj, frame (pick (target_kind j) lv li) = Some (id, fj);
  inv_frame : forall k id fj, frame (pick k lv li) = Some (id, fj) ->
              job_id fj = id /\ target_kind fj = k
              /\ exists j, s !! id = Some j /\ target_kind j = k;
  inv_busy : forall k, running (pick k lv li) = true -> is_Some (frame (pick k lv li));
  inv_queue : forall k id, In id (queue (pick k lv li)) ->
              exists j, s !! id = Some j /\ target_kind j = k;
  inv_alive : forall k, alive (pick k lv li) = true;
  inv_out : forall id j, s !! id = Some j -> output_path j <> None ->
            submitted acts id;
  inv_out_frame : forall k id fj, frame (pick k lv li) = Some (id, fj) ->
                  output_path fj <> None -> submitted acts id;
}.

Definition Inv (acts : list Action) (w : World) : Prop :=
  InvC acts (store w) (lane_video w) (lane_image w).

(** ** Reasoning about computations *)

(** [wp m Q w]: running [m] from [w] ends in a result and a world that
    satisfy [Q]. *)
Definition wp {A : Type} (m : M A) (Q : Res A -> World -> Prop) (w : World) : Prop :=
  Q (fst (m w)) (snd (m w)).

(** A record without its time stamp and its delivery mark. *)
Definition core (j : Job) : Job := set_updated_at 0 (set_webhook_last_error None j).

(** A dictionary a handler may save over the record [id] without breaking
    the invariant. *)
Definition safe (acts : list Action) (w : World) (id : string) (j : Job) : Prop :=
  job_id j = id
  /\ exists j0, store w !! id = Some j0
      /\ target_kind j = target_kind j0
      /\ (status j = Running -> status j0 = Running)
      /\ (output_path j <> None -> submitted acts id).

Definition lanes_eq (w w' : World) : Prop :=
  lane_video w' = lane_video w /\ lane_image w' = lane_image w.

(** The shape shared by the three transitions of the worker: three
    assignments, a save, a notification. *)
Definition transition (kind : Kind) (f1 f2 f3 : Job -> Job) (delivered : bool)
    (event : string) : M unit :=
  assign kind f1 ;;;
  assign kind f2 ;;;
  assign kind f3 ;;;
  with_job kind save_job ;;;
  with_job kind (fun j => send_webhook delivered j event).

(** What every handler but [submit_job] guarantees. *)
Definition kept (acts : list Action) (w : World) {A : Type} (_ : Res A) (w' : World)
    : Prop :=
  Inv acts w' /\ lanes_eq w w'.

(** [submit_job] either fails and leaves the lanes alone, or answers and
    has put the id at the back of the queue of the job's lane. *)
Definition submitted_to (acts : list Action) (w : World) (id : string)
    (r : Res JobResponse) (w' : World) : Prop :=
  Inv acts w'
  /\ match r with
     | Ok resp =>
         let k := r_target_kind resp in
         let l := with_queue (queue (lane k w) ++ [id]) (lane k w) in
         r_job_id resp = id
         /\ lane_video w' = putv k l (lane_video w)
         /\ lane_image w' = puti k l (lane_image w)
     | Raise _ => lanes_eq w w'
     end.

(** The posts one call of [send_webhook] makes. *)
Definition posts_for (j : Job) (e : string) : list Push :=
  match webhook_url j with
  | Some (String a u) =>
      if str_mem e (subscribed_events j) then [payload (String a u) j e] else []
  | _ => []
  end.

(** The world after the worker of lane [kind] has rebound its [job]. *)
Definition put_frame (kind : Kind) (id : string) (j : Job) (w : World) : World :=
  with_lane kind (with_frame (Some (id, j)) (lane kind w)) w.

(** The record a pass of the worker leaves behind, time stamp and delivery
    mark aside, when it started from the record [j]. *)
Definition final (cfg : Config) (env : RunEnv) (id : string) (j : Job) : Job :=
  let jr := set_progress 0 (set_stage None (set_status Running j)) in
  if engine_exit env =? 0
  then set_progress 100 (set_stage (Some "completed") (set_status Completed jr))
  else set_error
         (Some (str_exc (CalledProcessError (engine_exit env)
                           (job_run_args cfg id (target_kind j)))))
         (set_stage (Some "failed") (set_status Failed jr)).

Definition final_event (env : RunEnv) : string :=
  if engine_exit env =? 0 then "completed" else "failed".

(** The events, among [evs], that reach the subscriber of [j]. *)
Definition pushed_events (j : Job) (evs : list string) : list string :=
  if truthy (webhook_url j)
  then List.filter (fun e => str_mem e (subscribed_events j)) evs
  else [].

(** One step keeps the order of a lane: what was started, followed by what
    still waits, is what waited before followed by what was enqueued. *)
Definition fifo_step (w : World) (r : World * list Event) : Prop :=
  forall k, started k (snd r) ++ queue (lane k (fst r))
            = queue (lane k w) ++ enqueued k (snd r).

(** How often the event [e] of job [id] occurs in a notification log. *)
Definition emitted (e id : string) (log : list (string * string)) : nat :=
  length (List.filter (fun n => String.eqb (fst n) id && String.eqb (snd n) e) log).

(** The reading of the data model under which an output path would mark a
    finished job. *)
Definition output_only_when_completed (w : World) : Prop :=
  forall id j, store w !! id = Some j -> output_path j <> None -> status j = Completed.

(** The reading of cancellation under which the worker would look at the
    status of what it dequeues and leave a cancelled job alone. *)
Definition leaves_cancelled (cfg : Config) (kind : Kind) (env : RunEnv) (w : World)
    : Prop :=
  forall id rest j,
    queue (lane kind w) = id :: rest ->
    store w !! id = Some j -> status j = Cancelled ->
    exists w' j', worker_iteration cfg kind env w = Some (Ok tt, w')
                  /\ store w' !! id = Some j' /\ status j' = Cancelled.

(** The reading of validation under which a request is turned away and the
    world left as it was. *)
Definition refused {A : Type} (m : M A) (w : World) : Prop :=
  exists e, m w = (Raise e, w).

(** ** Sample runs *)

Definition png : UploadFile :=
  {| filename := Some "face.PNG"; chunks := [2048]; too_long := false |}.

Definition mp4 : UploadFile :=
  {| filename := Some "clip.mp4"; chunks := [1048576; 4096]; too_long := false |}.

Definition demo_id : string := "api-01234567".

(** A photo job of user alice, created, fed both pictures and subscribed to
    [completed] only. *)
Definition demo_prepare : list Action :=
  [ACreate "photo_photo_gpen" "alice" "0123456789abcdef0123456789abcdef";
   AUploadSource demo_id png "alice" "aaaa";
   AUploadTarget demo_id png "alice" "bbbb";
   ASetWebhook demo_id "https://hooks.example/ff" (Some ["completed"]) "alice"].

Definition demo_submit : Action :=
  ASubmit demo_id None "alice" "cccc" (0, 0, 0) true.

Definition demo_ready : World := fst (run_actions default_config demo_prepare boot).

Definition demo_queued : World := fst (exec default_config demo_submit demo_ready).

Definition demo_cancelled : World :=
  fst (exec default_config (ACancel demo_id "alice") demo_queued).

Definition demo_env (code : Z) : RunEnv :=
  {| engine_output := ["processing: 42%"; ""; "[FACEFUSION.CORE] done"];
     engine_exit := code; post_running := true; post_done := true |}.

Definition blank_job : Job :=
  {| job_id := ""; owner_id := ""; mode := ""; target_kind := image;
     status := WaitingSource; source_path := None; target_path := None;
     output_path := None; reference_frame_number := None; progress := 0;
     stage := None; webhook_url := None; webhook_events := None;
     created_at := 0; updated_at := 0; error := None; webhook_last_error := None |}.

(** The record of the sample job before and after submission, and after
    the cancellation that follows. *)
Definition demo_job : Job :=
  Eval vm_compute in default blank_job (store demo_ready !! demo_id).

Definition demo_job_queued : Job :=
  Eval vm_compute in default blank_job (store demo_queued !! demo_id).

Definition demo_job_cancelled : Job :=
  Eval vm_compute in default blank_job (store demo_cancelled !! demo_id).

(** Two photo jobs and a video job of two users, submitted one after the
    other, then picked up by the workers. *)
Definition demo_traffic : list Action :=
  [ACreate "photo_photo_gpen" "alice" "11111111aaaa";
   ACreate "photo_video_fast" "bob" "22222222bbbb";
   ACreate "photo_photo_codeformer" "bob" "33333333cccc";
   AUploadSource "api-11111111" png "alice" "s1";
   AUploadTarget "api-11111111" png "alice" "t1";
   AUploadSource "api-22222222" png "bob" "s2";
   AUploadTarget "api-22222222" mp4 "bob" "t2";
   AUploadSource "api-33333333" png "bob" "s3";
   AUploadTarget "api-33333333" png "bob" "t3";
   ASubmit "api-33333333" None "bob" "o3" (0, 0, 0) true;
   ASubmit "api-22222222" (Some 12) "bob" "o2" (0, 0, 0) true;
   ASubmit "api-11111111" None "alice" "o1" (0, 0, 0) true;
   ABegin image true;
   ABegin video true;
   ABegin image true;
   AOutput image true "processing: 10%";
   AExit image 1 true;
   ABegin image true].

(** A record file, a save of a new text over it and a load, with the load
    arriving while the save holds the lock. *)
Definition demo_path : string := "/srv/jobs_path/api-01234567.json".

Definition demo_files : gmap string string := {[ demo_path := "{status: queued}" ]}.

Definition demo_tasks : list Persistence.Task :=
  [Persistence.Save demo_path "{status: running}"; Persistence.Load demo_path].

Definition demo_schedule : list nat := [0; 0; 1; 0; 0; 1; 1; 1; 1]%nat.

(** ** What the remaining properties are stated with *)

(** The bytes an upload delivers before [upload.read] hands out an empty
    chunk. *)
Fixpoint received (cs : list Z) : Z :=
  match cs with
  | [] => 0
  | c :: cs' => if c =? 0 then 0 else c + received cs'
  end.

(** The stage and percentage of the last line of the engine that reports
    progress. *)
Definition last_progress (output : list string) : option (string * Z) :=
  fold_left (fun acc raw_line =>
               match parse_progress (strip raw_line) with
               | Some r => Some r
               | None => acc
               end) output None.

(** The three engine commands of a submission. *)
Definition is_engine_command (verb id : string) (args : list string) : Prop :=
  exists rest, args = "python" :: "facefusion.py" :: verb :: id :: rest.

(** The notifications a worker makes while it takes the jobs [ids] through
    the passes [envs], one after the other. *)
Fixpoint passes_log (ids : list string) (envs : list RunEnv) : list (string * string) :=
  match ids, envs with
  | id :: ids', env :: envs' =>
      (id, "running") :: (id, final_event env) :: passes_log ids' envs'
  | _, _ => []
  end.

(** The dictionary the worker saves when the engine has exited with
    [code], given the dictionary [fj] it holds. *)
Definition exit_record (cfg : Config) (code : Z) (fj : Job) : Job :=
  if code =? 0
  then set_progress 100 (set_stage (Some "completed") (set_status Completed fj))
  else set_error
         (Some (str_exc (CalledProcessError code
                           (job_run_args cfg (job_id fj) (target_kind fj)))))
         (set_stage (Some "failed") (set_status Failed fj)).

(** A name that is not empty and has no [/] in it, as the hexadecimal
    names the uploads are stored under. *)
Definition plain_name (s : string) : bool :=
  negb (String.eqb s "") && forallb (fun c => negb (Ascii.eqb c "/")) (chars s).

(** ** [backend/app.py]: the event stream

    [GET /jobs/{job_id}/events] answers with a generator that looks at the
    record once a second.  A poll is what one turn of its loop meets:
    whether the client has gone, and the world at that moment.  Two
    snapshots are the same JSON text exactly when they are the same
    [JobResponse]. *)

#[global] Instance Kind_eq_decision : EqDecision Kind.
Proof. solve_decision. Defined.

#[global] Instance Status_eq_decision : EqDecision Status.
Proof. solve_decision. Defined.

#[global] Instance JobResponse_eq_decision : EqDecision JobResponse.
Proof. solve_decision. Defined.

Record Poll := {
  is_disconnected : bool;
  at_poll : World;
}.

(** How the generator has ended, if it has. *)
Inductive StreamEnd :=
| Disconnected                (* the client went away *)
| Finished                    (* a final status was sent *)
| Broken (e : Exc)            (* [load_job] raised *)
| Sleeping.                   (* still in [asyncio.sleep] *)

(** [status in {"completed", "failed", "cancelled"}] *)
Definition is_final (s : Status) : bool :=
  match s with
  | Completed | Failed | Cancelled => true
  | _ => false
  end.

(** The snapshots the generator yields over the given polls. *)
Fixpoint stream (id : string) (polls : list Poll) (last_payload : option JobResponse)
    : list JobResponse * StreamEnd :=
  match polls with
  | [] => ([], Sleeping)
  | p :: polls' =>
      if is_disconnected p then ([], Disconnected)
      else
        match load_job id (at_poll p) with
        | (Raise e, _) => ([], Broken e)
        | (Ok job_state, _) =>
            let data := job_to_response job_state in
            if bool_decide (Some data = last_payload) then stream id polls' last_payload
            else if is_final (status job_state) then ([data], Finished)
            else
              let '(rest, fin) := stream id polls' (Some data) in
              (data :: rest, fin)
        end
  end.

(** ** [backend/config.py]: the [.env] file *)

Definition double_quote : ascii := ascii_of_N 34.
Definition single_quote : ascii := ascii_of_N 39.

Fixpoint lstrip_chars (p : ascii -> bool) (l : list ascii) : list ascii :=
  match l with
  | c :: l' => if p c then lstrip_chars p l' else l
  | [] => []
  end.

(** [str.strip(c)] for a one-character argument. *)
Definition strip_char (c : ascii) (s : string) : string :=
  text (rev (lstrip_chars (Ascii.eqb c) (rev (lstrip_chars (Ascii.eqb c) (chars s))))).

(** [line.partition("=")] for a line that has an [=]: what stands before
    the first one and what stands after it. *)
Fixpoint partition_eq (l : list ascii) : option (list ascii * list ascii) :=
  match l with
  | [] => None
  | c :: l' =>
      if Ascii.eqb c "=" then Some ([], l')
      else match partition_eq l' with
           | Some (key, value) => Some (c :: key, value)
           | None => None
           end
  end.

(** The body of the loop over the lines of the file. *)
Definition env_line (raw_line : string) (environ : gmap string string)
    : gmap string string :=
  let line := strip raw_line in
  if String.eqb line "" || startswith line "#" then environ
  else
    match partition_eq (chars line) with
    | None => environ
    | Some (key, value) =>
        let key := strip (text key) in
        let value := strip_char single_quote (strip_char double_quote (strip (text value))) in
        if String.eqb key "" then environ else <[key := value]> environ
    end.

(** [file] is the list of the lines of [.env], [None] when there is no such
    file. *)
Definition load_env_from_file (file : option (list string))
    (environ : gmap string string) : gmap string string :=
  match file with
  | None => environ
  | Some lines => fold_left (fun env raw_line => env_line raw_line env) lines environ
  end.

(** A key as it is usually written: not empty, without white space or [=],
    and not beginning with [#]. *)
Definition plain_key (k : string) : bool :=
  negb (String.eqb k "") && negb (startswith k "#")
  && forallb (fun c => negb (is_space c) && negb (Ascii.eqb c "=")) (chars k).

(** A text that neither begins nor ends with a character of [p]. *)
Definition edges_free (p : ascii -> bool) (l : list ascii) : bool :=
  match l with
  | [] => true
  | a :: _ => negb (p a) && negb (p (List.last l a))
  end.

(** A value that neither begins nor ends with white space or a quote. *)
Definition plain_value (v : string) : bool :=
  edges_free (fun c => is_space c || Ascii.eqb double_quote c || Ascii.eqb single_quote c)
    (chars v).

(** ** [backend/auth.py] *)

Record AuthConfig := {
  JWT_SECRET : option string;
  JWT_REQUIRED : bool;
  AUTH_API_KEY : option string;
}.

(** The three settings as [config.py] reads them from the environment. *)
Definition auth_config (environ : gmap string string) : AuthConfig :=
  {| JWT_SECRET := environ !! "JWT_SECRET";
     JWT_REQUIRED := negb (String.eqb (default "1" (environ !! "JWT_REQUIRED")) "0");
     AUTH_API_KEY := environ !! "AUTH_API_KEY" |}.

(** A value in the payload of a token, as far as the program looks at it:
    its truth value and its [str]. *)
Record Claim := {
  claim_truthy : bool;
  claim_str : string;
}.

(** [payload.get] *)
Definition Payload : Type := string -> option Claim.

(** [a or rest], then [str] *)
Definition claim_or (a : option Claim) (rest : string) : string :=
  match a with
  | Some c => if claim_truthy c then claim_str c else rest
  | None => rest
  end.

(** [str.removeprefix] *)
Definition removeprefix (s p : string) : string :=
  if startswith s p then String.substring (String.length p) (String.length s - String.length p) s
  else s.

(** [decode token secret] is [jwt.decode]: the payload of a token that
    verifies under the secret, [None] where the library raises. *)
Definition verify_token (auth : AuthConfig) (decode : string -> string -> option Payload)
    (authorization : option string) : Res string :=
  if negb (truthy authorization)
     || negb (startswith (default "" authorization) "Bearer ")
  then Raise (HTTPException 401 "Missing bearer token")
  else if negb (truthy (JWT_SECRET auth))
  then Raise (HTTPException 500 "JWT_SECRET not configured")
  else
    let token := strip (removeprefix (default "" authorization) "Bearer ") in
    match decode token (default "" (JWT_SECRET auth)) with
    | None => Raise (HTTPException 401 "Invalid token")
    | Some payload =>
        let user_id := claim_or (payload "sub") (claim_or (payload "user_id") "") in
        if String.eqb user_id "" then Raise (HTTPException 401 "Token missing subject")
        else Ok user_id
    end.

(** [state] is [request.state.user_id] where the middleware has set it. *)
Definition get_current_user (auth : AuthConfig) (decode : string -> string -> option Payload)
    (state : option string) (authorization : option string) : Res string :=
  match state with
  | Some user_id => Ok user_id
  | None =>
      if negb (JWT_REQUIRED auth) && negb (truthy authorization) then Ok "anonymous"
      else verify_token auth decode authorization
  end.

Definition require_api_key (auth : AuthConfig) (x_api_key : option string) : Res unit :=
  if negb (truthy (AUTH_API_KEY auth))
  then Raise (HTTPException 500 "AUTH_API_KEY not configured")
  else if negb (truthy x_api_key)
          || negb (String.eqb (default "" x_api_key) (default "" (AUTH_API_KEY auth)))
  then Raise (HTTPException 401 "Invalid API key")
  else Ok tt.

(** [encode secret user_id] is [jwt.encode] of the payload [{"sub": user_id}]. *)
Definition create_token (auth : AuthConfig) (encode : string -> string -> string)
    (user_id : string) : Res string :=
  if negb (truthy (JWT_SECRET auth))
  then Raise (HTTPException 500 "JWT_SECRET not configured")
  else Ok (encode (default "" (JWT_SECRET auth)) user_id).

(** The middleware [require_jwt_for_post] in front of a handler that takes
    its user from [get_current_user].  An [HTTPException] the middleware
    catches is answered with its status and detail, which is also what the
    framework makes of one that leaves a handler. *)
Definition require_jwt_for_post {A} (auth : AuthConfig)
    (decode : string -> string -> option Payload)
    (path : string) (authorization : option string)
    (call_next : option string -> M A) : M A :=
  if JWT_REQUIRED auth && negb (String.eqb path "/health") then
    match verify_token auth decode authorization with
    | Ok user_id => call_next (Some user_id)
    | Raise exc => raise exc
    end
  else call_next None.

Definition with_current_user {A} (auth : AuthConfig)
    (decode : string -> string -> option Payload)
    (authorization : option string) (handler : string -> M A)
    (state : option string) : M A :=
  match get_current_user auth decode state authorization with
  | Ok user_id => handler user_id
  | Raise exc => raise exc
  end.

(** A request for a handler with [Depends(get_current_user)]. *)
Definition serve {A} (auth : AuthConfig) (decode : string -> string -> option Payload)
    (path : string) (authorization : option string) (handler : string -> M A) : M A :=
  require_jwt_for_post auth decode path authorization
    (with_current_user auth decode authorization handler).

(** ** What never changes about a job *)

(** The id, the owner, the mode, the kind and the time of creation. *)
Definition Identity : Type := string * string * string * Kind * nat.

Definition identity (j : Job) : Identity :=
  (job_id j, owner_id j, mode j, target_kind j, created_at j).

Definition identities (w : World) : gmap string Identity := identity <$> store w.

(** [j] is a version of the record filed under its id. *)
Definition filed (im : gmap string Identity) (j : Job) : Prop :=
  im !! job_id j = Some (identity j).

(** Every record is filed under its own id. *)
Definition keyed (im : gmap string Identity) : Prop :=
  forall id i, im !! id = Some i -> i.1.1.1.1 = id.

(** What the workers hold are versions of stored records. *)
Definition held (im : gmap string Identity) (w : World) : Prop :=
  forall k id fj, frame (lane k w) = Some (id, fj) -> job_id fj = id /\ filed im fj.

(** A computation that leaves the identities of the records and the
    workers' dictionaries alone, and whose result satisfies [R]. *)
Definition quiet (im : gmap string Identity) {A : Type} (m : M A) (R : A -> Prop) : Prop :=
  forall w, identities w = im ->
    identities (snd (m w)) = im
    /\ (forall k, frame (lane k (snd (m w))) = frame (lane k w))
    /\ match fst (m w) with Ok a => R a | Raise _ => True end.

(** A computation of a worker: it may rebind the worker's dictionary, but
    only to a version of a stored record. *)
Definition steady (im : gmap string Identity) {A : Type} (m : M A) (R : A -> Prop) : Prop :=
  forall w, identities w = im -> held im w ->
    identities (snd (m w)) = im
    /\ held im (snd (m w))
    /\ match fst (m w) with Ok a => R a | Raise _ => True end.

(** The shape of a record the service creates. *)
Definition well_formed (i : Identity) : Prop :=
  startswith i.1.1.1.1 "api-" = true
  /\ In i.1.1.2 ALLOWED_MODES
  /\ i.1.2 = allowed_target_kind i.1.1.2.

(** Every record is filed under its id, the workers hold versions of
    stored records, and every record has the shape of a created one. *)
Definition sound_identities (w : World) : Prop :=
  keyed (identities w)
  /\ held (identities w) w
  /\ map_Forall (fun _ i => well_formed i) (identities w).

(** The requests and worker steps of the transition system, and quick
    jobs besides.  As for [ACreate], a quick job whose id would repeat an
    existing one is not taken. *)
Inductive Request :=
| Step (a : Action)
| Quick (requested : string) (source target : UploadFile)
        (user hex_job hex_s hex_t hex_o : string) (codes : Z * Z * Z) (delivered : bool).

Definition serve_request (cfg : Config) (r : Request) (w : World) : World :=
  match r with
  | Step a => fst (exec cfg a w)
  | Quick requested source target user hex_job hex_s hex_t hex_o codes delivered =>
      match store w !! ("api-" +:+ String.substring 0 8 hex_job) with
      | None => snd (quick_job cfg requested source target user hex_job hex_s hex_t hex_o
                       codes delivered w)
      | Some _ => w
      end
  end.

Definition run_requests (cfg : Config) (rs : list Request) (w : World) : World :=
  fold_left (fun w r => serve_request cfg r w) rs w.

(** ** More sample values *)

(** The sample job right after its creation, and while the worker of the
    photo lane is busy with it. *)
Definition demo_created : World :=
  fst (run_actions default_config [ACreate "photo_photo_gpen" "alice" "0123456789abcdef"] boot).

Definition demo_job_created : Job :=
  Eval vm_compute in default blank_job (store demo_created !! demo_id).

Definition demo_running : World := fst (exec default_config (ABegin image true) demo_queued).

Definition demo_job_running : Job :=
  Eval vm_compute in default blank_job (store demo_running !! demo_id).

Definition demo_done : World := worker default_config image [demo_env 0] demo_queued.

(** The files of the sample job once it is queued. *)
Definition demo_source : string :=
  Eval vm_compute in default "" (source_path demo_job_queued).
Definition demo_target : string :=
  Eval vm_compute in default "" (target_path demo_job_queued).
Definition demo_output : string :=
  Eval vm_compute in default "" (output_path demo_job_queued).

(** A client that watches the sample job: twice while it waits, once when
    it is done. *)
Definition demo_polls : list Poll :=
  [ {| is_disconnected := false; at_poll := demo_queued |};
    {| is_disconnected := false; at_poll := demo_queued |};
    {| is_disconnected := false; at_poll := demo_done |} ].

(** A service that requires tokens, and a decoder that accepts none. *)
Definition demo_auth : AuthConfig :=
  {| JWT_SECRET := Some "s3cret"; JWT_REQUIRED := true; AUTH_API_KEY := None |}.

Definition no_token : string -> string -> option Payload := fun _ _ => None.

(** A toy codec for the sample token: the secret, a dot, the user id. *)
Definition demo_encode (secret user_id : string) : string := secret +:+ "." +:+ user_id.

Definition demo_payload : Payload :=
  fun key => if String.eqb key "sub"
             then Some {| claim_truthy := true; claim_str := "alice" |} else None.

Definition demo_decode (token secret : string) : option Payload :=
  if String.eqb token (demo_encode secret "alice") then Some demo_payload else None.

(** * Properties *)

(** ** The matcher against the reading of the pattern *)

Lemma strip_prefix_app p : forall s s', strip_prefix p s = Some s' -> s = p ++ s'.
Proof.
  induction p as [|a p IH]; intros [|b s] s' H; cbn in *; try congruence.
  destruct (Ascii.eqb_spec a b) as [->|]; [|discriminate].
  cbn. f_equal. by apply IH.
Qed.

Lemma strip_prefix_refl p s : strip_prefix p (p ++ s) = Some s.
Proof.
  induction p as [|a p IH]; cbn; [done|].
  by rewrite Ascii.eqb_refl.
Qed.

Lemma take_consumed (s1 s2 : list ascii) :
  take (length (s1 ++ s2) - length s2) (s1 ++ s2) = s1.
Proof.
  rewrite length_app.
  replace (length s1 + length s2 - length s2)%nat with (length s1) by lia.
  by rewrite take_app_length.
Qed.

Section Matcher.
Context {R : Type}.
Implicit Types (k : list ascii -> captures -> option R).

Lemma plus_loop_sound r
    (IH : forall s caps k x, rmatch r s caps k = Some x ->
          exists s1 s2 caps', s = s1 ++ s2 /\ lang r s1 caps caps' /\ k s2 caps' = Some x)
    k n : forall s caps x,
  plus_loop (rmatch r) k n s caps = Some x ->
  exists s1 s2 caps', s = s1 ++ s2 /\ lang (Plus r) s1 caps caps' /\ k s2 caps' = Some x.
Proof.
  induction n as [|n IHn]; intros s caps x H; cbn in H; [discriminate|].
  apply IH in H as (s1 & s2 & c1 & -> & Hr & Hk).
  destruct (plus_loop (rmatch r) k n s2 c1) as [y|] eqn:Hloop.
  - injection Hk as ->.
    apply IHn in Hloop as (t1 & t2 & c2 & -> & Hp & Hk).
    exists (s1 ++ t1), t2, c2. rewrite app_assoc. eauto using L_plus_more.
  - exists s1, s2, c1. eauto using L_plus_one.
Qed.

Lemma rmatch_sound r : forall s caps k x,
  rmatch r s caps k = Some x ->
  exists s1 s2 caps', s = s1 ++ s2 /\ lang r s1 caps caps' /\ k s2 caps' = Some x.
Proof.
  induction r as [p|p|r1 IH1 r2 IH2|r1 IH1 r2 IH2|r IH|g r IH];
    intros s caps k x H; cbn [rmatch] in H.
  - destruct (strip_prefix p s) as [s'|] eqn:Hp; [|discriminate].
    apply strip_prefix_app in Hp as ->. exists p, s', caps. eauto using L_lit.
  - destruct s as [|a s]; [discriminate|].
    destruct (p a) eqn:Hpa; [|discriminate].
    exists [a], s, caps. eauto using L_class.
  - destruct (rmatch r1 s caps k) as [y|] eqn:H1.
    + injection H as ->. apply IH1 in H1 as (s1 & s2 & c & ? & ? & ?).
      exists s1, s2, c. eauto using L_alt_l.
    + apply IH2 in H as (s1 & s2 & c & ? & ? & ?).
      exists s1, s2, c. eauto using L_alt_r.
  - apply IH1 in H as (s1 & s2 & c1 & -> & Hl1 & H).
    apply IH2 in H as (t1 & t2 & c2 & -> & Hl2 & H).
    exists (s1 ++ t1), t2, c2. rewrite app_assoc. eauto using L_cat.
  - by apply (plus_loop_sound r IH) in H.
  - apply IH in H as (s1 & s2 & c1 & -> & Hl & H).
    rewrite take_consumed in H.
    exists s1, s2, ((g, s1) :: c1). eauto using L_group.
Qed.

Lemma plus_loop_complete r
    (IH : forall s1 s2 caps c0 c1 k, lang r s1 c0 c1 ->
          (forall c, k s2 c <> None) -> rmatch r (s1 ++ s2) caps k <> None)
    (Hne : forall s c c', lang r s c c' -> s <> [])
    k s2 (Hk : forall c, k s2 c <> None) pr s1 c0 c1 :
  lang pr s1 c0 c1 -> pr = Plus r ->
  forall n caps, (length (s1 ++ s2) < n)%nat ->
  plus_loop (rmatch r) k n (s1 ++ s2) caps <> None.
Proof.
  induction 1 as [| | | | | r' s c c' Hl _ | r' t1 t2 c c' c'' Hl _ Hp IHp | ];
    intros Heq; try discriminate; injection Heq as ->;
    intros [|n] caps Hn; try lia; cbn.
  - eapply IH; [exact Hl|]. intros c2.
    destruct (plus_loop (rmatch r) k n s2 c2); [done | apply Hk].
  - rewrite <- app_assoc. eapply IH; [exact Hl|]. intros c2.
    assert (plus_loop (rmatch r) k n (t2 ++ s2) c2 <> None) as Hloop.
    { apply IHp; [done|]. apply Hne in Hl.
      rewrite !length_app in *. destruct t1; [done|]. cbn in Hn. lia. }
    destruct (plus_loop (rmatch r) k n (t2 ++ s2) c2); done.
Qed.

Lemma rmatch_complete r : productive r ->
  forall s1 s2 caps c0 c1 k, lang r s1 c0 c1 ->
  (forall c, k s2 c <> None) -> rmatch r (s1 ++ s2) caps k <> None.
Proof.
  induction r as [p|p|r1 IH1 r2 IH2|r1 IH1 r2 IH2|r IH|g r IH];
    intros Hprod s1 s2 caps c0 c1 k Hl Hk; cbn [rmatch]; cbn in Hprod.
  - inversion Hl; subst. rewrite strip_prefix_refl. apply Hk.
  - inversion Hl as [|? ? ? Hpa| | | | | |]; subst. cbn. rewrite Hpa. apply Hk.
  - destruct Hprod as [Hp1 Hp2].
    destruct (rmatch r1 (s1 ++ s2) caps k) eqn:H1; [done|].
    inversion Hl; subst.
    + exfalso. eapply IH1; eauto.
    + eapply IH2; eauto.
  - destruct Hprod as [Hp1 Hp2]. inversion Hl; subst.
    rewrite <- app_assoc. eapply IH1; eauto.
  - destruct Hprod as [Hp Hne].
    eapply (plus_loop_complete r);
      [intros; eapply IH; eauto | exact Hne | exact Hk | exact Hl | reflexivity | lia].
  - inversion Hl; subst. eapply IH; eauto.
Qed.
End Matcher.

Lemma search_sound r : forall s caps,
  search r s = Some caps ->
  exists pre m post, s = pre ++ m ++ post /\ lang r m [] caps.
Proof.
  induction s as [|a s IH]; intros caps H; cbn [search] in H.
  - destruct (rmatch r [] [] _) as [c|] eqn:Hm; [|discriminate].
    injection H as ->. apply rmatch_sound in Hm as (s1 & s2 & c' & Hs & Hl & Hk).
    injection Hk as ->. exists [], s1, s2. eauto.
  - destruct (rmatch r (a :: s) [] _) as [c|] eqn:Hm.
    + injection H as ->. apply rmatch_sound in Hm as (s1 & s2 & c' & Hs & Hl & Hk).
      injection Hk as ->. exists [], s1, s2. eauto.
    + apply IH in H as (pre & m & post & -> & Hl).
      exists (a :: pre), m, post. eauto.
Qed.

Lemma search_complete r : productive r ->
  forall pre m post c0 c1, lang r m c0 c1 -> search r (pre ++ m ++ post) <> None.
Proof.
  intros Hprod pre m post c0 c1 Hl.
  assert (rmatch r (m ++ post) [] (fun _ caps => Some caps) <> None) as Hm.
  { eapply rmatch_complete; eauto. }
  induction pre as [|a pre IH].
  - cbn [app]. destruct (m ++ post) eqn:E; cbn [search];
      destruct (rmatch r _ [] _); done.
  - rewrite <- app_comm_cons. cbn [search].
    destruct (rmatch r (a :: _) [] _); [done|]. apply IH.
Qed.

(** ** [PROGRESS_RE] read as a set of texts *)

Lemma text_chars s : text (chars s) = s.
Proof. apply string_of_list_ascii_of_string. Qed.

Lemma chars_text l : chars (text l) = l.
Proof. apply list_ascii_of_string_of_list_ascii. Qed.

Lemma lang_class_plus p s c c' :
  lang (Plus (Class p)) s c c' -> c' = c /\ s <> [] /\ forallb p s = true.
Proof.
  remember (Plus (Class p)) as r eqn:Hr. intros H.
  induction H as [| | | | | r s c c' Hl _ | r s1 s2 c c' c'' Hl _ Hp IH | ];
    try discriminate; injection Hr as ->.
  - inversion Hl as [|? ? ? Hpa| | | | | |]; subst. cbn. by rewrite Hpa.
  - inversion Hl as [|? ? ? Hpa| | | | | |]; subst.
    destruct (IH eq_refl) as (-> & _ & Hall). cbn. by rewrite Hpa.
Qed.

Lemma class_plus_lang p s c :
  s <> [] -> forallb p s = true -> lang (Plus (Class p)) s c c.
Proof.
  induction s as [|a s IH]; intros Hne Hall; [done|].
  cbn in Hall. apply andb_true_iff in Hall as [Ha Hs].
  destruct s as [|b s].
  - apply L_plus_one. by apply L_class.
  - apply (L_plus_more (Class p) [a] (b :: s) c c c).
    + by apply L_class.
    + by apply IH.
Qed.

Lemma lang_verbs s c c' :
  lang verbs_re s c c' -> c' = c /\ exists v, In v VERBS /\ s = chars v.
Proof.
  unfold verbs_re. intros H.
  repeat match goal with
         | H : lang (Alt _ _) _ _ _ |- _ => inversion H; subst; clear H
         | H : lang (Lit _) _ _ _ |- _ => inversion H; subst; clear H
         end;
    (split; [done|]);
    match goal with |- exists v, In v VERBS /\ ?s = chars v => exists (text s) end;
    (split; [cbn; tauto | by rewrite chars_text]).
Qed.

Lemma verbs_lang v c : In v VERBS -> lang verbs_re (chars v) c c.
Proof.
  unfold verbs_re. cbn. intros [<-|[<-|[<-|[<-|[<-|[<-|[]]]]]]].
  - apply L_alt_l, L_lit.
  - apply L_alt_r, L_alt_l, L_lit.
  - apply L_alt_r, L_alt_r, L_alt_l, L_lit.
  - apply L_alt_r, L_alt_r, L_alt_r, L_alt_l, L_lit.
  - apply L_alt_r, L_alt_r, L_alt_r, L_alt_r, L_alt_l, L_lit.
  - apply L_alt_r, L_alt_r, L_alt_r, L_alt_r, L_alt_r, L_lit.
Qed.

Lemma progress_re_unfold :
  PROGRESS_RE =
  Cat (Group 1 verbs_re)
    (Cat (Lit (chars ":"))
       (Cat (Plus (Class is_space))
          (Cat (Group 2 (Plus (Class is_digit))) (Lit (chars "%"))))).
Proof. reflexivity. Qed.

Lemma progress_re_productive : productive PROGRESS_RE.
Proof.
  cbn. repeat split; intros s c c' H; inversion H; done.
Qed.

Lemma lang_progress m c caps :
  lang PROGRESS_RE m c caps ->
  exists v ws ds,
    m = chars v ++ chars ":" ++ ws ++ ds ++ chars "%"
    /\ In v VERBS
    /\ ws <> [] /\ forallb is_space ws = true
    /\ ds <> [] /\ forallb is_digit ds = true
    /\ caps = (2%nat, ds) :: (1%nat, chars v) :: c.
Proof.
  rewrite progress_re_unfold. intros H.
  inversion H as [| | | |? ? s1 t1 ? ? ? Hg1 H1| | |]; subst; clear H.
  inversion Hg1 as [| | | | | | |? ? ? ? ? Hv]; subst; clear Hg1.
  apply lang_verbs in Hv as (-> & v & Hin & ->).
  inversion H1 as [| | | |? ? s2 t2 ? ? ? Hc H2| | |]; subst; clear H1.
  inversion Hc; subst; clear Hc.
  inversion H2 as [| | | |? ? s3 t3 ? ? ? Hws H3| | |]; subst; clear H2.
  apply lang_class_plus in Hws as (-> & Hws1 & Hws2).
  inversion H3 as [| | | |? ? s4 t4 ? ? ? Hg2 H4| | |]; subst; clear H3.
  inversion Hg2 as [| | | | | | |? ? ? ? ? Hds]; subst; clear Hg2.
  apply lang_class_plus in Hds as (-> & Hds1 & Hds2).
  inversion H4; subst; clear H4.
  exists v, s3, s4. repeat split; done.
Qed.

Lemma progress_lang v ws ds c :
  In v VERBS -> ws <> [] -> forallb is_space ws = true ->
  ds <> [] -> forallb is_digit ds = true ->
  lang PROGRESS_RE (chars v ++ chars ":" ++ ws ++ ds ++ chars "%") c
    ((2%nat, ds) :: (1%nat, chars v) :: c).
Proof.
  intros Hv Hws1 Hws2 Hds1 Hds2. rewrite progress_re_unfold.
  apply L_cat with (c' := (1%nat, chars v) :: c).
  { apply L_group. by apply verbs_lang. }
  apply L_cat with (c' := (1%nat, chars v) :: c); [apply L_lit|].
  apply L_cat with (c' := (1%nat, chars v) :: c); [by apply class_plus_lang|].
  apply L_cat with (c' := (2%nat, ds) :: (1%nat, chars v) :: c); [|apply L_lit].
  apply L_group. by apply class_plus_lang.
Qed.


(** ** Ownership *)

Lemma assert_owner_other j user w :
  owner_id j <> user ->
  assert_owner j user w = (Raise (HTTPException 403 "Forbidden"), w).
Proof.
  intros Hne. unfold assert_owner.
  destruct (String.eqb_spec (owner_id j) user); done.
Qed.

Lemma assert_owner_same j w : assert_owner j (owner_id j) w = (Ok tt, w).
Proof. unfold assert_owner. by rewrite String.eqb_refl. Qed.

Ltac forbidden H Hne :=
  intros; unfold bind, load_job; rewrite H; by rewrite (assert_owner_other _ _ _ Hne).

(** C10. When the caller is not the owner of the record, each of the eight
    job-scoped operations (upload source, upload target, submit, set
    webhook, get, event stream, fetch result, cancel) raises 403 Forbidden
    and leaves the whole world, the job record included, as it was. *)
Theorem foreign_user_is_forbidden (cfg : Config) (w : World) (id : string) (j : Job)
    (user : string) :
  store w !! id = Some j ->
  owner_id j <> user ->
  (forall file hex,
     upload_source cfg id file user hex w = (Raise (HTTPException 403 "Forbidden"), w))
  /\ (forall file hex,
        upload_target cfg id file user hex w = (Raise (HTTPException 403 "Forbidden"), w))
  /\ (forall rf hex codes delivered,
        submit_job cfg id rf user hex codes delivered w
        = (Raise (HTTPException 403 "Forbidden"), w))
  /\ (forall url events,
        set_webhook id url events user w = (Raise (HTTPException 403 "Forbidden"), w))
  /\ get_job id user w = (Raise (HTTPException 403 "Forbidden"), w)
  /\ job_events id user w = (Raise (HTTPException 403 "Forbidden"), w)
  /\ (forall on_disk,
        get_result id user on_disk w = (Raise (HTTPException 403 "Forbidden"), w))
  /\ cancel_job id user w = (Raise (HTTPException 403 "Forbidden"), w).
Proof.
  intros H Hne.
  repeat split.
  - unfold upload_source. forbidden H Hne.
  - unfold upload_target. forbidden H Hne.
  - unfold submit_job. forbidden H Hne.
  - unfold set_webhook. forbidden H Hne.
  - unfold get_job. forbidden H Hne.
  - unfold job_events. forbidden H Hne.
  - unfold get_result. forbidden H Hne.
  - unfold cancel_job. forbidden H Hne.
Qed.

(** ** The invariant and the ways the world changes *)

Lemma submitted_app acts l id : submitted acts id -> submitted (acts ++ l) id.
Proof.
  intros (rf & user & hex & codes & d & H).
  exists rf, user, hex, codes, d. apply in_or_app. by left.
Qed.

Lemma submitted_last acts id rf user hex codes d :
  submitted (acts ++ [ASubmit id rf user hex codes d]) id.
Proof.
  exists rf, user, hex, codes, d. apply in_or_app. right. by left.
Qed.

Lemma InvC_mono acts l s lv li : InvC acts s lv li -> InvC (acts ++ l) s lv li.
Proof.
  intros [H1 H2 H3 H4 H5 H6 H7 H8].
  split; eauto using submitted_app.
Qed.

Lemma InvC_boot : InvC [] ∅ idle_lane idle_lane.
Proof.
  split; try (intros; by simplify_map_eq); intros [] *; cbn; done.
Qed.

Lemma pick_put k l lv li : pick k (putv k l lv) (puti k l li) = l.
Proof. by destruct k. Qed.

Lemma pick_put_ne k k' l lv li :
  k' <> k -> pick k' (putv k l lv) (puti k l li) = pick k' lv li.
Proof. by destruct k, k'. Qed.

Lemma kind_eq_dec (a b : Kind) : {a = b} + {a <> b}.
Proof. decide equality. Qed.

(** A record is rewritten in place: same id, same lane, and [running] only
    if it was so already or its lane's worker is busy with it. *)
Lemma InvC_save acts s lv li j j0 :
  InvC acts s lv li ->
  s !! job_id j = Some j0 ->
  target_kind j = target_kind j0 ->
  (status j = Running ->
   status j0 = Running
   \/ (running (pick (target_kind j) lv li) = true
       /\ exists fj, frame (pick (target_kind j) lv li) = Some (job_id j, fj))) ->
  (output_path j <> None -> submitted acts (job_id j)) ->
  InvC acts (<[job_id j := j]> s) lv li.
Proof.
  intros [H1 H2 H3 H4 H5 H6 H7 H8] Hj Hk Hst Hout. split; try done.
  - intros id j' Hl. destruct (decide (job_id j = id)) as [<-|Hne].
    + rewrite lookup_insert_eq in Hl. by injection Hl as <-.
    + rewrite lookup_insert_ne in Hl by done. eauto.
  - intros id j' Hl Hr. destruct (decide (job_id j = id)) as [<-|Hne].
    + rewrite lookup_insert_eq in Hl. injection Hl as <-.
      destruct (Hst Hr) as [Hr0|]; [|done].
      rewrite Hk. destruct (H2 _ _ Hj Hr0) as [? ?]. done.
    + rewrite lookup_insert_ne in Hl by done. eauto.
  - intros k id fj Hf. destruct (H3 _ _ _ Hf) as (? & ? & j1 & Hl & ?).
    repeat split; try done.
    destruct (decide (job_id j = id)) as [<-|Hne].
    + exists j. rewrite lookup_insert_eq. split; [done|]. congruence.
    + exists j1. by rewrite lookup_insert_ne.
  - intros k id Hin. destruct (H5 _ _ Hin) as (j1 & Hl & ?).
    destruct (decide (job_id j = id)) as [<-|Hne].
    + exists j. rewrite lookup_insert_eq. split; [done|]. congruence.
    + exists j1. by rewrite lookup_insert_ne.
  - intros id j' Hl Ho. destruct (decide (job_id j = id)) as [<-|Hne].
    + rewrite lookup_insert_eq in Hl. injection Hl as <-. auto.
    + rewrite lookup_insert_ne in Hl by done. eauto.
Qed.

(** A record appears under a fresh id. *)
Lemma InvC_create acts s lv li j :
  InvC acts s lv li ->
  s !! job_id j = None ->
  status j <> Running ->
  output_path j = None ->
  InvC acts (<[job_id j := j]> s) lv li.
Proof.
  intros [H1 H2 H3 H4 H5 H6 H7 H8] Hj Hst Hout. split; try done.
  - intros id j' Hl. destruct (decide (job_id j = id)) as [<-|Hne].
    + rewrite lookup_insert_eq in Hl. by injection Hl as <-.
    + rewrite lookup_insert_ne in Hl by done. eauto.
  - intros id j' Hl Hr. destruct (decide (job_id j = id)) as [<-|Hne].
    + rewrite lookup_insert_eq in Hl. by injection Hl as <-.
    + rewrite lookup_insert_ne in Hl by done. eauto.
  - intros k id fj Hf. destruct (H3 _ _ _ Hf) as (? & ? & j1 & Hl & ?).
    repeat split; try done. exists j1.
    rewrite lookup_insert_ne; [done|]. congruence.
  - intros k id Hin. destruct (H5 _ _ Hin) as (j1 & Hl & ?).
    exists j1. rewrite lookup_insert_ne; [done|]. congruence.
  - intros id j' Hl Ho. destruct (decide (job_id j = id)) as [<-|Hne].
    + rewrite lookup_insert_eq in Hl. injection Hl as <-. congruence.
    + rewrite lookup_insert_ne in Hl by done. eauto.
Qed.

(** Lane [k] is replaced by a lane that still fits the store. *)
Lemma InvC_lane acts s lv li k l :
  InvC acts s lv li ->
  (forall id fj, frame l = Some (id, fj) ->
     job_id fj = id /\ target_kind fj = k
     /\ (exists j, s !! id = Some j /\ target_kind j = k)
     /\ (output_path fj <> None -> submitted acts id)) ->
  (running l = true -> is_Some (frame l)) ->
  (forall id, In id (queue l) -> exists j, s !! id = Some j /\ target_kind j = k) ->
  alive l = true ->
  (forall id j, s !! id = Some j -> status j = Running -> target_kind j = k ->
     running l = true /\ exists fj, frame l = Some (id, fj)) ->
  InvC acts s (putv k l lv) (puti k l li).
Proof.
  intros [H1 H2 H3 H4 H5 H6 H7 H8] Hf Hb Hq Ha Hr. split; try done.
  - intros id j Hl Hrun. destruct (kind_eq_dec (target_kind j) k) as [<-|Hne].
    + rewrite pick_put. eauto.
    + rewrite pick_put_ne by done. eauto.
  - intros k' id fj. destruct (kind_eq_dec k' k) as [->|Hne].
    + rewrite pick_put. intros Hfr. destruct (Hf _ _ Hfr) as (? & ? & ? & ?). done.
    + rewrite pick_put_ne by done. eauto.
  - intros k'. destruct (kind_eq_dec k' k) as [->|Hne].
    + by rewrite pick_put.
    + rewrite pick_put_ne by done. eauto.
  - intros k' id. destruct (kind_eq_dec k' k) as [->|Hne].
    + rewrite pick_put. eauto.
    + rewrite pick_put_ne by done. eauto.
  - intros k'. destruct (kind_eq_dec k' k) as [->|Hne].
    + by rewrite pick_put.
    + rewrite pick_put_ne by done. eauto.
  - intros k' id fj. destruct (kind_eq_dec k' k) as [->|Hne].
    + rewrite pick_put. intros Hfr. destruct (Hf _ _ Hfr) as (? & ? & ? & ?). done.
    + rewrite pick_put_ne by done. eauto.
Qed.

(** ** Stepping through a handler *)

Lemma wp_bind {A B} (m : M A) (f : A -> M B) Q w :
  wp m (fun r w' => match r with
                    | Ok a => wp (f a) Q w'
                    | Raise e => Q (Raise e) w'
                    end) w ->
  wp (bind m f) Q w.
Proof. unfold wp, bind. by destruct (m w) as [[a|e] w']. Qed.

Lemma wp_ret {A} (a : A) (Q : Res A -> World -> Prop) w : Q (Ok a) w -> wp (ret a) Q w.
Proof. done. Qed.

Lemma wp_raise {A} e (Q : Res A -> World -> Prop) w : Q (Raise e) w -> wp (raise e) Q w.
Proof. done. Qed.

Lemma wp_load_job id (Q : Res Job -> World -> Prop) w :
  (forall j, store w !! id = Some j -> Q (Ok j) w) ->
  (store w !! id = None -> Q (Raise (HTTPException 404 "Job not found")) w) ->
  wp (load_job id) Q w.
Proof. unfold wp, load_job. destruct (store w !! id); eauto. Qed.

Lemma wp_assert_owner j user (Q : Res unit -> World -> Prop) w :
  Q (Ok tt) w -> Q (Raise (HTTPException 403 "Forbidden")) w ->
  wp (assert_owner j user) Q w.
Proof. unfold wp, assert_owner. by destruct (String.eqb (owner_id j) user). Qed.

Lemma wp_save_upload_file file dest m (Q : Res Z -> World -> Prop) w :
  (forall r, Q r w) -> wp (save_upload_file file dest m) Q w.
Proof. intros H. apply H. Qed.

Lemma lanes_eq_refl w : lanes_eq w w.
Proof. done. Qed.

Lemma lanes_eq_trans w1 w2 w3 : lanes_eq w1 w2 -> lanes_eq w2 w3 -> lanes_eq w1 w3.
Proof. intros [? ?] [? ?]. split; congruence. Qed.

Lemma safe_load acts w id j : Inv acts w -> store w !! id = Some j -> safe acts w id j.
Proof.
  intros HI Hl. split; [by eapply inv_key|].
  exists j. repeat split; try done. intros Ho. by eapply inv_out.
Qed.

Lemma safe_upd acts w id j (f : Job -> Job) :
  safe acts w id j ->
  job_id (f j) = job_id j ->
  target_kind (f j) = target_kind j ->
  (status (f j) = Running -> status j = Running) ->
  (output_path (f j) <> None -> output_path j <> None \/ submitted acts id) ->
  safe acts w id (f j).
Proof.
  intros (Hid & j0 & Hl & Hk & Hs & Ho) Hfid Hfk Hfs Hfo.
  split; [congruence|]. exists j0. repeat split; try done; try congruence.
  - auto.
  - intros H. destruct (Hfo H); auto.
Qed.

Lemma wp_save_job acts id j (Q : Res Job -> World -> Prop) w :
  Inv acts w -> safe acts w id j ->
  (forall j' w', Inv acts w' -> safe acts w' id j' -> core j' = core j ->
                 lanes_eq w w' -> Q (Ok j') w') ->
  wp (save_job j) Q w.
Proof.
  intros HI (Hid & j0 & Hl & Hk & Hs & Ho) HQ. unfold wp. cbn.
  set (j' := set_updated_at (clock w) j).
  apply HQ; try done.
  - unfold Inv. cbn. change (job_id j) with (job_id j').
    apply InvC_save with (j0 := j0); subst j'; cbn; try done; try congruence.
    + intros H. left. auto.
    + rewrite Hid. done.
  - split; [by subst j'; cbn|]. exists j'. cbn. change (job_id j) with (job_id j').
    subst j'. cbn. rewrite Hid, lookup_insert_eq. repeat split; try done.
Qed.

Lemma wp_send_webhook acts id d j e (Q : Res Job -> World -> Prop) w :
  Inv acts w -> safe acts w id j ->
  (forall j' w', Inv acts w' -> safe acts w' id j' -> core j' = core j ->
                 lanes_eq w w' -> Q (Ok j') w') ->
  wp (send_webhook d j e) Q w.
Proof.
  intros HI Hs HQ. unfold send_webhook. apply wp_bind. unfold wp at 1. cbn.
  destruct (webhook_url j) as [[|a u]|]; try (apply HQ; done).
  destruct (negb (str_mem e (subscribed_events j))); [apply HQ; done|].
  apply wp_bind. unfold wp at 1. cbn.
  destruct d; [apply HQ; done|].
  eapply wp_save_job.
  - exact HI.
  - apply (safe_upd acts _ id j (set_webhook_last_error (Some "failed"))); try done.
    cbn. auto.
  - intros j' w' HI' Hs' Hc Hl. apply HQ; try done.
Qed.

Lemma wp_run_cli acts c args (Q : Res unit -> World -> Prop) w :
  Inv acts w ->
  (forall r w', Inv acts w' -> store w' = store w -> lanes_eq w w' -> Q r w') ->
  wp (run_cli c args) Q w.
Proof.
  intros HI HQ. unfold run_cli. apply wp_bind. unfold wp at 1. cbn.
  destruct (c =? 0); apply HQ; done.
Qed.

Lemma safe_same acts w w' id j :
  store w' = store w -> safe acts w id j -> safe acts w' id j.
Proof. intros Hs (? & j0 & ? & ?). split; [done|]. exists j0. by rewrite Hs. Qed.

Lemma wp_enqueue_facefusion_job acts cfg codes id j (Q : Res unit -> World -> Prop) w :
  Inv acts w -> safe acts w id j ->
  (forall r w', Inv acts w' -> safe acts w' id j -> lanes_eq w w' -> Q r w') ->
  wp (enqueue_facefusion_job cfg codes j) Q w.
Proof.
  intros HI Hs HQ. unfold enqueue_facefusion_job.
  destruct (source_path j), (target_path j), (output_path j); try (apply HQ; done).
  destruct codes as [[c1 c2] c3]. destruct (resolve_models _ _) as [sw en].
  apply wp_bind. eapply wp_run_cli; [exact HI|].
  intros [[]|e] w1 HI1 Hs1 Hl1;
    [|apply HQ; eauto using safe_same].
  apply wp_bind. eapply wp_run_cli; [exact HI1|].
  intros [[]|e] w2 HI2 Hs2 Hl2;
    [|apply HQ; eauto using safe_same, lanes_eq_trans].
  eapply wp_run_cli; [exact HI2|].
  intros r w3 HI3 Hs3 Hl3.
  apply HQ; eauto using safe_same, lanes_eq_trans.
Qed.

Lemma lane_pick k w : lane k w = pick k (lane_video w) (lane_image w).
Proof. by destruct k. Qed.

Lemma with_lane_video k l w : lane_video (with_lane k l w) = putv k l (lane_video w).
Proof. by destruct k. Qed.

Lemma with_lane_image k l w : lane_image (with_lane k l w) = puti k l (lane_image w).
Proof. by destruct k. Qed.

Lemma with_lane_store k l w : store (with_lane k l w) = store w.
Proof. by destruct k. Qed.

Lemma lane_with_lane k l w : lane k (with_lane k l w) = l.
Proof. by destruct k. Qed.

Lemma lane_with_lane_ne k k' l w : k' <> k -> lane k' (with_lane k l w) = lane k' w.
Proof. by destruct k, k'. Qed.

(** The id of an existing record of lane [k] joins the queue of lane [k]. *)
Lemma InvC_enqueue acts s lv li k id j :
  InvC acts s lv li -> s !! id = Some j -> target_kind j = k ->
  InvC acts s (putv k (with_queue (queue (pick k lv li) ++ [id]) (pick k lv li)) lv)
              (puti k (with_queue (queue (pick k lv li) ++ [id]) (pick k lv li)) li).
Proof.
  intros HI Hl Hk. apply InvC_lane; try done; cbn.
  - intros id' fj Hf. destruct (inv_frame _ _ _ _ HI _ _ _ Hf) as (? & ? & ?).
    repeat split; try done. intros Ho. by eapply inv_out_frame.
  - apply (inv_busy _ _ _ _ HI).
  - intros id' [Hin|[<-|[]]]%in_app_or; [by eapply inv_queue|]. eauto.
  - apply (inv_alive _ _ _ _ HI).
  - intros id' j' Hl' Hr <-. by eapply inv_run.
Qed.

Section Handlers.
Variable cfg : Config.
Variable acts : list Action.

Lemma create_job_Inv payload_mode user hex w :
  Inv acts w ->
  store w !! ("api-" +:+ String.substring 0 8 hex) = None ->
  wp (create_job payload_mode user hex) (kept acts w) w.
Proof.
  intros HI Hfresh. unfold wp, kept. cbn. split; [|done].
  unfold Inv. cbn.
  match goal with |- InvC _ (<[?k := ?j]> _) _ _ => change k with (job_id j) end.
  apply InvC_create; done.
Qed.

Lemma upload_source_Inv id file user hex w :
  Inv acts w -> wp (upload_source cfg id file user hex) (kept acts w) w.
Proof.
  intros HI. unfold upload_source.
  apply wp_bind, wp_load_job; [intros j Hl|done].
  apply wp_bind, wp_assert_owner; [|done].
  destruct (negb _); [done|].
  apply wp_bind, wp_save_upload_file. intros [z|e]; [|done].
  apply wp_bind. eapply wp_save_job; [exact HI| |].
  - apply (safe_upd acts w id j (fun j => set_status WaitingTarget (set_source_path _ j)));
      eauto using safe_load; cbn; auto; done.
  - intros j' w' HI' _ _ Hl'. done.
Qed.

Lemma upload_target_Inv id file user hex w :
  Inv acts w -> wp (upload_target cfg id file user hex) (kept acts w) w.
Proof.
  intros HI. unfold upload_target.
  apply wp_bind, wp_load_job; [intros j Hl|done].
  apply wp_bind, wp_assert_owner; [|done].
  destruct (detect_kind _) as [detected|]; [|done].
  destruct (negb _); [done|].
  apply wp_bind, wp_save_upload_file. intros [z|e]; [|done].
  destruct (_ && _); [done|].
  apply wp_bind. eapply wp_save_job; [exact HI| |].
  - apply (safe_upd acts w id j
             (fun j => let j := set_target_path _ j in
                       if truthy (source_path j) then set_status Ready j else j));
      eauto using safe_load; cbn; destruct (truthy (source_path j)); cbn; auto; done.
  - intros j' w' HI' _ _ Hl'. done.
Qed.

Lemma set_webhook_Inv id url events user w :
  Inv acts w -> wp (set_webhook id url events user) (kept acts w) w.
Proof.
  intros HI. unfold set_webhook.
  apply wp_bind, wp_load_job; [intros j Hl|done].
  apply wp_bind, wp_assert_owner; [|done].
  destruct (_ && _); [done|].
  apply wp_bind. eapply wp_save_job; [exact HI| |].
  - apply (safe_upd acts w id j
             (fun j => set_webhook_events _ (set_webhook_url _ j)));
      eauto using safe_load; cbn; auto.
  - intros j' w' HI' _ _ Hl'. done.
Qed.

Lemma cancel_job_Inv id user w :
  Inv acts w -> wp (cancel_job id user) (kept acts w) w.
Proof.
  intros HI. unfold cancel_job.
  apply wp_bind, wp_load_job; [intros j Hl|done].
  apply wp_bind, wp_assert_owner; [|done].
  apply wp_bind. eapply wp_save_job; [exact HI| |].
  - apply (safe_upd acts w id j (set_status Cancelled));
      eauto using safe_load; cbn; auto; done.
  - intros j' w' HI' _ _ Hl'. done.
Qed.

Lemma get_job_Inv id user w : Inv acts w -> wp (get_job id user) (kept acts w) w.
Proof.
  intros HI. unfold get_job.
  apply wp_bind, wp_load_job; [intros j Hl|done].
  apply wp_bind, wp_assert_owner; done.
Qed.

Lemma job_events_Inv id user w : Inv acts w -> wp (job_events id user) (kept acts w) w.
Proof.
  intros HI. unfold job_events.
  apply wp_bind, wp_load_job; [intros j Hl|done].
  apply wp_bind, wp_assert_owner; done.
Qed.

Lemma get_result_Inv id user on_disk w :
  Inv acts w -> wp (get_result id user on_disk) (kept acts w) w.
Proof.
  intros HI. unfold get_result.
  apply wp_bind, wp_load_job; [intros j Hl|done].
  apply wp_bind, wp_assert_owner; [|done].
  destruct (_ || _); [done|]. destruct (negb on_disk); done.
Qed.

Lemma submit_job_Inv id rf user hex codes d w :
  Inv acts w -> submitted acts id ->
  wp (submit_job cfg id rf user hex codes d) (submitted_to acts w id) w.
Proof.
  intros HI Hsub. unfold submit_job.
  apply wp_bind, wp_load_job; [intros j Hl|done].
  apply wp_bind, wp_assert_owner; [|done].
  destruct (_ || _); [done|].
  apply wp_bind. eapply wp_save_job; [exact HI| |].
  { apply (safe_upd acts w id j
             (fun j => let j := set_output_path _ j in
                       match rf with
                       | Some n => set_reference_frame_number (Some n) j
                       | None => j
                       end));
      eauto using safe_load; destruct rf; cbn; auto. }
  intros j1 w1 HI1 Hs1 _ Hl1.
  apply wp_bind. eapply wp_enqueue_facefusion_job; [exact HI1|exact Hs1|].
  intros [[]|e] w2 HI2 Hs2 Hl2; [|split; eauto using lanes_eq_trans].
  apply wp_bind. unfold wp at 1. cbn.
  destruct Hs2 as (Hid & j0 & Hl0 & Hk0 & Hst0 & Ho0).
  set (k := target_kind j1) in *.
  set (w3 := with_lane k _ w2).
  assert (Inv acts w3) as HI3.
  { unfold Inv. subst w3.
    rewrite with_lane_store, with_lane_video, with_lane_image, lane_pick.
    eapply InvC_enqueue; eauto. }
  assert (safe acts w3 id (set_progress 0 (set_stage (Some "queued") (set_status Queued j1))))
    as Hs3.
  { split; [done|]. exists j0. subst w3. rewrite with_lane_store.
    repeat split; try done. }
  apply wp_bind. eapply wp_save_job; [exact HI3|exact Hs3|].
  intros j4 w4 HI4 Hs4 Hc4 Hl4.
  apply wp_bind. eapply wp_send_webhook; [exact HI4|exact Hs4|].
  intros j5 w5 HI5 Hs5 Hc5 Hl5.
  apply wp_ret. split; [done|]. cbn.
  assert (target_kind j5 = k) as ->.
  { change (target_kind (core j5) = k). by rewrite Hc5, Hc4. }
  assert (lanes_eq w3 w5) as [Hv Hi] by eauto using lanes_eq_trans.
  assert (lanes_eq w w2) as [Hv2 Hi2] by eauto using lanes_eq_trans.
  split; [by destruct Hs5|].
  rewrite Hv, Hi. subst w3.
  rewrite with_lane_video, with_lane_image, !lane_pick, Hv2, Hi2. done.
Qed.
End Handlers.

(** ** The steps of a worker *)

Ltac spec_done :=
  eexists _, _; (split; [reflexivity|]); cbn; rewrite ?app_nil_r;
  repeat split; auto.

Lemma send_webhook_spec d j e w :
  exists j' w',
    send_webhook d j e w = (Ok j', w')
    /\ core j' = core j
    /\ lanes_eq w w'
    /\ cli w' = cli w
    /\ notified w' = notified w ++ [(job_id j, e)]
    /\ pushes w' = pushes w ++ posts_for j e
    /\ ((store w' = store w /\ j' = j) \/ store w' = <[job_id j := j']> (store w)).
Proof.
  unfold send_webhook, posts_for, bind. cbn.
  destruct (webhook_url j) as [[|a u]|]; try spec_done.
  destruct (str_mem e (subscribed_events j)); cbn; [|spec_done].
  destruct d; cbn; spec_done.
Qed.

Lemma save_job_eq j w :
  save_job j w
  = (Ok (set_updated_at (clock w) j),
     with_store (<[job_id j := set_updated_at (clock w) j]> (store w))
       (with_clock (S (clock w)) w)).
Proof. reflexivity. Qed.

Lemma bind_ok {A B} (m : M A) (f : A -> M B) w a w' :
  m w = (Ok a, w') -> bind m f w = f a w'.
Proof. unfold bind. by intros ->. Qed.

Lemma bind_raise {A B} (m : M A) (f : A -> M B) w e w' :
  m w = (Raise e, w') -> bind m f w = (Raise e, w').
Proof. unfold bind. by intros ->. Qed.

Lemma frame_put_frame kind id j w : frame (lane kind (put_frame kind id j w)) = Some (id, j).
Proof. unfold put_frame. by rewrite lane_with_lane. Qed.

Lemma put_frame_twice kind id j1 j2 w :
  put_frame kind id j2 (put_frame kind id j1 w) = put_frame kind id j2 w.
Proof. destruct kind; reflexivity. Qed.

Lemma lane_put_frame kind id j w :
  lane kind (put_frame kind id j w) = with_frame (Some (id, j)) (lane kind w).
Proof. unfold put_frame. by rewrite lane_with_lane. Qed.

Lemma lane_put_frame_ne kind k' id j w :
  k' <> kind -> lane k' (put_frame kind id j w) = lane k' w.
Proof. intros. unfold put_frame. by rewrite lane_with_lane_ne. Qed.

Lemma clock_put_frame kind id j w : clock (put_frame kind id j w) = clock w.
Proof. destruct kind; reflexivity. Qed.

Lemma store_put_frame kind id j w : store (put_frame kind id j w) = store w.
Proof. destruct kind; reflexivity. Qed.

Lemma put_frame_over kind id j1 j2 s c w :
  put_frame kind id j2 (with_store s (with_clock c (put_frame kind id j1 w)))
  = put_frame kind id j2 (with_store s (with_clock c w)).
Proof. destruct kind; reflexivity. Qed.

Lemma assign_eq kind f w id j :
  frame (lane kind w) = Some (id, j) ->
  assign kind f w = (Ok tt, put_frame kind id (f j) w).
Proof.
  intros Hf. unfold assign, bind, get_frame, set_frame, modify, put_frame.
  rewrite Hf. cbn. by rewrite Hf.
Qed.

Lemma with_job_eq kind (f : Job -> M Job) w id j j' w' :
  frame (lane kind w) = Some (id, j) ->
  f j w = (Ok j', w') ->
  lane kind w' = lane kind w ->
  with_job kind f w = (Ok tt, put_frame kind id j' w').
Proof.
  intros Hf Hr Hl. unfold with_job, bind, get_frame, set_frame, modify, put_frame.
  rewrite Hf, Hr. cbn. by rewrite Hl, Hf.
Qed.

Lemma lanes_eq_lane w w' k : lanes_eq w w' -> lane k w' = lane k w.
Proof. intros [? ?]. by destruct k. Qed.

Lemma transition_spec kind f1 f2 f3 d e w id j :
  frame (lane kind w) = Some (id, j) ->
  exists jf w',
    transition kind f1 f2 f3 d e w = (Ok tt, w')
    /\ core jf = core (f3 (f2 (f1 j)))
    /\ store w' = <[job_id (f3 (f2 (f1 j))) := jf]> (store w)
    /\ lane kind w' = with_frame (Some (id, jf)) (lane kind w)
    /\ (forall k', k' <> kind -> lane k' w' = lane k' w)
    /\ cli w' = cli w
    /\ notified w' = notified w ++ [(job_id (f3 (f2 (f1 j))), e)]
    /\ pushes w' = pushes w ++ posts_for (set_updated_at (clock w) (f3 (f2 (f1 j)))) e.
Proof.
  intros Hf. unfold transition.
  set (jn := f3 (f2 (f1 j))).
  set (js := set_updated_at (clock w) jn).
  set (ws := with_store (<[job_id jn := js]> (store w)) (with_clock (S (clock w)) w)).
  destruct (send_webhook_spec d js e (put_frame kind id js ws))
    as (jf & w' & Hsend & Hcore & Hlanes & Hcli & Hnot & Hpush & Hstore).
  exists jf, (put_frame kind id jf w').
  split.
  { erewrite bind_ok by (by apply assign_eq).
    erewrite bind_ok by (apply assign_eq, frame_put_frame).
    rewrite put_frame_twice.
    erewrite bind_ok by (apply assign_eq, frame_put_frame).
    rewrite put_frame_twice.
    erewrite bind_ok.
    2:{ eapply with_job_eq; [apply frame_put_frame|apply save_job_eq|].
        destruct kind; reflexivity. }
    rewrite clock_put_frame, store_put_frame, put_frame_over.
    eapply with_job_eq; [apply frame_put_frame|exact Hsend|].
    by apply lanes_eq_lane. }
  assert (store (put_frame kind id js ws) = <[job_id jn := js]> (store w)) as Hs0
    by (destruct kind; reflexivity).
  assert (lane kind (put_frame kind id js ws) = with_frame (Some (id, js)) (lane kind w)) as Hl0
    by (destruct kind; reflexivity).
  repeat split.
  - rewrite Hcore. done.
  - unfold put_frame. rewrite with_lane_store.
    destruct Hstore as [[-> ->]| ->]; rewrite Hs0; [done|].
    by rewrite insert_insert_eq.
  - rewrite lane_put_frame, (lanes_eq_lane _ _ _ Hlanes), Hl0. done.
  - intros k' Hne. rewrite lane_put_frame_ne by done.
    rewrite (lanes_eq_lane _ _ _ Hlanes), lane_put_frame_ne by done.
    by destruct k'.
  - unfold put_frame. destruct kind; cbn; rewrite Hcli; done.
  - unfold put_frame. destruct kind; cbn; rewrite Hnot; done.
  - unfold put_frame. destruct kind; cbn; rewrite Hpush; done.
Qed.

Lemma on_output_line_spec id line w j :
  store w !! id = Some j -> job_id j = id ->
  exists j' w',
    on_output_line id line w = (Ok tt, w')
    /\ store w' = <[id := j']> (store w)
    /\ job_id j' = id /\ status j' = status j /\ target_kind j' = target_kind j
    /\ output_path j' = output_path j
    /\ lanes_eq w w' /\ cli w' = cli w /\ notified w' = notified w /\ pushes w' = pushes w.
Proof.
  intros Hl Hid. unfold on_output_line.
  assert (exists j' w', ret tt w = (Ok tt, w')
    /\ store w' = <[id := j']> (store w)
    /\ job_id j' = id /\ status j' = status j /\ target_kind j' = target_kind j
    /\ output_path j' = output_path j
    /\ lanes_eq w w' /\ cli w' = cli w /\ notified w' = notified w /\ pushes w' = pushes w)
    as Hskip.
  { exists j, w. rewrite insert_id by done. repeat split; done. }
  destruct (strip line); [done|].
  destruct (parse_progress _) as [[stg pct]|]; [|done].
  unfold update_job, bind, load_job. rewrite Hl. cbn.
  eexists _, _. split; [reflexivity|]. cbn. rewrite Hid. repeat split; done.
Qed.

Lemma output_loop_spec id output : forall w j,
  store w !! id = Some j -> job_id j = id ->
  exists j' w',
    for_each output (on_output_line id) w = (Ok tt, w')
    /\ store w' = <[id := j']> (store w)
    /\ job_id j' = id /\ status j' = status j /\ target_kind j' = target_kind j
    /\ output_path j' = output_path j
    /\ lanes_eq w w' /\ cli w' = cli w /\ notified w' = notified w /\ pushes w' = pushes w.
Proof.
  induction output as [|line output IH]; intros w j Hl Hid; cbn [for_each].
  - exists j, w. rewrite insert_id by done. repeat split; done.
  - destruct (on_output_line_spec id line w j Hl Hid)
      as (j1 & w1 & Hrun & Hs & Hid1 & Hst1 & Hk1 & Ho1 & Hla1 & Hc1 & Hn1 & Hp1).
    erewrite bind_ok by exact Hrun.
    destruct (IH w1 j1) as (j2 & w2 & Hrun2 & Hs2 & Hid2 & Hst2 & Hk2 & Ho2 & Hla2 & Hc2 & Hn2 & Hp2);
      [by rewrite Hs, lookup_insert_eq|done|].
    exists j2, w2. rewrite Hrun2, Hs2, Hs, insert_insert_eq.
    destruct Hla1, Hla2. repeat split; congruence.
Qed.

Lemma run_facefusion_job_spec cfg output code id kind w j :
  store w !! id = Some j -> job_id j = id ->
  exists j' w',
    run_facefusion_job cfg output code id kind w
    = (if code =? 0 then Ok tt
       else Raise (CalledProcessError code (job_run_args cfg id kind)), w')
    /\ store w' = <[id := j']> (store w)
    /\ job_id j' = id /\ status j' = status j /\ target_kind j' = target_kind j
    /\ output_path j' = output_path j
    /\ lanes_eq w w' /\ cli w' = cli w ++ [job_run_args cfg id kind]
    /\ notified w' = notified w /\ pushes w' = pushes w.
Proof.
  intros Hl Hid. unfold run_facefusion_job.
  set (args := job_run_args cfg id kind).
  set (w0 := with_cli (cli w ++ [args]) w).
  destruct (output_loop_spec id output w0 j Hl Hid)
    as (j1 & w1 & Hrun & Hs & Hid1 & Hst1 & Hk1 & Ho1 & Hla1 & Hc1 & Hn1 & Hp1).
  exists j1, w1. split.
  - erewrite bind_ok by reflexivity. fold w0.
    erewrite bind_ok by exact Hrun.
    unfold on_exit. by destruct (code =? 0).
  - repeat split; try done; by destruct Hla1.
Qed.

Lemma core_fields j j' :
  core j' = core j ->
  job_id j' = job_id j /\ owner_id j' = owner_id j /\ mode j' = mode j
  /\ target_kind j' = target_kind j /\ status j' = status j
  /\ source_path j' = source_path j /\ target_path j' = target_path j
  /\ output_path j' = output_path j /\ progress j' = progress j
  /\ stage j' = stage j /\ webhook_url j' = webhook_url j
  /\ webhook_events j' = webhook_events j /\ error j' = error j.
Proof.
  intros H.
  repeat split;
    match goal with
    | |- ?f j' = ?f j => change (f (core j') = f (core j)); by rewrite H
    end.
Qed.

Lemma posts_for_events j e : map push_event (posts_for j e) = pushed_events j [e].
Proof.
  unfold posts_for, pushed_events. destruct (webhook_url j) as [[|a u]|]; cbn; try done.
  by destruct (str_mem e (subscribed_events j)).
Qed.

Lemma posts_for_id j e : Forall (fun p => push_job_id p = job_id j) (posts_for j e).
Proof.
  unfold posts_for. destruct (webhook_url j) as [[|a u]|]; try by constructor.
  destruct (str_mem e (subscribed_events j)); repeat constructor.
Qed.

Lemma pushed_events_core j j' evs :
  core j' = core j -> pushed_events j' evs = pushed_events j evs.
Proof.
  intros H. apply core_fields in H as (_&_&_&_&_&_&_&_&_&_&Hu&He&_).
  unfold pushed_events, subscribed_events. by rewrite Hu, He.
Qed.

Lemma pushed_events_app j evs1 evs2 :
  pushed_events j (evs1 ++ evs2) = pushed_events j evs1 ++ pushed_events j evs2.
Proof.
  unfold pushed_events. destruct (truthy (webhook_url j)); [|done].
  apply List.filter_app.
Qed.

Lemma worker_body_spec cfg kind env id w j :
  store w !! id = Some j -> job_id j = id ->
  exists jf w' ps,
    worker_body cfg kind env id w = (Ok tt, w')
    /\ core jf = core (final cfg env id j)
    /\ store w' = <[id := jf]> (store w)
    /\ lane kind w' = with_running false (with_frame (Some (id, jf)) (lane kind w))
    /\ (forall k', k' <> kind -> lane k' w' = lane k' w)
    /\ cli w' = cli w ++ [job_run_args cfg id (target_kind j)]
    /\ notified w' = notified w ++ [(id, "running"); (id, final_event env)]
    /\ pushes w' = pushes w ++ ps
    /\ map push_event ps = pushed_events j ["running"; final_event env]
    /\ Forall (fun p => push_job_id p = id) ps.
Proof.
  intros Hl Hid. unfold worker_body.
  erewrite bind_ok by (unfold load_job; by rewrite Hl).
  erewrite bind_ok by reflexivity.
  erewrite bind_ok by reflexivity.
  set (w0 := with_lane kind _ _).
  assert (frame (lane kind w0) = Some (id, j)) as Hf0 by (destruct kind; reflexivity).
  assert (store w0 = store w /\ cli w0 = cli w /\ notified w0 = notified w
          /\ pushes w0 = pushes w
          /\ lane kind w0 = with_running true (with_frame (Some (id, j)) (lane kind w))
          /\ forall k', k' <> kind -> lane k' w0 = lane k' w)
    as (Hs0 & Hc0 & Hn0 & Hp0 & Hl0 & Hlo0).
  { subst w0. destruct kind; repeat split; try reflexivity; intros []; done. }
  clearbody w0.
  change (mark_running kind (post_running env))
    with (transition kind (set_status Running) (set_stage None) (set_progress 0)
            (post_running env) "running").
  destruct (transition_spec kind (set_status Running) (set_stage None) (set_progress 0)
              (post_running env) "running" w0 id j Hf0)
    as (j1 & w1 & Htr1 & Hcore1 & Hs1 & Hl1 & Hlo1 & Hc1 & Hn1 & Hp1).
  cbn [job_id set_progress set_stage set_status] in Hs1, Hn1. rewrite Hid in Hs1, Hn1.
  pose proof (core_fields _ _ Hcore1) as (Hid1 & _ & _ & Hk1 & _).
  cbn in Hid1, Hk1.
  destruct (run_facefusion_job_spec cfg (engine_output env) (engine_exit env) id
              (target_kind j1) w1 j1)
    as (j2 & w2 & Hrun & Hs2 & Hid2 & Hst2 & Hk2 & Ho2 & Hla2 & Hc2 & Hn2 & Hp2);
    [by rewrite Hs1, lookup_insert_eq|congruence|].
  assert (frame (lane kind w2) = Some (id, j1)) as Hf2.
  { by rewrite (lanes_eq_lane _ _ _ Hla2), Hl1. }
  unfold try_finally, try_except.
  erewrite bind_ok by exact Htr1.
  erewrite bind_ok by (unfold get_frame; by rewrite Hl1).
  pose proof (core_fields _ _ Hcore1) as (_&_&_&_&_&_&_&_&_&_&Hu1&He1&_).
  cbn in Hu1, He1.
  assert (forall f1 f2 f3 e,
    job_id (f3 (f2 (f1 j1))) = job_id j1 ->
    webhook_url (f3 (f2 (f1 j1))) = webhook_url j1 ->
    webhook_events (f3 (f2 (f1 j1))) = webhook_events j1 ->
    exists j3 w3 ps,
      transition kind f1 f2 f3 (post_done env) e w2 = (Ok tt, w3)
      /\ core j3 = core (f3 (f2 (f1 j1)))
      /\ store (snd (release kind w3)) = <[id := j3]> (store w)
      /\ lane kind (snd (release kind w3))
         = with_running false (with_frame (Some (id, j3)) (lane kind w))
      /\ (forall k', k' <> kind -> lane k' (snd (release kind w3)) = lane k' w)
      /\ cli (snd (release kind w3)) = cli w ++ [job_run_args cfg id (target_kind j)]
      /\ notified (snd (release kind w3)) = notified w ++ [(id, "running"); (id, e)]
      /\ pushes (snd (release kind w3)) = pushes w ++ ps
      /\ map push_event ps = pushed_events j ["running"; e]
      /\ Forall (fun p => push_job_id p = id) ps) as Hfinish.
  { intros f1 f2 f3 e Hfid Hfu Hfe.
    destruct (transition_spec kind f1 f2 f3 (post_done env) e w2 id j1 Hf2)
      as (j3 & w3 & Htr3 & Hcore3 & Hs3 & Hl3 & Hlo3 & Hc3 & Hn3 & Hp3).
    rewrite Hfid, Hid1, Hid in Hs3, Hn3.
    eexists j3, w3, _. split; [exact Htr3|]. split; [exact Hcore3|].
    unfold release, set_running_flag, modify. cbn [snd].
    rewrite with_lane_store, lane_with_lane.
    split; [by rewrite Hs3, Hs2, Hs1, Hs0, !insert_insert_eq|].
    split.
    { rewrite Hl3, (lanes_eq_lane _ _ _ Hla2), Hl1, Hl0. reflexivity. }
    split.
    { intros k' Hne. rewrite lane_with_lane_ne by done.
      rewrite Hlo3 by done. rewrite (lanes_eq_lane _ _ _ Hla2).
      rewrite Hlo1 by done. by apply Hlo0. }
    split.
    { destruct kind; cbn; by rewrite Hc3, Hc2, Hc1, Hc0, Hk1. }
    split.
    { destruct kind; cbn; by rewrite Hn3, Hn2, Hn1, Hn0, <- app_assoc. }
    split.
    { destruct kind; cbn; rewrite Hp3, Hp2, Hp1, Hp0, <- app_assoc; reflexivity. }
    split.
    { rewrite map_app, !posts_for_events.
      change ["running"; e] with (["running"] ++ [e]).
      rewrite pushed_events_app. f_equal.
      unfold pushed_events, subscribed_events. cbn. by rewrite Hfu, Hfe, Hu1, He1. }
    apply Forall_app. split.
    - eapply Forall_impl; [apply posts_for_id|]. cbn. intros p ->. done.
    - eapply Forall_impl; [apply posts_for_id|]. cbn. intros p ->. congruence. }
  destruct (engine_exit env =? 0) eqn:Hcode.
  - erewrite bind_ok by exact Hrun.
    change (mark_completed kind (post_done env))
      with (transition kind (set_status Completed) (set_stage (Some "completed"))
              (set_progress 100) (post_done env) "completed").
    destruct (Hfinish (set_status Completed) (set_stage (Some "completed"))
                (set_progress 100) "completed")
      as (j3 & w3 & ps & Htr3 & Hcore3 & Hrest); try reflexivity.
    rewrite Htr3. exists j3, (snd (release kind w3)), ps.
    split; [reflexivity|]. split.
    { rewrite Hcore3. unfold final. rewrite Hcode.
      change (set_progress 100 (set_stage (Some "completed") (set_status Completed (core j1)))
              = set_progress 100 (set_stage (Some "completed") (set_status Completed
                  (core (set_progress 0 (set_stage None (set_status Running j))))))).
      by rewrite Hcore1. }
    unfold final_event. by rewrite Hcode.
  - erewrite bind_raise by exact Hrun.
    change (mark_failed kind (post_done env) ?e)
      with (transition kind (set_status Failed) (set_stage (Some "failed"))
              (set_error (Some (str_exc e))) (post_done env) "failed").
    destruct (Hfinish (set_status Failed) (set_stage (Some "failed"))
                (set_error (Some (str_exc (CalledProcessError (engine_exit env)
                                    (job_run_args cfg id (target_kind j1))))))
                "failed")
      as (j3 & w3 & ps & Htr3 & Hcore3 & Hrest); try reflexivity.
    rewrite Htr3. exists j3, (snd (release kind w3)), ps.
    split; [reflexivity|]. split.
    { rewrite Hcore3. unfold final. rewrite Hcode, Hk1.
      set (msg := Some (str_exc _)).
      change (set_error msg (set_stage (Some "failed") (set_status Failed (core j1)))
              = set_error msg (set_stage (Some "failed") (set_status Failed
                  (core (set_progress 0 (set_stage None (set_status Running j))))))).
      by rewrite Hcore1. }
    unfold final_event. by rewrite Hcode.
Qed.

Lemma step_begin_spec cfg kind d id w j :
  store w !! id = Some j -> job_id j = id ->
  exists jf w',
    step_begin cfg kind d id w = (Ok tt, w')
    /\ core jf = core (set_progress 0 (set_stage None (set_status Running j)))
    /\ store w' = <[id := jf]> (store w)
    /\ lane kind w' = with_running true (with_frame (Some (id, jf)) (lane kind w))
    /\ (forall k', k' <> kind -> lane k' w' = lane k' w).
Proof.
  intros Hl Hid. unfold step_begin.
  erewrite bind_ok by (unfold load_job; by rewrite Hl).
  erewrite bind_ok by reflexivity.
  erewrite bind_ok by reflexivity.
  set (w0 := with_lane kind _ _).
  assert (frame (lane kind w0) = Some (id, j)) as Hf0 by (destruct kind; reflexivity).
  assert (store w0 = store w
          /\ lane kind w0 = with_running true (with_frame (Some (id, j)) (lane kind w))
          /\ forall k', k' <> kind -> lane k' w0 = lane k' w)
    as (Hs0 & Hl0 & Hlo0).
  { subst w0. destruct kind; repeat split; try reflexivity; intros []; done. }
  clearbody w0.
  change (mark_running kind d)
    with (transition kind (set_status Running) (set_stage None) (set_progress 0) d "running").
  destruct (transition_spec kind (set_status Running) (set_stage None) (set_progress 0)
              d "running" w0 id j Hf0)
    as (j1 & w1 & Htr1 & Hcore1 & Hs1 & Hl1 & Hlo1 & _).
  cbn [job_id set_progress set_stage set_status] in Hs1. rewrite Hid in Hs1.
  unfold guarded, try_except.
  erewrite bind_ok by exact Htr1.
  unfold launch, get_frame_id, get_frame, bind, modify.
  rewrite Hl1. cbn. rewrite Hl1. cbn.
  eexists j1, _. split; [reflexivity|]. split; [done|].
  split; [by rewrite <- Hs0, <- Hs1|].
  split.
  - change (lane kind w1 = with_running true (with_frame (Some (id, j1)) (lane kind w))).
    rewrite Hl1, Hl0. reflexivity.
  - intros k' Hne. change (lane k' w1 = lane k' w). rewrite Hlo1 by done. by apply Hlo0.
Qed.

Lemma step_output_spec kind d line w id fj j :
  frame (lane kind w) = Some (id, fj) ->
  store w !! id = Some j -> job_id j = id ->
  exists j' w',
    step_output kind d line w = (Ok tt, w')
    /\ store w' = <[id := j']> (store w)
    /\ job_id j' = id /\ status j' = status j /\ target_kind j' = target_kind j
    /\ output_path j' = output_path j
    /\ lanes_eq w w'.
Proof.
  intros Hf Hl Hid. unfold step_output.
  erewrite bind_ok by (unfold get_frame_id; by rewrite Hf).
  destruct (on_output_line_spec id line w j Hl Hid)
    as (j1 & w1 & Hrun & Hs & Hid1 & Hst1 & Hk1 & Ho1 & Hla1 & _).
  unfold guarded, try_except. rewrite Hrun.
  exists j1, w1. repeat split; try done; by destruct Hla1.
Qed.

Lemma step_exit_spec cfg kind code d w id fj :
  frame (lane kind w) = Some (id, fj) ->
  exists jf w',
    step_exit cfg kind code d w = (Ok tt, w')
    /\ job_id jf = job_id fj /\ target_kind jf = target_kind fj
    /\ output_path jf = output_path fj
    /\ status jf = (if code =? 0 then Completed else Failed)
    /\ store w' = <[job_id fj := jf]> (store w)
    /\ lane kind w' = with_running false (with_frame (Some (id, jf)) (lane kind w))
    /\ (forall k', k' <> kind -> lane k' w' = lane k' w)
    /\ notified w' = notified w ++ [(job_id fj, if code =? 0 then "completed" else "failed")].
Proof.
  intros Hf. unfold step_exit.
  erewrite bind_ok by (unfold get_frame_id; by rewrite Hf).
  erewrite bind_ok by (unfold get_frame; by rewrite Hf).
  unfold try_finally, try_except, on_exit.
  assert (forall f1 f2 f3 e,
    (forall x, job_id (f3 (f2 (f1 x))) = job_id x) ->
    (forall x, target_kind (f3 (f2 (f1 x))) = target_kind x) ->
    (forall x, output_path (f3 (f2 (f1 x))) = output_path x) ->
    exists jf w3,
      transition kind f1 f2 f3 d e w = (Ok tt, w3)
      /\ job_id jf = job_id fj /\ target_kind jf = target_kind fj
      /\ output_path jf = output_path fj
      /\ status jf = status (f3 (f2 (f1 fj)))
      /\ store (snd (release kind w3)) = <[job_id fj := jf]> (store w)
      /\ lane kind (snd (release kind w3))
         = with_running false (with_frame (Some (id, jf)) (lane kind w))
      /\ (forall k', k' <> kind -> lane k' (snd (release kind w3)) = lane k' w)
      /\ notified (snd (release kind w3)) = notified w ++ [(job_id fj, e)]) as Hfinish.
  { intros f1 f2 f3 e Hfid Hfk Hfo.
    destruct (transition_spec kind f1 f2 f3 d e w id fj Hf)
      as (j3 & w3 & Htr3 & Hcore3 & Hs3 & Hl3 & Hlo3 & Hc3 & Hn3 & Hp3).
    pose proof (core_fields _ _ Hcore3) as (Hi&_&_&Hk&Hst&_&_&Ho&_).
    rewrite Hfid in Hs3, Hn3, Hi. rewrite Hfk in Hk. rewrite Hfo in Ho.
    exists j3, w3. split; [done|]. repeat split; try done.
    - unfold release, set_running_flag, modify. cbn. by rewrite with_lane_store.
    - unfold release, set_running_flag, modify. cbn. by rewrite lane_with_lane, Hl3.
    - intros k' Hne. unfold release, set_running_flag, modify. cbn.
      rewrite lane_with_lane_ne by done. by apply Hlo3.
    - unfold release, set_running_flag, modify. destruct kind; cbn; done. }
  destruct (code =? 0) eqn:Hcode.
  - erewrite bind_ok by reflexivity.
    change (mark_completed kind d)
      with (transition kind (set_status Completed) (set_stage (Some "completed"))
              (set_progress 100) d "completed").
    destruct (Hfinish (set_status Completed) (set_stage (Some "completed"))
                (set_progress 100) "completed")
      as (j3 & w3 & Htr3 & Hrest); try reflexivity.
    rewrite Htr3. exists j3, (snd (release kind w3)). split; [reflexivity|]. exact Hrest.
  - erewrite bind_raise by reflexivity.
    change (mark_failed kind d ?e)
      with (transition kind (set_status Failed) (set_stage (Some "failed"))
              (set_error (Some (str_exc e))) d "failed").
    destruct (Hfinish (set_status Failed) (set_stage (Some "failed"))
                (set_error (Some (str_exc (CalledProcessError code
                                    (job_run_args cfg id (target_kind fj))))))
                "failed")
      as (j3 & w3 & Htr3 & Hrest); try reflexivity.
    rewrite Htr3. exists j3, (snd (release kind w3)). split; [reflexivity|]. exact Hrest.
Qed.

(** ** Every step keeps the invariant and the order of the lanes *)

Lemma lanes_from kind l w w' :
  lane kind w' = l ->
  (forall k', k' <> kind -> lane k' w' = lane k' w) ->
  lane_video w' = putv kind l (lane_video w) /\ lane_image w' = puti kind l (lane_image w).
Proof.
  intros Hl Hlo. destruct kind; cbn in *; split; try done.
  - by apply (Hlo video).
  - by apply (Hlo image).
Qed.

Lemma kind_eqb_eq a b : kind_eqb a b = true <-> a = b.
Proof. destruct a, b; cbn; split; done. Qed.

Lemma fifo_keep w w' : lanes_eq w w' -> fifo_step w (w', []).
Proof. intros Hl k. cbn. by rewrite (lanes_eq_lane _ _ _ Hl), app_nil_r. Qed.

Lemma queue_pick_put k k' l lv li :
  queue (pick k' (putv k l lv) (puti k l li))
  = if kind_eqb k k' then queue l else queue (pick k' lv li).
Proof. by destruct k, k'. Qed.

Lemma exec_client_keeps acts w {A} (m : M A) :
  wp m (kept acts w) w -> Inv acts (snd (m w)) /\ fifo_step w (snd (m w), []).
Proof. intros [HI Hl]. split; [done|]. by apply fifo_keep. Qed.

Lemma exec_step cfg acts a w :
  Inv acts w ->
  Inv (acts ++ [a]) (fst (exec cfg a w)) /\ fifo_step w (exec cfg a w).
Proof.
  intros HI0.
  assert (Inv (acts ++ [a]) w) as HI by (by apply InvC_mono).
  assert (fifo_step w (w, [])) as Hstay by (by apply fifo_keep).
  destruct a as [pm user hex|id file user hex|id file user hex|id rf user hex codes d
                |id url events user|id user|id user|id user on_disk|id user
                |kind d|kind d line|kind code d]; cbn [exec].
  - destruct (store w !! _) eqn:Hfresh; [done|].
    apply exec_client_keeps. by apply create_job_Inv.
  - apply exec_client_keeps. by apply upload_source_Inv.
  - apply exec_client_keeps. by apply upload_target_Inv.
  - pose proof (submit_job_Inv cfg _ id rf user hex codes d w HI
                  (submitted_last acts id rf user hex codes d)) as H.
    unfold wp, submitted_to in H.
    destruct (submit_job cfg id rf user hex codes d w) as [[r|e] w'];
      cbn [fst snd] in *; destruct H as [HI' H]; (split; [done|]);
      [|by apply fifo_keep].
    destruct H as (Hid & Hv & Hi). intros k. cbn [fst snd started enqueued].
    rewrite (lane_pick k w'), Hv, Hi, queue_pick_put, Hid.
    destruct (kind_eqb (r_target_kind r) k) eqn:Hk.
    + apply kind_eqb_eq in Hk as ->. done.
    + by rewrite app_nil_r, lane_pick.
  - apply exec_client_keeps. by apply set_webhook_Inv.
  - apply exec_client_keeps. by apply get_job_Inv.
  - apply exec_client_keeps. by apply job_events_Inv.
  - apply exec_client_keeps. by apply get_result_Inv.
  - apply exec_client_keeps. by apply cancel_job_Inv.
  - destruct (alive (lane kind w) && negb (running (lane kind w))) eqn:Hen; [|done].
    apply andb_true_iff in Hen as [_ Hidle%negb_true_iff].
    destruct (queue (lane kind w)) as [|id rest] eqn:Hq; [done|].
    rewrite lane_pick in Hq, Hidle.
    destruct (inv_queue _ _ _ _ HI kind id) as (j & Hl & Hk); [rewrite Hq; by left|].
    pose proof (inv_key _ _ _ _ HI _ _ Hl) as Hid.
    set (w1 := with_lane kind _ w).
    destruct (step_begin_spec cfg kind d id w1 j) as (jf & w' & Hrun & Hcore & Hs & Hla & Hlo);
      [by subst w1; rewrite with_lane_store|done|].
    unfold lane_step. rewrite Hrun. cbn [fst snd].
    pose proof (core_fields _ _ Hcore) as (Hjid&_&_&Hjk&Hjst&_&_&Hjo&_).
    cbn in Hjid, Hjk, Hjst, Hjo.
    assert (lane kind w1 = with_queue rest (lane kind w)) as Hl1
      by (subst w1; by rewrite lane_with_lane).
    assert (store w1 = store w) as Hs1 by (subst w1; by rewrite with_lane_store).
    set (l := with_running true (with_frame (Some (id, jf)) (with_queue rest (lane kind w)))).
    destruct (lanes_from kind l w w') as [Hv Hi].
    { by rewrite Hla, Hl1. }
    { intros k' Hne. rewrite Hlo by done. subst w1. by rewrite lane_with_lane_ne. }
    split.
    + unfold Inv. rewrite Hs, Hs1, Hv, Hi. rewrite <- Hid at 1. rewrite <- Hjid.
      apply InvC_save with (j0 := j).
      * apply InvC_lane; try done; subst l; cbn.
        -- intros id' fj [= <- <-]. repeat split; try congruence.
           ++ exists j. split; [done|]. done.
           ++ intros Ho. eapply inv_out; [exact HI|exact Hl|congruence].
        -- intros id' Hin. eapply inv_queue; [exact HI|].
           rewrite Hq. by right.
        -- rewrite lane_pick. apply (inv_alive _ _ _ _ HI).
        -- intros id' j' Hl' Hr Hk'.
           destruct (inv_run _ _ _ _ HI _ _ Hl' Hr) as [Hrun' _].
           rewrite Hk' in Hrun'. congruence.
      * congruence.
      * congruence.
      * intros _. right. rewrite Hjk, Hk, pick_put. subst l. cbn.
        split; [done|]. exists jf. congruence.
      * intros Ho. rewrite Hjid, Hid. eapply inv_out; [exact HI|exact Hl|congruence].
    + intros k. cbn [fst snd started enqueued].
      rewrite (lane_pick k w'), Hv, Hi, queue_pick_put.
      destruct (kind_eqb kind k) eqn:Hkk.
      * apply kind_eqb_eq in Hkk as <-. subst l. cbn. by rewrite lane_pick, Hq, app_nil_r.
      * by rewrite app_nil_r, lane_pick.
  - destruct (alive (lane kind w) && running (lane kind w)) eqn:Hen; [|done].
    apply andb_true_iff in Hen as [_ Hbusy].
    rewrite lane_pick in Hbusy.
    destruct (inv_busy _ _ _ _ HI kind Hbusy) as [[id fj] Hf].
    destruct (inv_frame _ _ _ _ HI _ _ _ Hf) as (Hfid & Hfk & j & Hl & Hk).
    pose proof (inv_key _ _ _ _ HI _ _ Hl) as Hid.
    destruct (step_output_spec kind d line w id fj j)
      as (j' & w' & Hrun & Hs & Hid' & Hst' & Hk' & Ho' & Hla);
      [by rewrite lane_pick|done|done|].
    unfold lane_step. rewrite Hrun. cbn [fst snd].
    split; [|by apply fifo_keep].
    destruct Hla as [Hv Hi]. unfold Inv. rewrite Hs, Hv, Hi. rewrite <- Hid' at 1.
    apply InvC_save with (j0 := j); try done; try congruence.
    + intros Hr. left. congruence.
    + intros Ho. rewrite Hid'. eapply inv_out; [exact HI|exact Hl|congruence].
  - destruct (alive (lane kind w) && running (lane kind w)) eqn:Hen; [|done].
    apply andb_true_iff in Hen as [_ Hbusy].
    rewrite lane_pick in Hbusy.
    destruct (inv_busy _ _ _ _ HI kind Hbusy) as [[id fj] Hf].
    destruct (inv_frame _ _ _ _ HI _ _ _ Hf) as (Hfid & Hfk & j & Hl & Hk).
    destruct (step_exit_spec cfg kind code d w id fj)
      as (jf & w' & Hrun & Hjid & Hjk & Hjo & Hjst & Hs & Hla & Hlo & _);
      [by rewrite lane_pick|].
    unfold lane_step. rewrite Hrun. cbn [fst snd].
    set (l := with_running false (with_frame (Some (id, jf)) (lane kind w))) in *.
    destruct (lanes_from kind l w w' Hla Hlo) as [Hv Hi].
    assert (InvC (acts ++ [AExit kind code d]) (<[job_id jf := jf]> (store w))
              (lane_video w) (lane_image w)) as HI1.
    { apply InvC_save with (j0 := j); try done; try congruence.
      - intros Hr. rewrite Hjst in Hr. by destruct (code =? 0).
      - intros Ho. rewrite Hjid, Hfid.
        eapply inv_out_frame; [exact HI|exact Hf|congruence]. }
    split.
    + unfold Inv. rewrite Hs, Hv, Hi, <- Hjid.
      apply InvC_lane; try done; subst l; cbn.
      * intros id' fj' [= <- <-]. repeat split; try congruence.
        -- exists jf. rewrite Hjid, Hfid, lookup_insert_eq. split; congruence.
        -- intros Ho. eapply inv_out_frame; [exact HI|exact Hf|congruence].
      * intros id' Hin. rewrite lane_pick in Hin.
        eapply inv_queue; [exact HI1|exact Hin].
      * rewrite lane_pick. apply (inv_alive _ _ _ _ HI).
      * intros id' j' Hl' Hr Hk'. exfalso.
        destruct (inv_run _ _ _ _ HI1 _ _ Hl' Hr) as [_ [fj' Hf']].
        rewrite Hk', Hf in Hf'. injection Hf' as ->.
        rewrite Hjid, Hfid, lookup_insert_eq in Hl'. injection Hl' as <-.
        rewrite Hjst in Hr. by destruct (code =? 0).
    + intros k. cbn [fst snd started enqueued].
      rewrite (lane_pick k w'), Hv, Hi, queue_pick_put.
      destruct (kind_eqb kind k) eqn:Hkk.
      * apply kind_eqb_eq in Hkk as <-. subst l. cbn. by rewrite !app_nil_r.
      * by rewrite app_nil_r, lane_pick.
Qed.

Lemma started_app k evs1 evs2 : started k (evs1 ++ evs2) = started k evs1 ++ started k evs2.
Proof.
  induction evs1 as [|[k' id|k' id] evs1 IH]; cbn; try done.
  destruct (kind_eqb k' k); cbn; by rewrite IH.
Qed.

Lemma enqueued_app k evs1 evs2 :
  enqueued k (evs1 ++ evs2) = enqueued k evs1 ++ enqueued k evs2.
Proof.
  induction evs1 as [|[k' id|k' id] evs1 IH]; cbn; try done.
  destruct (kind_eqb k' k); cbn; by rewrite IH.
Qed.

Lemma run_actions_step cfg acts : forall pre w,
  Inv pre w ->
  Inv (pre ++ acts) (fst (run_actions cfg acts w)) /\ fifo_step w (run_actions cfg acts w).
Proof.
  induction acts as [|a acts IH]; intros pre w HI; cbn [run_actions].
  - rewrite app_nil_r. split; [done|]. by apply fifo_keep.
  - destruct (exec_step cfg pre a w HI) as [HI1 Hf1].
    destruct (exec cfg a w) as [w1 ev1]. cbn [fst snd] in *.
    destruct (IH (pre ++ [a]) w1 HI1) as [HI2 Hf2].
    destruct (run_actions cfg acts w1) as [w2 ev2]. cbn [fst snd] in *.
    split; [by rewrite <- app_assoc in HI2|].
    intros k. cbn [fst snd]. specialize (Hf1 k). specialize (Hf2 k). cbn [fst snd] in *.
    rewrite started_app, enqueued_app, <- app_assoc, Hf2, !app_assoc. by rewrite Hf1.
Qed.

Lemma reachable_Inv cfg acts : Inv acts (fst (run_actions cfg acts boot)).
Proof. apply (run_actions_step cfg acts [] boot), InvC_boot. Qed.


(** ** One pass of the worker *)

Lemma worker_iteration_spec cfg kind env w id rest j :
  alive (lane kind w) = true ->
  queue (lane kind w) = id :: rest ->
  store w !! id = Some j -> job_id j = id ->
  exists jf w' ps,
    worker_iteration cfg kind env w = Some (Ok tt, w')
    /\ core jf = core (final cfg env id j)
    /\ store w' = <[id := jf]> (store w)
    /\ lane kind w'
       = with_running false (with_frame (Some (id, jf)) (with_queue rest (lane kind w)))
    /\ (forall k', k' <> kind -> lane k' w' = lane k' w)
    /\ cli w' = cli w ++ [job_run_args cfg id (target_kind j)]
    /\ notified w' = notified w ++ [(id, "running"); (id, final_event env)]
    /\ pushes w' = pushes w ++ ps
    /\ map push_event ps = pushed_events j ["running"; final_event env]
    /\ Forall (fun p => push_job_id p = id) ps.
Proof.
  intros Ha Hq Hl Hid. unfold worker_iteration. rewrite Ha, Hq.
  set (w1 := with_lane kind _ w).
  destruct (worker_body_spec cfg kind env id w1 j)
    as (jf & w' & ps & Hrun & Hcore & Hs & Hla & Hlo & Hc & Hn & Hp & Hev & Hids);
    [by subst w1; rewrite with_lane_store|done|].
  rewrite Hrun. exists jf, w', ps. split; [done|]. split; [done|].
  subst w1. rewrite with_lane_store in Hs. rewrite lane_with_lane in Hla.
  repeat split; try done.
  - intros k' Hne. rewrite Hlo by done. by rewrite lane_with_lane_ne.
  - rewrite Hc. by destruct kind.
  - rewrite Hn. by destruct kind.
  - rewrite Hp. by destruct kind.
Qed.

Lemma str_exc_called_nonempty r cmd : str_exc (CalledProcessError r cmd) <> "".
Proof. cbn. by destruct (r <? 0). Qed.


(** The worker does not look at the status of the record it loads: the job
    is moved to [running], the engine is launched for it, and the pass
    leaves it [completed] or [failed] according to the exit status. *)
Lemma worker_runs_whatever_it_dequeues (cfg : Config) (kind : Kind) (env : RunEnv)
    (d : bool) (w : World) (id : string) (rest : list string) (j : Job) :
  alive (lane kind w) = true ->
  running (lane kind w) = false ->
  queue (lane kind w) = id :: rest ->
  store w !! id = Some j -> job_id j = id ->
  (exists j1,
     snd (exec cfg (ABegin kind d) w) = [Started kind id]
     /\ store (fst (exec cfg (ABegin kind d) w)) !! id = Some j1
     /\ status j1 = Running
     /\ cli (fst (exec cfg (ABegin kind d) w))
        = cli w ++ [job_run_args cfg id (target_kind j)])
  /\ exists jf w',
       worker_iteration cfg kind env w = Some (Ok tt, w')
       /\ store w' !! id = Some jf
       /\ status jf = (if engine_exit env =? 0 then Completed else Failed)
       /\ cli w' = cli w ++ [job_run_args cfg id (target_kind j)].
Proof.
  intros Ha Hidle Hq Hl Hid. split.
  - cbn [exec]. rewrite Ha, Hidle, Hq. cbn [andb negb].
    set (w1 := with_lane kind _ w).
    destruct (step_begin_spec cfg kind d id w1 j) as (jf & w' & Hrun & Hcore & Hs & _);
      [by subst w1; rewrite with_lane_store|done|].
    unfold lane_step. rewrite Hrun. cbn [fst snd].
    pose proof (core_fields _ _ Hcore) as (_&_&_&Hk&Hst&_). cbn in Hst, Hk.
    exists jf. split; [done|]. split; [by rewrite Hs, lookup_insert_eq|]. split; [done|].
    revert Hrun. unfold step_begin.
    erewrite bind_ok by (unfold load_job; subst w1; rewrite with_lane_store; by rewrite Hl).
    erewrite bind_ok by reflexivity. erewrite bind_ok by reflexivity.
    set (w0 := with_lane kind _ _).
    assert (frame (lane kind w0) = Some (id, j)) as Hf0 by (destruct kind; reflexivity).
    assert (cli w0 = cli w) as Hc0 by (destruct kind; reflexivity).
    clearbody w0.
    change (mark_running kind d)
      with (transition kind (set_status Running) (set_stage None) (set_progress 0) d "running").
    destruct (transition_spec kind (set_status Running) (set_stage None) (set_progress 0)
                d "running" w0 id j Hf0)
      as (j1 & w2 & Htr1 & Hcore1 & _ & Hl1 & _ & Hc1 & _).
    pose proof (core_fields _ _ Hcore1) as (_&_&_&Hk1&_). cbn in Hk1.
    unfold guarded, try_except. erewrite bind_ok by exact Htr1.
    unfold launch, get_frame_id, get_frame, bind, modify.
    rewrite Hl1. cbn. rewrite Hl1. cbn. intros [= <-]. cbn.
    by rewrite Hc1, Hc0, Hk1.
  - destruct (worker_iteration_spec cfg kind env w id rest j Ha Hq Hl Hid)
      as (jf & w' & ps & Hrun & Hcore & Hs & _ & _ & Hc & _).
    pose proof (core_fields _ _ Hcore) as (_&_&_&_&Hst&_).
    unfold final in Hst. exists jf, w'. split; [exact Hrun|].
    split; [by rewrite Hs, lookup_insert_eq|]. split; [|exact Hc].
    rewrite Hst. by destruct (engine_exit env =? 0).
Qed.

Lemma cancel_job_spec id user w j :
  store w !! id = Some j -> job_id j = id -> owner_id j = user ->
  exists jc w',
    cancel_job id user w = (Ok (job_to_response jc), w')
    /\ core jc = core (set_status Cancelled j)
    /\ store w' = <[id := jc]> (store w)
    /\ lanes_eq w w' /\ cli w' = cli w.
Proof.
  intros Hl Hid Hown. unfold cancel_job.
  erewrite bind_ok by (unfold load_job; by rewrite Hl).
  erewrite bind_ok by (rewrite <- Hown; apply assert_owner_same).
  erewrite bind_ok by apply save_job_eq.
  eexists _, _. split; [reflexivity|]. cbn. rewrite Hid. done.
Qed.



(** ** Submission *)

Lemma enqueue_ok cfg j w s t o :
  source_path j = Some s -> target_path j = Some t -> output_path j = Some o ->
  exists w',
    enqueue_facefusion_job cfg (0, 0, 0) j w = (Ok tt, w')
    /\ store w' = store w /\ lanes_eq w w' /\ clock w' = clock w
    /\ notified w' = notified w /\ pushes w' = pushes w.
Proof.
  intros Hs Ht Ho. unfold enqueue_facefusion_job. rewrite Hs, Ht, Ho.
  destruct (resolve_models (mode j) t) as [sw en].
  unfold bind, run_cli, modify. cbn.
  eexists. split; [reflexivity|]. done.
Qed.

Lemma truthy_some o : truthy o = true -> exists a s, o = Some (String a s).
Proof. destruct o as [[|a s]|]; cbn; try done. eauto. Qed.

Lemma submit_job_spec cfg id rf user hex d w j :
  store w !! id = Some j -> job_id j = id -> owner_id j = user ->
  truthy (source_path j) = true -> truthy (target_path j) = true ->
  exists j' w' ps,
    submit_job cfg id rf user hex (0, 0, 0) d w = (Ok (job_to_response j'), w')
    /\ store w' !! id = Some j'
    /\ job_id j' = id /\ status j' = Queued /\ output_path j' <> None
    /\ target_kind j' = target_kind j
    /\ webhook_url j' = webhook_url j /\ webhook_events j' = webhook_events j
    /\ lane (target_kind j) w'
       = with_queue (queue (lane (target_kind j) w) ++ [id]) (lane (target_kind j) w)
    /\ notified w' = notified w ++ [(id, "queued")]
    /\ pushes w' = pushes w ++ ps
    /\ map push_event ps = pushed_events j ["queued"].
Proof.
  intros Hl Hid Hown Hsrc Htgt. unfold submit_job.
  erewrite bind_ok by (unfold load_job; by rewrite Hl).
  erewrite bind_ok by (rewrite <- Hown; apply assert_owner_same).
  rewrite Hsrc, Htgt. cbn [negb orb].
  destruct (truthy_some _ Hsrc) as (a1 & s1 & Hs). destruct (truthy_some _ Htgt) as (a2 & s2 & Ht).
  set (j1 := match rf with Some n => _ | None => _ end).
  assert (core j1 = core (set_reference_frame_number (reference_frame_number j1)
                            (set_output_path (output_path j1) j))
          /\ output_path j1 <> None) as [Hc1 Ho1].
  { subst j1. destruct rf; cbn; split; reflexivity || done. }
  pose proof (core_fields _ _ Hc1) as (Hjid&_&_&Hjk&_&Hjs&Hjt&_&_&_&Hju&Hje&_).
  cbn in Hjid, Hjk, Hjs, Hjt, Hju, Hje. clearbody j1.
  erewrite bind_ok by apply save_job_eq.
  set (j2 := set_updated_at (clock w) j1).
  set (w2 := with_store _ _).
  destruct (output_path j1) as [o|] eqn:Ho; [|done].
  destruct (enqueue_ok cfg j2 w2 (String a1 s1) (String a2 s2) o)
    as (w3 & Hrun & Hs3 & Hl3 & Hcl3 & Hn3 & Hp3);
    [by rewrite <- Hs, <- Hjs|by rewrite <- Ht, <- Hjt|done|].
  erewrite bind_ok by exact Hrun.
  erewrite bind_ok by reflexivity.
  erewrite bind_ok by apply save_job_eq.
  set (j4 := set_updated_at _ _).
  set (w4 := with_store _ _).
  destruct (send_webhook_spec d j4 "queued" w4)
    as (j5 & w5 & Hsend & Hc5 & Hl5 & _ & Hn5 & Hp5 & Hs5).
  erewrite bind_ok by exact Hsend.
  pose proof (core_fields _ _ Hc5) as (Hi5&_&_&Hk5&Hst5&_&_&Ho5&_&_&Hu5&He5&_).
  cbn in Hi5, Hk5, Hst5, Ho5, Hu5, He5.
  exists j5, w5, (posts_for j4 "queued"). split; [reflexivity|].
  assert (store w4 !! id = Some j4) as Hl4.
  { subst w4. cbn. rewrite with_lane_store.
    change (job_id j4) with (job_id j1). by rewrite Hjid, Hid, lookup_insert_eq. }
  assert (job_id j4 = id) as Hi4 by (change (job_id j1 = id); congruence).
  split.
  { destruct Hs5 as [[-> ->]| ->]; [done|]. by rewrite Hi4, lookup_insert_eq. }
  split; [congruence|]. split; [done|]. split; [by rewrite Ho5, Ho|].
  split; [congruence|]. split; [congruence|]. split; [congruence|].
  split.
  { rewrite (lanes_eq_lane _ _ _ Hl5). subst w4. cbn.
    change (target_kind j2) with (target_kind j1). rewrite Hjk.
    destruct Hl3 as [Hv3 Hi3]. subst w2.
    destruct (target_kind j); cbn; cbn in Hv3, Hi3; by rewrite ?Hv3, ?Hi3. }
  split.
  { rewrite Hn5, Hi4. subst w4. cbn.
    change (target_kind j2) with (target_kind j1).
    destruct (target_kind j1); cbn; by rewrite Hn3. }
  split.
  { rewrite Hp5. subst w4. cbn.
    change (target_kind j2) with (target_kind j1).
    destruct (target_kind j1); cbn; by rewrite Hp3. }
  rewrite posts_for_events.
  unfold pushed_events, subscribed_events.
  change (webhook_url j4) with (webhook_url j1).
  change (webhook_events j4) with (webhook_events j1).
  by rewrite Hju, Hje.
Qed.

(** ** Notification filtering *)

Lemma map_eq_nil_inv {A B} (f : A -> B) l : map f l = [] -> l = [].
Proof. by destruct l. Qed.


(** ** Validation *)


(** ** The output path *)

Lemma result_ready_completed j :
  result_ready (job_to_response j) = true ->
  status j = Completed /\ output_path j <> None.
Proof.
  cbn. intros [Hs Ho]%andb_true_iff. split.
  - by destruct (status j).
  - by destruct (output_path j).
Qed.

(** C4, as the code has it.  The output path is chosen when the job is
    submitted, before it is queued, because the engine is told where to
    write at that point; it is null before that and stays set afterwards,
    whatever the status.  So in every reachable state a record with an
    output path belongs to a job for which a submission was requested; and
    a result is reported ready only for a [completed] job that has one. *)
Theorem output_path_is_set_by_submission (cfg : Config) (acts : list Action)
    (id : string) (j : Job) :
  store (fst (run_actions cfg acts boot)) !! id = Some j ->
  output_path j <> None ->
  submitted acts id
  /\ (result_ready (job_to_response j) = true -> status j = Completed).
Proof.
  intros Hl Ho. split.
  - eapply inv_out; [apply (reachable_Inv cfg acts)|exact Hl|exact Ho].
  - intros H. by apply result_ready_completed in H as [? _].
Qed.

(** ** Saving and loading under [JOB_LOCK] *)

Section Locking.
Import Persistence.
Variable fs0 : gmap string string.
Variable tasks : list Task.

Lemma sound_init : Sound fs0 tasks (init fs0 tasks).
Proof.
  split; cbn; try done.
  - intros _ p d H. left. eauto.
  - intros i l Hl _. right. rewrite list_lookup_fmap in Hl.
    destruct (tasks !! i) as [t|] eqn:Ht; [|done].
    injection Hl as <-. exists t. split; [|done].
    apply list_elem_of_In. by eapply list_elem_of_lookup_2.
Qed.

Lemma all_whole_insert fs p d :
  whole fs0 tasks d -> all_whole fs0 tasks (delete p fs) ->
  all_whole fs0 tasks (<[p := d]> fs).
Proof.
  intros Hd Hall q e Hq. destruct (decide (p = q)) as [<-|Hne].
  - rewrite lookup_insert_eq in Hq. by injection Hq as <-.
  - rewrite lookup_insert_ne in Hq by done. apply (Hall q).
    by rewrite lookup_delete_ne.
Qed.

Lemma all_whole_delete fs p : all_whole fs0 tasks fs -> all_whole fs0 tasks (delete p fs).
Proof.
  intros Hall q e Hq. destruct (decide (p = q)) as [<-|Hne].
  - by rewrite lookup_delete_eq in Hq.
  - rewrite lookup_delete_ne in Hq by done. by apply (Hall q).
Qed.

Lemma sound_step i st : Sound fs0 tasks st -> Sound fs0 tasks (step i st).
Proof.
  intros HS. pose proof HS as [Hseen Hfree Hhold Hoth]. unfold step.
  destruct (threads st !! i) as [[|ins rest]|] eqn:Hi; try done.
  assert (i < length (threads st))%nat as Hlen by (by eapply lookup_lt_Some).
  destruct (decide (lock st = Some i)) as [Hlk|Hlk].
  - destruct (Hhold i Hlk) as (l & Hl & Hcrit). rewrite Hi in Hl. injection Hl as <-.
    destruct Hcrit as [(p & d & [= -> ->] & Hd & Hall)
                      |[(p & d & [= -> ->] & Hd & Hp & Hall)
                      |[([= -> ->] & Hall)
                      |[(p & [= -> ->] & Hall)
                       |(p & [= -> ->] & Hall & Hsome)]]]].
    + split; cbn; try done; try congruence.
      * intros i' Hi'; rewrite Hlk in Hi'; injection Hi' as <-. eexists. split; [by apply list_lookup_insert_eq|].
        right. left. exists p, d. repeat split; try done.
        -- by rewrite lookup_insert_eq.
        -- rewrite delete_insert_eq. by apply all_whole_delete.
      * intros i' l Hl' Hne. apply (Hoth i' l); [|done].
        rewrite list_lookup_insert_ne in Hl'; [done|congruence].
    + assert (contents (files st) p = "") as -> by (unfold contents; by rewrite Hp).
      split; cbn; try done; try congruence.
      * intros i' Hi'; rewrite Hlk in Hi'; injection Hi' as <-. eexists. split; [by apply list_lookup_insert_eq|].
        right. right. left. split; [done|]. by apply all_whole_insert.
      * intros i' l Hl' Hne. apply (Hoth i' l); [|done].
        rewrite list_lookup_insert_ne in Hl'; [done|congruence].
    + split; cbn; try done.
      intros i' l Hl' _. destruct (decide (i = i')) as [<-|Hne].
      * rewrite list_lookup_insert_eq in Hl' by done. left. congruence.
      * rewrite list_lookup_insert_ne in Hl' by done. apply (Hoth i' l); congruence.
    + destruct (files st !! p) as [d|] eqn:Hp.
      * split; cbn; try done; try congruence.
        -- intros i' Hi'; rewrite Hlk in Hi'; injection Hi' as <-. eexists. split; [by apply list_lookup_insert_eq|].
           do 4 right. exists p. rewrite Hp. eauto.
        -- intros i' l Hl' Hne. apply (Hoth i' l); [|done].
           rewrite list_lookup_insert_ne in Hl'; [done|congruence].
      * split; cbn; try done; try congruence.
        -- intros i' Hi'; rewrite Hlk in Hi'; injection Hi' as <-. eexists. split; [by apply list_lookup_insert_eq|].
           right. right. left. done.
        -- intros i' l Hl' Hne. apply (Hoth i' l); [|done].
           rewrite list_lookup_insert_ne in Hl'; [done|congruence].
    + destruct Hsome as [d Hp].
      split; cbn; try done; try congruence.
      * intros i' e [Hin|[[= <- <-]|[]]]%in_app_or; [eauto|].
        unfold contents. rewrite Hp. by apply (Hall p).
      * intros i' Hi'; rewrite Hlk in Hi'; injection Hi' as <-. eexists. split; [by apply list_lookup_insert_eq|].
        right. right. left. done.
      * intros i' l Hl' Hne. apply (Hoth i' l); [|done].
        rewrite list_lookup_insert_ne in Hl'; [done|congruence].
  - destruct (Hoth i _ Hi Hlk) as [?|(t & Ht & Hprog)]; [done|].
    assert (ins = Acquire) as -> by (destruct t; by injection Hprog).
    destruct (lock st) as [k|] eqn:Hlock; [exact HS|].
    split; cbn; try done.
    + intros i' [= <-]. eexists. split; [by apply list_lookup_insert_eq|].
      destruct t as [p d|p]; injection Hprog as ->.
      * left. exists p, d. repeat split; auto. right. eauto.
      * do 3 right. left. exists p. auto.
    + intros i' l Hl' Hne. destruct (decide (i = i')) as [<-|Hne'].
      * congruence.
      * rewrite list_lookup_insert_ne in Hl' by done. apply (Hoth i' l); congruence.
Qed.

Lemma sound_run sched : forall st, Sound fs0 tasks st -> Sound fs0 tasks (run sched st).
Proof.
  induction sched as [|i sched IH]; intros st H; cbn; [done|].
  by apply IH, sound_step.
Qed.
End Locking.


(** ** A pass of the worker is a begin step, one step per line, and an exit
    step *)

Lemma bind_assoc {A B C} (m : M A) (f : A -> M B) (g : B -> M C) w :
  bind (bind m f) g w = bind m (fun a => bind (f a) g) w.
Proof. unfold bind. by destruct (m w) as [[a|e] w']. Qed.

Lemma run_actions_cons cfg a acts w :
  fst (run_actions cfg (a :: acts) w) = fst (run_actions cfg acts (fst (exec cfg a w))).
Proof.
  cbn [run_actions]. destruct (exec cfg a w) as [w1 ev1]. cbn [fst].
  by destruct (run_actions cfg acts w1).
Qed.

Lemma outputs_as_steps cfg kind d id tl output : forall w fj j,
  alive (lane kind w) = true -> running (lane kind w) = true ->
  frame (lane kind w) = Some (id, fj) ->
  store w !! id = Some j -> job_id j = id ->
  exists w2,
    for_each output (on_output_line id) w = (Ok tt, w2)
    /\ fst (run_actions cfg (map (AOutput kind d) output ++ tl) w)
       = fst (run_actions cfg tl w2)
    /\ lanes_eq w w2.
Proof.
  induction output as [|line output IH]; intros w fj j Ha Hr Hf Hl Hid.
  - exists w. done.
  - destruct (on_output_line_spec id line w j Hl Hid)
      as (j1 & w1 & Hrun & Hs & Hid1 & _ & _ & _ & Hla & _).
    pose proof (lanes_eq_lane _ _ kind Hla) as Hlk.
    destruct (IH w1 fj j1) as (w2 & Hrun2 & Hsteps & Hla2); try (rewrite Hlk; done);
      [by rewrite Hs, lookup_insert_eq|done|].
    exists w2. split; [|split].
    + cbn [for_each]. by erewrite bind_ok by exact Hrun.
    + cbn [map app]. rewrite run_actions_cons. cbn [exec]. rewrite Ha, Hr. cbn [andb].
      unfold lane_step, step_output.
      erewrite bind_ok by (unfold get_frame_id; by rewrite Hf).
      unfold guarded, try_except. rewrite Hrun. exact Hsteps.
    + eauto using lanes_eq_trans.
Qed.

(** The body of the loop, as [worker_iteration] runs it in one go, and the
    steps the transition system takes for the same job end in the same
    world. *)
Lemma worker_pass_is_begin_outputs_exit cfg kind env d w id rest j :
  alive (lane kind w) = true -> running (lane kind w) = false ->
  queue (lane kind w) = id :: rest ->
  store w !! id = Some j -> job_id j = id ->
  worker_iteration cfg kind env w
  = Some (Ok tt,
          fst (run_actions cfg
                 (ABegin kind (post_running env)
                  :: map (AOutput kind d) (engine_output env)
                  ++ [AExit kind (engine_exit env) (post_done env)]) w)).
Proof.
  intros Ha Hidle Hq Hl Hid.
  rewrite run_actions_cons. cbn [exec]. unfold worker_iteration.
  rewrite Ha, Hidle, Hq. cbn [andb negb].
  set (w1 := with_lane kind _ w).
  assert (store w1 !! id = Some j) as Hl1 by (subst w1; by rewrite with_lane_store).
  assert (alive (lane kind w1) = true) as Ha1
    by (subst w1; rewrite lane_with_lane; exact Ha).
  clearbody w1.
  set (w0 := with_lane kind
               (with_running true
                  (lane kind (with_lane kind (with_frame (Some (id, j)) (lane kind w1)) w1)))
               (with_lane kind (with_frame (Some (id, j)) (lane kind w1)) w1)).
  assert (forall (k : M unit),
            (job <- load_job id;; enter kind id job;;; set_running_flag kind true;;; k) w1
            = k w0) as Hpre.
  { intros k. unfold bind, load_job, enter, set_running_flag, modify. by rewrite Hl1. }
  unfold worker_body, step_begin, lane_step. rewrite !Hpre.
  assert (frame (lane kind w0) = Some (id, j)) as Hf0 by (destruct kind; reflexivity).
  assert (alive (lane kind w0) = true /\ running (lane kind w0) = true) as [Ha0 Hr0].
  { subst w0. destruct kind; cbn in *; done. }
  clearbody w0.
  change (mark_running kind (post_running env))
    with (transition kind (set_status Running) (set_stage None) (set_progress 0)
            (post_running env) "running").
  destruct (transition_spec kind (set_status Running) (set_stage None) (set_progress 0)
              (post_running env) "running" w0 id j Hf0)
    as (j1 & wr & Htr & Hcore & Hs & Hla & _).
  cbn [job_id set_progress set_stage set_status] in Hs. rewrite Hid in Hs.
  assert (frame (lane kind wr) = Some (id, j1)) as Hfr by (by rewrite Hla).
  assert (alive (lane kind wr) = true /\ running (lane kind wr) = true) as [Har Hrr]
    by (by rewrite Hla).
  set (args := job_run_args cfg id (target_kind j1)).
  set (wl := with_cli (cli wr ++ [args]) wr).
  assert (guarded kind (post_running env)
            (transition kind (set_status Running) (set_stage None) (set_progress 0)
               (post_running env) "running";;; launch cfg kind) w0 = (Ok tt, wl)) as ->.
  { unfold guarded, try_except. erewrite bind_ok by exact Htr.
    unfold launch, get_frame_id, get_frame, bind, modify. rewrite Hfr. cbn.
    by rewrite Hfr. }
  cbn [fst].
  destruct (outputs_as_steps cfg kind d id
              [AExit kind (engine_exit env) (post_done env)] (engine_output env) wl j1 j1)
    as (w2 & Hloop & Hsteps & Hla2);
    try (subst wl; destruct kind; cbn in *; done).
  { subst wl. cbn. destruct kind; cbn; by rewrite Hs, lookup_insert_eq. }
  { apply core_fields in Hcore as (Hi & _). cbn in Hi. congruence. }
  rewrite Hsteps, run_actions_cons. cbn [run_actions fst exec].
  pose proof (lanes_eq_lane _ _ kind Hla2) as Hlk2.
  assert (lane kind wl = lane kind wr) as Hlkl by (subst wl; by destruct kind).
  rewrite Hlk2, Hlkl, Har, Hrr. cbn [andb].
  assert (frame (lane kind w2) = Some (id, j1)) as Hf2 by (by rewrite Hlk2, Hlkl).
  destruct (step_exit_spec cfg kind (engine_exit env) (post_done env) w2 id j1 Hf2)
    as (jf & w' & Hexit & _).
  unfold lane_step. rewrite Hexit. cbn [fst].
  revert Hexit. unfold step_exit.
  erewrite bind_ok by (unfold get_frame_id; by rewrite Hf2).
  erewrite bind_ok by (unfold get_frame; by rewrite Hf2).
  fold args. intros Hexit.
  assert ((transition kind (set_status Running) (set_stage None) (set_progress 0)
             (post_running env) "running";;;
           j0 <- get_frame kind;;
           run_facefusion_job cfg (engine_output env) (engine_exit env) id (target_kind j0);;;
           mark_completed kind (post_done env)) w0
          = (on_exit args (engine_exit env);;; mark_completed kind (post_done env)) w2) as Hbody.
  { erewrite bind_ok by exact Htr.
    erewrite bind_ok by (unfold get_frame; by rewrite Hfr).
    unfold run_facefusion_job. fold args.
    rewrite bind_assoc. erewrite bind_ok by reflexivity. fold wl.
    rewrite bind_assoc. by erewrite bind_ok by exact Hloop. }
  unfold try_finally, try_except in *. rewrite Hbody, Hexit. done.
Qed.

(** ** The sample runs *)

(** In the sample traffic the photo lane starts its two jobs in the order
    they were submitted, and no sooner than the first has ended. *)
Example demo_traffic_order :
  enqueued image (snd (run_actions default_config demo_traffic boot))
  = ["api-33333333"; "api-11111111"]
  /\ started image (snd (run_actions default_config demo_traffic boot))
     = ["api-33333333"; "api-11111111"]
  /\ started video (snd (run_actions default_config demo_traffic boot))
     = ["api-22222222"]
  /\ queue (lane image (fst (run_actions default_config demo_traffic boot))) = [].
Proof. by vm_compute. Qed.



(** Right after submission the sample job is [queued] and already has its
    output path. *)
Lemma queued_job_already_has_output_path : ~ output_only_when_completed demo_queued.
Proof.
  intros H.
  assert (status demo_job_queued = Completed) as Hst.
  { apply (H demo_id); [vm_compute; reflexivity|discriminate]. }
  discriminate Hst.
Qed.

Lemma output_path_is_set_by_submission_witness :
  submitted (demo_prepare ++ [demo_submit]) demo_id
  /\ (result_ready (job_to_response demo_job_queued) = true ->
      status demo_job_queued = Completed).
Proof.
  apply (output_path_is_set_by_submission default_config (demo_prepare ++ [demo_submit])
           demo_id demo_job_queued).
  - vm_compute. reflexivity.
  - vm_compute. discriminate.
Defined.





Lemma foreign_user_is_forbidden_witness :
  get_job demo_id "mallory" demo_ready = (Raise (HTTPException 403 "Forbidden"), demo_ready)
  /\ cancel_job demo_id "mallory" demo_ready
     = (Raise (HTTPException 403 "Forbidden"), demo_ready).
Proof.
  destruct (foreign_user_is_forbidden default_config demo_ready demo_id demo_job "mallory")
    as (_ & _ & _ & _ & Hget & _ & _ & Hcancel).
  - vm_compute. reflexivity.
  - vm_compute. discriminate.
  - split; [exact Hget|exact Hcancel].
Defined.

(** The sample job, subscribed to [completed] only, makes one post in its
    whole life. *)
Example demo_job_posts_once :
  map push_event
    (pushes (worker default_config image [demo_env 0] demo_queued))
  = ["completed"]
  /\ notified (worker default_config image [demo_env 0] demo_queued)
     = [(demo_id, "queued"); (demo_id, "running"); (demo_id, "completed")].
Proof. by vm_compute. Qed.

(** * More of the code *)

(** ** The record store *)

Lemma load_job_ok id w j : store w !! id = Some j -> load_job id w = (Ok j, w).
Proof. intros H. unfold load_job. by rewrite H. Qed.

Lemma load_job_missing id w :
  store w !! id = None -> load_job id w = (Raise (HTTPException 404 "Job not found"), w).
Proof. intros H. unfold load_job. by rewrite H. Qed.

(** X1.  [update_job] on a stored record saves the record with the fields
    applied and the time stamp renewed, and returns it; a [load_job] that
    follows gives back exactly that dictionary; no other record and no lane
    is touched. *)
Theorem update_job_then_load_job (id : string) (fields : Job -> Job) (w : World) (j : Job) :
  store w !! id = Some j ->
  job_id (fields j) = id ->
  exists j' w',
    update_job id fields w = (Ok j', w')
    /\ j' = set_updated_at (clock w) (fields j)
    /\ load_job id w' = (Ok j', w')
    /\ (forall id', id' <> id -> store w' !! id' = store w !! id')
    /\ lanes_eq w w' /\ notified w' = notified w /\ pushes w' = pushes w
    /\ cli w' = cli w.
Proof.
  intros Hl Hid. unfold update_job.
  erewrite bind_ok by (by apply load_job_ok).
  erewrite bind_ok by apply save_job_eq.
  eexists _, _. split; [reflexivity|]. split; [reflexivity|].
  split; [|split].
  - apply load_job_ok. cbn. by rewrite Hid, lookup_insert_eq.
  - intros id' Hne. cbn. rewrite Hid. by rewrite lookup_insert_ne.
  - done.
Qed.


(** ** Uploads *)

Lemma received_nonneg cs : Forall (fun c => 0 <= c) cs -> 0 <= received cs.
Proof.
  induction 1 as [|c cs Hc _ IH]; cbn; [lia|]. destruct (c =? 0); lia.
Qed.

Lemma save_upload_chunks_unlimited cs : forall size m,
  m = None \/ m = Some 0 ->
  save_upload_chunks cs size m = Ok (size + received cs).
Proof.
  induction cs as [|c cs IH]; intros size m Hm; cbn.
  - f_equal. lia.
  - destruct (c =? 0); [f_equal; lia|].
    destruct Hm as [-> | ->]; cbn; rewrite IH by auto; f_equal; lia.
Qed.

Lemma save_upload_chunks_limited cs : forall size m,
  0 < m -> Forall (fun c => 0 <= c) cs -> size <= m ->
  save_upload_chunks cs size (Some m)
  = if m <? size + received cs
    then Raise (HTTPException 413 "File too large")
    else Ok (size + received cs).
Proof.
  induction cs as [|c cs IH]; intros size m Hm Hcs Hsize; cbn.
  - rewrite Z.add_0_r. by destruct (Z.ltb_spec m size); [lia|].
  - inversion Hcs as [|? ? Hc Hcs']; subst.
    destruct (Z.eqb_spec c 0) as [->|Hne].
    + rewrite Z.add_0_r. by destruct (Z.ltb_spec m size); [lia|].
    + destruct (Z.eqb_spec m 0); [lia|]. cbn [negb andb].
      pose proof (received_nonneg cs Hcs') as Hr.
      destruct (Z.ltb_spec m (size + c)) as [Hover|Hfits].
      * by destruct (Z.ltb_spec m (size + (c + received cs))); [|lia].
      * rewrite IH by (done || lia). by rewrite Z.add_assoc.
Qed.

(** X3.  [save_upload_file] reads until the first empty chunk and answers
    with the number of bytes read; with a limit that is not zero it raises
    413 exactly when that number exceeds the limit; without a limit, or
    with the limit 0, it accepts any size. *)
Theorem save_upload_file_enforces_the_limit (upload : UploadFile) (dest : string)
    (max_bytes : option Z) (w : World) :
  Forall (fun c => 0 <= c) (chunks upload) ->
  (forall m, max_bytes = Some m -> 0 <= m) ->
  save_upload_file upload dest max_bytes w
  = (match max_bytes with
     | Some m =>
         if negb (m =? 0) && (m <? received (chunks upload))
         then Raise (HTTPException 413 "File too large")
         else Ok (received (chunks upload))
     | None => Ok (received (chunks upload))
     end, w).
Proof.
  intros Hcs Hm. unfold save_upload_file. f_equal.
  destruct max_bytes as [m|].
  - specialize (Hm m eq_refl). destruct (Z.eqb_spec m 0) as [->|Hne]; cbn [negb andb].
    + by rewrite save_upload_chunks_unlimited by auto.
    + by rewrite save_upload_chunks_limited by (done || lia).
  - by rewrite save_upload_chunks_unlimited by auto.
Qed.


(** X5.  A target of the kind of the job: a video of more than 60 MiB is
    answered 413 and a video found too long 400, both leaving the record as
    it was; an image is neither measured nor timed.  An accepted target sets
    the target path, and the status becomes [ready] only if a source is
    already there: otherwise the status is left as it is. *)
Theorem upload_target_checks_videos_only (cfg : Config) (id : string) (file : UploadFile)
    (user hex : string) (w : World) (j : Job) :
  store w !! id = Some j -> job_id j = id -> owner_id j = user ->
  detect_kind (upload_suffix file) = Some (target_kind j) ->
  Forall (fun c => 0 <= c) (chunks file) ->
  if kind_eqb (target_kind j) video && (MAX_VIDEO_SIZE_BYTES <? received (chunks file))
  then upload_target cfg id file user hex w
       = (Raise (HTTPException 413 "File too large"), w)
  else if kind_eqb (target_kind j) video && too_long file
  then upload_target cfg id file user hex w
       = (Raise (HTTPException 400 "Video too long (max 2 minutes)"), w)
  else exists j' w',
         upload_target cfg id file user hex w = (Ok (job_to_response j'), w')
         /\ j' = set_updated_at (clock w)
                   ((if truthy (source_path j) then set_status Ready else fun x => x)
                      (set_target_path
                         (Some (TARGET_DIR cfg +:+ "/" +:+ hex +:+ upload_suffix file)) j))
         /\ store w' = <[id := j']> (store w)
         /\ lanes_eq w w' /\ cli w' = cli w /\ notified w' = notified w.
Proof.
  intros Hl Hid Hown Hd Hcs. unfold upload_target.
  erewrite bind_ok by (by apply load_job_ok).
  erewrite bind_ok by (rewrite <- Hown; apply assert_owner_same).
  rewrite Hd.
  assert (kind_eqb (target_kind j) (target_kind j) = true) as -> by (by destruct (target_kind j)).
  cbn [negb].
  assert (0 < MAX_VIDEO_SIZE_BYTES) as Hmax by done.
  destruct (target_kind j) eqn:Hk; cbn [kind_eqb andb].
  - erewrite bind_ok
      by (unfold save_upload_file; by rewrite save_upload_chunks_unlimited by auto).
    erewrite bind_ok by apply save_job_eq.
    eexists _, _. split; [reflexivity|].
    cbn. destruct (truthy (source_path j)); cbn; by rewrite Hid.
  - assert (forall dest, save_upload_file file dest (Some MAX_VIDEO_SIZE_BYTES) w
            = (if MAX_VIDEO_SIZE_BYTES <? received (chunks file)
               then Raise (HTTPException 413 "File too large")
               else Ok (received (chunks file)), w)) as Hsave.
    { intros dest. unfold save_upload_file.
      by rewrite save_upload_chunks_limited by (done || lia). }
    destruct (MAX_VIDEO_SIZE_BYTES <? received (chunks file)).
    { by erewrite bind_raise by apply Hsave. }
    erewrite bind_ok by apply Hsave.
    destruct (too_long file); [done|].
    erewrite bind_ok by apply save_job_eq.
    eexists _, _. split; [reflexivity|].
    cbn. destruct (truthy (source_path j)); cbn; by rewrite Hid.
Qed.

(** ** The engine commands of a submission *)

Lemma run_cli_eq c args w :
  run_cli c args w
  = (if c =? 0 then Ok tt else Raise (CalledProcessError c args),
     with_cli (cli w ++ [args]) w).
Proof. unfold run_cli, bind, modify. by destruct (c =? 0). Qed.

Lemma enqueue_facefusion_job_eq cfg c1 c2 c3 j w s t o :
  source_path j = Some s -> target_path j = Some t -> output_path j = Some o ->
  exists a1 a2 a3,
    enqueue_facefusion_job cfg (c1, c2, c3) j w
    = (if c1 =? 0 then
         if c2 =? 0 then
           if c3 =? 0 then Ok tt else Raise (CalledProcessError c3 a3)
         else Raise (CalledProcessError c2 a2)
       else Raise (CalledProcessError c1 a1),
       with_cli (cli w ++ if c1 =? 0 then if c2 =? 0 then [a1; a2; a3] else [a1; a2]
                          else [a1]) w)
    /\ is_engine_command "job-create" (job_id j) a1
    /\ is_engine_command "job-add-step" (job_id j) a2
    /\ is_engine_command "job-submit" (job_id j) a3
    /\ exists base,
         length base = 18%nat
         /\ a2 = base ++ match reference_frame_number j with
                         | Some n => if n =? 0 then []
                                     else ["--reference-frame-number"; str_of_Z n]
                         | None => []
                         end.
Proof.
  intros Hs Ht Ho. unfold enqueue_facefusion_job. rewrite Hs, Ht, Ho.
  destruct (resolve_models (mode j) t) as [sw en].
  set (a1 := ["python"; "facefusion.py"; "job-create"; job_id j; "--jobs-path"; JOBS_PATH cfg]).
  set (a3 := ["python"; "facefusion.py"; "job-submit"; job_id j; "--jobs-path"; JOBS_PATH cfg]).
  set (base := ["python"; "facefusion.py"; "job-add-step"; job_id j; "-s"; s; "-t"; t;
                "-o"; o; "--face-swapper-model"; sw; "--face-enhancer-model"; en;
                "--jobs-path"; JOBS_PATH cfg; "--config-path"; CONFIG_PATH cfg]).
  set (a2 := match reference_frame_number j with Some n => _ | None => _ end).
  exists a1, a2, a3. split; [|split; [|split; [|split]]].
  - unfold bind. rewrite !run_cli_eq.
    destruct (c1 =? 0); [|reflexivity].
    destruct (c2 =? 0); cbn; [|by rewrite <- app_assoc].
    destruct (c3 =? 0); cbn; by rewrite <- !app_assoc.
  - by eexists.
  - subst a2. destruct (reference_frame_number j) as [n|]; [destruct (n =? 0)|];
      by eexists.
  - by eexists.
  - exists base. split; [done|]. subst a2.
    destruct (reference_frame_number j) as [n|]; [destruct (n =? 0)|];
      by rewrite ?app_nil_r.
Qed.

(** X6.  A submission issues [job-create], [job-add-step] and [job-submit]
    for the job, in this order, and stops at the first of them that exits
    with a status other than 0, raising [CalledProcessError] for it; the
    step command ends with [--reference-frame-number n] only for a frame
    number [n] other than 0. *)
Theorem engine_commands_stop_at_the_first_failure (cfg : Config) (c1 c2 c3 : Z)
    (j : Job) (w : World) (s t o : string) :
  source_path j = Some s -> target_path j = Some t -> output_path j = Some o ->
  exists a1 a2 a3 issued r w',
    enqueue_facefusion_job cfg (c1, c2, c3) j w = (r, w')
    /\ cli w' = cli w ++ issued
    /\ store w' = store w /\ lanes_eq w w'
    /\ is_engine_command "job-create" (job_id j) a1
    /\ is_engine_command "job-add-step" (job_id j) a2
    /\ is_engine_command "job-submit" (job_id j) a3
    /\ (c1 <> 0 -> issued = [a1] /\ r = Raise (CalledProcessError c1 a1))
    /\ (c1 = 0 -> c2 <> 0 -> issued = [a1; a2] /\ r = Raise (CalledProcessError c2 a2))
    /\ (c1 = 0 -> c2 = 0 -> c3 <> 0 ->
        issued = [a1; a2; a3] /\ r = Raise (CalledProcessError c3 a3))
    /\ (c1 = 0 -> c2 = 0 -> c3 = 0 -> issued = [a1; a2; a3] /\ r = Ok tt)
    /\ (forall n, reference_frame_number j = Some n -> n <> 0 ->
        exists base, length base = 18%nat
                     /\ a2 = base ++ ["--reference-frame-number"; str_of_Z n])
    /\ (reference_frame_number j = None \/ reference_frame_number j = Some 0 ->
        length a2 = 18%nat).
Proof.
  intros Hs Ht Ho.
  destruct (enqueue_facefusion_job_eq cfg c1 c2 c3 j w s t o Hs Ht Ho)
    as (a1 & a2 & a3 & Hrun & H1 & H2 & H3 & base & Hlen & Ha2).
  exists a1, a2, a3. eexists _, _, _. split; [exact Hrun|].
  split; [reflexivity|]. split; [done|]. split; [done|].
  split; [done|]. split; [done|]. split; [done|].
  split; [|split; [|split; [|split; [|split]]]].
  - intros Hc. apply Z.eqb_neq in Hc. by rewrite Hc.
  - intros -> Hc. apply Z.eqb_neq in Hc. by rewrite Hc.
  - intros -> -> Hc. apply Z.eqb_neq in Hc. by rewrite Hc.
  - by intros -> -> ->.
  - intros n Hn Hne. exists base. rewrite Hn in Ha2. apply Z.eqb_neq in Hne.
    by rewrite Hne in Ha2.
  - intros [Hn|Hn]; rewrite Hn in Ha2; cbn in Ha2; rewrite app_nil_r in Ha2; congruence.
Qed.

(** ** Submission, once more *)

(** The record [submit_job] saves before it turns to the engine. *)
Lemma submit_job_prefix cfg id rf user hex codes d w j :
  store w !! id = Some j -> job_id j = id -> owner_id j = user ->
  truthy (source_path j) = true -> truthy (target_path j) = true ->
  exists t j1,
    target_path j = Some t
    /\ j1 = match rf with
            | Some n => set_reference_frame_number (Some n)
                          (set_output_path (Some (build_output_path cfg hex t)) j)
            | None => set_output_path (Some (build_output_path cfg hex t)) j
            end
    /\ submit_job cfg id rf user hex codes d w
       = (enqueue_facefusion_job cfg codes (set_updated_at (clock w) j1) ;;;
          queue_job id (target_kind j) ;;;
          job <- save_job (set_progress 0 (set_stage (Some "queued")
                             (set_status Queued (set_updated_at (clock w) j1)))) ;;
          job <- send_webhook d job "queued" ;;
          ret (job_to_response job))
          (with_store (<[id := set_updated_at (clock w) j1]> (store w))
             (with_clock (S (clock w)) w)).
Proof.
  intros Hl Hid Hown Hsrc Htgt. unfold submit_job.
  erewrite bind_ok by (by apply load_job_ok).
  erewrite bind_ok by (rewrite <- Hown; apply assert_owner_same).
  rewrite Hsrc, Htgt. cbn [negb orb].
  destruct (truthy_some _ Htgt) as (a2 & s2 & Ht). rewrite Ht.
  eexists _, _. split; [reflexivity|]. split; [reflexivity|].
  erewrite bind_ok by apply save_job_eq.
  destruct rf; cbn; by rewrite Hid.
Qed.

(** X7.  When source and target are there but one of the engine commands
    fails, [submit_job] raises the [CalledProcessError]: the id is not
    enqueued, nothing is notified and the status is not changed, but the
    record has already been saved with the new output path (and reference
    frame), so the failed request leaves a trace. *)
Theorem failed_submission_leaves_the_output_path (cfg : Config) (id : string)
    (rf : option Z) (user hex : string) (c1 c2 c3 : Z) (d : bool) (w : World) (j : Job) :
  store w !! id = Some j -> job_id j = id -> owner_id j = user ->
  truthy (source_path j) = true -> truthy (target_path j) = true ->
  (c1, c2, c3) <> (0, 0, 0) ->
  exists c cmd j' w' t,
    submit_job cfg id rf user hex (c1, c2, c3) d w = (Raise (CalledProcessError c cmd), w')
    /\ c <> 0 /\ In c [c1; c2; c3]
    /\ target_path j = Some t
    /\ store w' = <[id := j']> (store w)
    /\ core j'
       = core (set_reference_frame_number
                 (match rf with Some n => Some n | None => reference_frame_number j end)
                 (set_output_path (Some (build_output_path cfg hex t)) j))
    /\ status j' = status j
    /\ lanes_eq w w' /\ notified w' = notified w /\ pushes w' = pushes w.
Proof.
  intros Hl Hid Hown Hsrc Htgt Hcodes.
  destruct (submit_job_prefix cfg id rf user hex (c1, c2, c3) d w j Hl Hid Hown Hsrc Htgt)
    as (t & j1 & Ht & Hj1 & ->).
  set (w1 := with_store _ _).
  destruct (truthy_some _ Hsrc) as (a1 & s1 & Hs).
  destruct (enqueue_facefusion_job_eq cfg c1 c2 c3 (set_updated_at (clock w) j1) w1
              (String a1 s1) t (build_output_path cfg hex t))
    as (x1 & x2 & x3 & Hrun & _); try (subst j1; by destruct rf).
  assert (exists c cmd w2, enqueue_facefusion_job cfg (c1, c2, c3)
                             (set_updated_at (clock w) j1) w1
                           = (Raise (CalledProcessError c cmd), w2)
                           /\ c <> 0 /\ In c [c1; c2; c3]
                           /\ store w2 = store w1 /\ lanes_eq w1 w2
                           /\ notified w2 = notified w1 /\ pushes w2 = pushes w1)
    as (c & cmd & w2 & Hrun2 & Hc & Hin & Hs2 & Hla2 & Hn2 & Hp2).
  { rewrite Hrun.
    destruct (Z.eqb_spec c1 0) as [->|?];
      [|eexists _, _, _; split; [reflexivity|]; cbn; repeat split; auto].
    destruct (Z.eqb_spec c2 0) as [->|?];
      [|eexists _, _, _; split; [reflexivity|]; cbn; repeat split; auto].
    destruct (Z.eqb_spec c3 0) as [->|?];
      [done|eexists _, _, _; split; [reflexivity|]; cbn; repeat split; auto]. }
  erewrite bind_raise by exact Hrun2.
  exists c, cmd, (set_updated_at (clock w) j1), w2, t.
  split; [done|]. split; [done|]. split; [done|]. split; [done|].
  split; [by rewrite Hs2|].
  split; [subst j1; by destruct rf|].
  split; [subst j1; by destruct rf|].
  split; [|by rewrite Hn2, Hp2].
  destruct Hla2 as [Hv Hi]. split; [by rewrite Hv|by rewrite Hi].
Qed.

Lemma submit_job_full cfg id rf user hex d w j :
  store w !! id = Some j -> job_id j = id -> owner_id j = user ->
  truthy (source_path j) = true -> truthy (target_path j) = true ->
  exists j' w' t,
    submit_job cfg id rf user hex (0, 0, 0) d w = (Ok (job_to_response j'), w')
    /\ target_path j = Some t
    /\ core j'
       = core (set_progress 0 (set_stage (Some "queued") (set_status Queued
                 (set_reference_frame_number
                    (match rf with Some n => Some n | None => reference_frame_number j end)
                    (set_output_path (Some (build_output_path cfg hex t)) j)))))
    /\ store w' = <[id := j']> (store w)
    /\ lane (target_kind j) w'
       = with_queue (queue (lane (target_kind j) w) ++ [id]) (lane (target_kind j) w)
    /\ (forall k, k <> target_kind j -> lane k w' = lane k w)
    /\ notified w' = notified w ++ [(id, "queued")].
Proof.
  intros Hl Hid Hown Hsrc Htgt.
  destruct (submit_job_prefix cfg id rf user hex (0, 0, 0) d w j Hl Hid Hown Hsrc Htgt)
    as (t & j1 & Ht & Hj1 & ->).
  set (w1 := with_store _ _).
  destruct (truthy_some _ Hsrc) as (a1 & s1 & Hs).
  destruct (enqueue_ok cfg (set_updated_at (clock w) j1) w1
              (String a1 s1) t (build_output_path cfg hex t))
    as (w3 & Hrun & Hs3 & Hl3 & Hcl3 & Hn3 & Hp3); try (subst j1; by destruct rf).
  erewrite bind_ok by exact Hrun.
  erewrite bind_ok by reflexivity.
  erewrite bind_ok by apply save_job_eq.
  set (j4 := set_updated_at _ _).
  set (w4 := with_store _ _).
  destruct (send_webhook_spec d j4 "queued" w4)
    as (j5 & w5 & Hsend & Hc5 & Hl5 & _ & Hn5 & _ & Hs5).
  erewrite bind_ok by exact Hsend.
  assert (job_id j4 = id) as Hi4 by (subst j4 j1; by destruct rf).
  assert (store w4 = <[id := j4]> (store w)) as Hs4.
  { subst w4. cbn. rewrite with_lane_store. change (job_id j1) with (job_id j4).
    rewrite Hi4, Hs3. subst w1. cbn. by rewrite insert_insert_eq. }
  exists j5, w5, t. split; [reflexivity|]. split; [done|].
  split; [rewrite Hc5; subst j4 j1; by destruct rf|].
  split.
  { destruct Hs5 as [[-> ->]| ->]; [done|]. by rewrite Hi4, Hs4, insert_insert_eq. }
  split.
  { rewrite (lanes_eq_lane _ _ _ Hl5). subst w4. destruct Hl3 as [Hv3 Hi3].
    subst w1. destruct (target_kind j); cbn; cbn in Hv3, Hi3; by rewrite ?Hv3, ?Hi3. }
  split.
  { intros k Hk. rewrite (lanes_eq_lane _ _ _ Hl5). subst w4. destruct Hl3 as [Hv3 Hi3].
    subst w1. destruct k, (target_kind j); try done; cbn; cbn in Hv3, Hi3;
      by rewrite ?Hv3, ?Hi3. }
  rewrite Hn5, Hi4. subst w4. cbn.
  destruct (target_kind j); cbn; by rewrite Hn3.
Qed.

(** X8.  [submit_job] does not look at the status of the job: whatever it
    is, a job with both files is accepted, and accepted again when it is
    submitted a second time.  The id then stands twice in the queue of its
    lane, and the record carries the output path of the second
    submission. *)
Theorem a_job_can_be_submitted_twice (cfg : Config) (id : string) (rf1 rf2 : option Z)
    (user hex1 hex2 : string) (d1 d2 : bool) (w : World) (j : Job) :
  store w !! id = Some j -> job_id j = id -> owner_id j = user ->
  truthy (source_path j) = true -> truthy (target_path j) = true ->
  exists r1 w1 j2 w2 t,
    submit_job cfg id rf1 user hex1 (0, 0, 0) d1 w = (Ok r1, w1)
    /\ submit_job cfg id rf2 user hex2 (0, 0, 0) d2 w1 = (Ok (job_to_response j2), w2)
    /\ target_path j = Some t
    /\ queue (lane (target_kind j) w2) = queue (lane (target_kind j) w) ++ [id; id]
    /\ store w2 !! id = Some j2
    /\ status j2 = Queued
    /\ output_path j2 = Some (build_output_path cfg hex2 t).
Proof.
  intros Hl Hid Hown Hsrc Htgt.
  destruct (submit_job_full cfg id rf1 user hex1 d1 w j Hl Hid Hown Hsrc Htgt)
    as (j1 & w1 & t & Hrun1 & Ht & Hc1 & Hs1 & Hq1 & _).
  pose proof (core_fields _ _ Hc1) as (Hi1&Ho1&_&Hk1&_&Hsp1&Htp1&_).
  cbn in Hi1, Ho1, Hk1, Hsp1, Htp1.
  destruct (submit_job_full cfg id rf2 user hex2 d2 w1 j1)
    as (j2 & w2 & t' & Hrun2 & Ht' & Hc2 & Hs2 & Hq2 & _);
    try congruence.
  { by rewrite Hs1, lookup_insert_eq. }
  assert (t' = t) as -> by congruence.
  pose proof (core_fields _ _ Hc2) as (_&_&_&_&Hst2&_&_&Hop2&_).
  cbn in Hst2, Hop2.
  exists (job_to_response j1), w1, j2, w2, t.
  split; [done|]. split; [done|]. split; [done|].
  split; [|split; [by rewrite Hs2, lookup_insert_eq|done]].
  rewrite Hk1 in Hq2. rewrite Hq2, Hq1. cbn. by rewrite <- app_assoc.
Qed.

(** ** Subscriptions *)

(** X9.  A webhook url that starts with neither [http://] nor [https://]
    is answered 400 and nothing changes.  Otherwise the url and the list of
    events are stored (all four events for a missing or empty list), and
    from then on a notification of the job posts to that url exactly when
    its event is in the stored list. *)
Theorem set_webhook_decides_what_is_posted (id url : string)
    (events : option (list string)) (user : string) (w : World) (j : Job) :
  store w !! id = Some j -> job_id j = id -> owner_id j = user ->
  if startswith url "http://" || startswith url "https://"
  then exists j' w',
         set_webhook id url events user w = (Ok (job_to_response j'), w')
         /\ store w' = <[id := j']> (store w)
         /\ lanes_eq w w'
         /\ status j' = status j
         /\ forall d e w0,
              pushes (snd (send_webhook d j' e w0))
              = pushes w0
                ++ (if str_mem e (match events with
                                  | None | Some [] => ALL_EVENTS
                                  | Some l => l
                                  end)
                    then [payload url j' e] else [])
  else set_webhook id url events user w
       = (Raise (HTTPException 400 "Webhook url must be http(s)"), w).
Proof.
  intros Hl Hid Hown. unfold set_webhook.
  erewrite bind_ok by (by apply load_job_ok).
  erewrite bind_ok by (rewrite <- Hown; apply assert_owner_same).
  destruct (startswith url "http://") eqn:H1; cbn [negb andb orb].
  2: destruct (startswith url "https://") eqn:H2; cbn [negb andb orb]; [|done].
  all: erewrite bind_ok by apply save_job_eq.
  all: eexists _, _; split; [reflexivity|].
  all: split; [cbn; by rewrite Hid|]; split; [done|]; split; [done|].
  all: intros d e w0;
    match goal with
    | |- context [send_webhook d ?jj e w0] =>
        destruct (send_webhook_spec d jj e w0)
          as (j5 & w5 & Hsend & _ & _ & _ & _ & Hp & _)
    end;
    rewrite Hsend; cbn [snd]; rewrite Hp; f_equal;
    unfold posts_for, subscribed_events; cbn;
    (destruct url as [|a u]; [discriminate|]);
    destruct events as [[|e1 l]|]; reflexivity.
Qed.

(** ** Answers that change nothing *)

Lemma status_eqb_eq a b : status_eqb a b = true <-> a = b.
Proof. destruct a, b; cbn; split; congruence. Qed.

Ltac run_handler :=
  repeat match goal with
         | H : context [bind _ _ _] |- _ => unfold bind in H
         | H : context [load_job ?id ?w] |- _ =>
             unfold load_job in H; destruct (store w !! id) eqn:?
         | H : context [assert_owner ?j ?u ?w] |- _ =>
             unfold assert_owner in H; destruct (String.eqb (owner_id j) u) eqn:?
         | H : context [raise _ _] |- _ => unfold raise in H
         | H : context [ret _ _] |- _ => unfold ret in H
         | H : (Raise _, _) = (Raise _, _) |- _ => injection H as <- <-
         | H : (_, _) = (_, _) |- _ => discriminate H
         end.

(** X10.  Apart from [submit_job], a handler that answers with an error has
    changed nothing: not the records, not the lanes, not the logs.  And the
    three reading handlers change nothing whatever they answer. *)
Theorem an_error_answer_has_changed_nothing (cfg : Config) (w : World) :
  (forall id file user hex e w',
     upload_source cfg id file user hex w = (Raise e, w') -> w' = w)
  /\ (forall id file user hex e w',
        upload_target cfg id file user hex w = (Raise e, w') -> w' = w)
  /\ (forall id url events user e w',
        set_webhook id url events user w = (Raise e, w') -> w' = w)
  /\ (forall id user e w', cancel_job id user w = (Raise e, w') -> w' = w)
  /\ (forall payload_mode user hex e w',
        create_job payload_mode user hex w <> (Raise e, w'))
  /\ (forall id user, snd (get_job id user w) = w)
  /\ (forall id user, snd (job_events id user w) = w)
  /\ (forall id user on_disk, snd (get_result id user on_disk w) = w).
Proof.
  split; [|split; [|split; [|split; [|split; [|split; [|split]]]]]].
  - intros id file user hex e w' H. unfold upload_source in H. run_handler; try done.
    destruct (negb _); run_handler; try done.
    unfold save_upload_file in H.
    rewrite save_upload_chunks_unlimited in H by auto. discriminate H.
  - intros id file user hex e w' H. unfold upload_target in H. run_handler; try done.
    destruct (detect_kind _) as [k|]; run_handler; try done.
    destruct (negb _); run_handler; try done.
    unfold save_upload_file in H.
    destruct (save_upload_chunks _ _ _); run_handler; try done.
    destruct (_ && _); run_handler; done.
  - intros id url events user e w' H. unfold set_webhook in H. run_handler; try done.
    destruct (_ && _); run_handler; done.
  - intros id user e w' H. unfold cancel_job in H. run_handler; done.
  - intros pm user hex e w' H. discriminate H.
  - intros id user. unfold get_job, bind, load_job, assert_owner.
    destruct (store w !! id); [|done]. by destruct (String.eqb _ _).
  - intros id user. unfold job_events, bind, load_job, assert_owner.
    destruct (store w !! id); [|done]. by destruct (String.eqb _ _).
  - intros id user on_disk. unfold get_result, bind, load_job, assert_owner.
    destruct (store w !! id); [|done]. destruct (String.eqb _ _); [|done].
    cbn. destruct (_ || _); [done|]. by destruct on_disk.
Qed.

(** X11.  [get_result] hands out a path exactly when the caller owns the
    record, its status is [completed], its output path is that non-empty
    path and the file is on disk. *)
Theorem get_result_serves_only_completed_jobs (id user : string) (on_disk : bool)
    (w : World) (p : string) (w' : World) :
  get_result id user on_disk w = (Ok p, w')
  <-> w' = w
      /\ exists j, store w !! id = Some j /\ owner_id j = user
                   /\ status j = Completed /\ output_path j = Some p /\ p <> ""
                   /\ on_disk = true.
Proof.
  unfold get_result, bind, load_job, assert_owner. split.
  - destruct (store w !! id) as [j|] eqn:Hl; [|done].
    destruct (String.eqb_spec (owner_id j) user) as [Hown|]; [|done]. cbn.
    destruct (status_eqb (status j) Completed) eqn:Hst; [|done].
    apply status_eqb_eq in Hst.
    destruct (output_path j) as [[|a o]|] eqn:Ho; cbn; try done.
    destruct on_disk; cbn; [|done].
    intros [= <- <-]. split; [done|]. exists j. by rewrite Ho.
  - intros (-> & j & Hl & Hown & Hst & Ho & Hp & ->). rewrite Hl.
    destruct (String.eqb_spec (owner_id j) user); [|done]. cbn.
    rewrite Hst, Ho. cbn. by destruct p.
Qed.

(** ** A webhook that cannot be reached *)

(** X12.  [send_webhook] never raises.  When the post fails, the record is
    saved with [webhook_last_error = failed] and nothing else about the job
    changes: its status, progress and the lanes stay.  When the post goes
    through, or there is nothing to post, the store is not touched. *)
Theorem a_failed_post_is_only_noted (d : bool) (j : Job) (e : string) (w : World) :
  exists j' w',
    send_webhook d j e w = (Ok j', w')
    /\ core j' = core j
    /\ lanes_eq w w'
    /\ (if negb d && negb (match posts_for j e with [] => true | _ => false end)
        then webhook_last_error j' = Some "failed"
             /\ store w' = <[job_id j := j']> (store w)
        else j' = j /\ store w' = store w).
Proof.
  unfold send_webhook, posts_for.
  erewrite bind_ok by reflexivity.
  destruct (webhook_url j) as [[|a u]|]; cbn [negb andb].
  1, 3: (eexists _, _; split; [reflexivity|]; rewrite andb_false_r; done).
  destruct (str_mem e (subscribed_events j)); cbn [negb andb].
  2: (eexists _, _; split; [reflexivity|]; rewrite andb_false_r; done).
  erewrite bind_ok by reflexivity.
  destruct d; cbn [negb andb].
  - eexists _, _. split; [reflexivity|]. done.
  - rewrite save_job_eq. eexists _, _. split; [reflexivity|]. done.
Qed.

(** ** Restarts *)

(** X13.  [start_workers] begins with two empty queues and does not read
    the store: a record that was [queued] before a restart is still
    [queued] after it, but its id is in no queue, so no pass of a worker
    will pick it up until it is submitted again. *)
Theorem queued_jobs_do_not_survive_a_restart (cfg : Config) (w : World) (id : string)
    (j : Job) :
  store w !! id = Some j -> status j = Queued ->
  exists w',
    start_workers w = (Ok tt, w')
    /\ store w' !! id = Some j
    /\ (forall kind, queue (lane kind w') = [] /\ running (lane kind w') = false)
    /\ (forall kind envs, worker cfg kind envs w' = w').
Proof.
  intros Hl Hst. eexists. split; [reflexivity|]. split; [done|]. split.
  - by intros [].
  - intros kind envs. destruct envs as [|env envs]; [done|]. by destruct kind.
Qed.

(** ** What the engine prints *)

Lemma on_output_line_eq id raw_line w :
  on_output_line id raw_line w
  = match parse_progress (strip raw_line) with
    | Some (stage, percent) =>
        (update_job id (fun j => set_progress percent (set_stage (Some stage) j)) ;;;
         ret tt) w
    | None => (Ok tt, w)
    end.
Proof.
  unfold on_output_line. destruct (strip raw_line) as [|a s] eqn:E.
  - assert (parse_progress "" = None) as -> by (by vm_compute). done.
  - by destruct (parse_progress _) as [[? ?]|].
Qed.

Lemma last_progress_from output : forall acc,
  fold_left (fun acc raw_line =>
               match parse_progress (strip raw_line) with
               | Some r => Some r
               | None => acc
               end) output acc
  = match last_progress output with
    | Some r => Some r
    | None => acc
    end.
Proof.
  unfold last_progress.
  induction output as [|l output IH]; intros acc; cbn [fold_left]; [done|].
  rewrite IH. rewrite (IH (match parse_progress (strip l) with
                           | Some r => Some r | None => None end)).
  destruct (fold_left _ output None); [done|].
  by destruct (parse_progress (strip l)).
Qed.

Lemma last_progress_cons raw_line output :
  last_progress (raw_line :: output)
  = match last_progress output with
    | Some r => Some r
    | None => parse_progress (strip raw_line)
    end.
Proof.
  unfold last_progress at 1. cbn [fold_left]. rewrite last_progress_from.
  destruct (last_progress output); [done|]. by destruct (parse_progress _).
Qed.

Lemma output_loop_last id output : forall w j,
  store w !! id = Some j -> job_id j = id ->
  exists w',
    for_each output (on_output_line id) w = (Ok tt, w')
    /\ lanes_eq w w' /\ cli w' = cli w /\ notified w' = notified w /\ pushes w' = pushes w
    /\ match last_progress output with
       | Some (stage, percent) =>
           exists j', store w' = <[id := j']> (store w)
                      /\ core j' = core (set_progress percent (set_stage (Some stage) j))
       | None => store w' = store w /\ clock w' = clock w
       end.
Proof.
  induction output as [|line output IH]; intros w j Hl Hid; cbn [for_each].
  - exists w. done.
  - rewrite last_progress_cons. unfold bind at 1. rewrite on_output_line_eq.
    destruct (parse_progress (strip line)) as [[stg pct]|] eqn:Hp.
    + unfold update_job.
      erewrite bind_ok; cycle 1.
      { erewrite bind_ok by (by apply load_job_ok).
        erewrite bind_ok by apply save_job_eq. reflexivity. }
      cbn [ret].
      set (j1 := set_updated_at _ _). set (w1 := with_store _ _).
      destruct (IH w1 j1) as (w' & Hrun & Hla & Hc & Hn & Hps & Hlast).
      { subst w1 j1. cbn. by rewrite Hid, lookup_insert_eq. }
      { done. }
      exists w'. split; [done|]. split; [by destruct Hla|].
      split; [done|]. split; [done|]. split; [done|].
      assert (store w1 = <[id := j1]> (store w)) as Hs1
        by (subst w1 j1; cbn; by rewrite Hid).
      destruct (last_progress output) as [[stg' pct']|].
      * destruct Hlast as (j' & Hs' & Hc'). exists j'.
        split; [by rewrite Hs', Hs1, insert_insert_eq|]. by rewrite Hc'.
      * destruct Hlast as [Hs' _]. exists j1. split; [congruence|done].
    + destruct (IH w j Hl Hid) as (w' & Hrun & Hrest). exists w'. split; [done|].
      destruct (last_progress output) as [[stg' pct']|]; done.
Qed.


(** ** The worker, pass after pass *)

Lemma final_status cfg env id j :
  status (final cfg env id j) = Completed \/ status (final cfg env id j) = Failed.
Proof. unfold final. destruct (engine_exit env =? 0); cbn; auto. Qed.

Lemma worker_drains cfg kind : forall envs pre w,
  Inv pre w -> running (lane kind w) = false ->
  (exists pre', Inv pre' (worker cfg kind envs w))
  /\ queue (lane kind (worker cfg kind envs w))
     = drop (length envs) (queue (lane kind w))
  /\ running (lane kind (worker cfg kind envs w)) = false
  /\ (forall k', k' <> kind -> lane k' (worker cfg kind envs w) = lane k' w)
  /\ notified (worker cfg kind envs w)
     = notified w ++ passes_log (queue (lane kind w)) envs
  /\ (forall id, ~ In id (take (length envs) (queue (lane kind w))) ->
      store (worker cfg kind envs w) !! id = store w !! id)
  /\ (forall id, In id (take (length envs) (queue (lane kind w))) ->
      exists jf, store (worker cfg kind envs w) !! id = Some jf
                 /\ (status jf = Completed \/ status jf = Failed)).
Proof.
  induction envs as [|env envs IH]; intros pre w HI Hidle.
  - assert (passes_log (queue (lane kind w)) [] = []) as Hnil
      by (by destruct (queue (lane kind w))).
    cbn. rewrite Hnil, drop_0, app_nil_r. repeat split; eauto. intros id [].
  - cbn [worker length].
    pose proof (inv_alive _ _ _ _ HI kind) as Ha. rewrite <- lane_pick in Ha.
    destruct (queue (lane kind w)) as [|id rest] eqn:Hq.
    { unfold worker_iteration. rewrite Ha, Hq. cbn. rewrite app_nil_r.
      repeat split; eauto. intros id []. }
    destruct (inv_queue _ _ _ _ HI kind id) as (j & Hl & Hk).
    { rewrite <- lane_pick, Hq. by left. }
    pose proof (inv_key _ _ _ _ HI id j Hl) as Hid.
    destruct (worker_iteration_spec cfg kind env w id rest j Ha Hq Hl Hid)
      as (jf & w1 & ps & Hrun & Hcore & Hs1 & Hl1 & Hlo1 & _ & Hn1 & _).
    set (steps := ABegin kind (post_running env)
                  :: map (AOutput kind true) (engine_output env)
                  ++ [AExit kind (engine_exit env) (post_done env)]).
    assert (w1 = fst (run_actions cfg steps w)) as Hw1.
    { pose proof (worker_pass_is_begin_outputs_exit cfg kind env true w id rest j
                    Ha Hidle Hq Hl Hid) as Hsteps.
      fold steps in Hsteps. congruence. }
    rewrite Hrun.
    assert (Inv (pre ++ steps) w1) as HI1.
    { rewrite Hw1. apply (proj1 (run_actions_step cfg steps pre w HI)). }
    clearbody steps.
    assert (running (lane kind w1) = false) as Hidle1 by (by rewrite Hl1).
    assert (queue (lane kind w1) = rest) as Hq1 by (by rewrite Hl1).
    destruct (IH _ w1 HI1 Hidle1) as (HI2 & Hq2 & Hr2 & Hlo2 & Hn2 & Hkeep2 & Hdone2).
    rewrite Hq1 in Hq2, Hn2, Hkeep2, Hdone2.
    split; [done|]. split; [done|]. split; [done|].
    split; [intros k' Hne; rewrite Hlo2 by done; by apply Hlo1|].
    split; [rewrite Hn2, Hn1, <- app_assoc; done|].
    split.
    + intros id' Hnot. cbn in Hnot.
      rewrite Hkeep2 by tauto. rewrite Hs1. apply lookup_insert_ne. tauto.
    + intros id' Hin. cbn in Hin.
      destruct (in_dec string_dec id' (take (length envs) rest)) as [Hlater|Hnot].
      { by apply Hdone2. }
      destruct Hin as [<-|Hin]; [|done].
      exists jf. split; [by rewrite Hkeep2, Hs1, lookup_insert_eq|].
      pose proof (core_fields _ _ Hcore) as (_&_&_&_&Hst&_). rewrite Hst.
      apply final_status.
Qed.


(** ** What the worker writes when the engine has exited *)

Lemma step_exit_core cfg kind code d w id fj :
  frame (lane kind w) = Some (id, fj) -> job_id fj = id ->
  exists jf w',
    step_exit cfg kind code d w = (Ok tt, w')
    /\ core jf = core (exit_record cfg code fj)
    /\ store w' = <[id := jf]> (store w)
    /\ running (lane kind w') = false.
Proof.
  intros Hf Hid. unfold step_exit.
  erewrite bind_ok by (unfold get_frame_id; by rewrite Hf).
  erewrite bind_ok by (unfold get_frame; by rewrite Hf).
  unfold try_finally, try_except, on_exit, exit_record. rewrite Hid.
  destruct (code =? 0) eqn:Hcode.
  - erewrite bind_ok by reflexivity.
    change (mark_completed kind d)
      with (transition kind (set_status Completed) (set_stage (Some "completed"))
              (set_progress 100) d "completed").
    destruct (transition_spec kind (set_status Completed) (set_stage (Some "completed"))
                (set_progress 100) d "completed" w id fj Hf)
      as (j3 & w3 & Htr3 & Hcore3 & Hs3 & Hl3 & _).
    rewrite Htr3. exists j3, (snd (release kind w3)). split; [reflexivity|].
    split; [done|]. cbn in Hs3. rewrite Hid in Hs3.
    unfold release, set_running_flag, modify. cbn.
    by rewrite with_lane_store, lane_with_lane.
  - erewrite bind_raise by reflexivity.
    change (mark_failed kind d ?e)
      with (transition kind (set_status Failed) (set_stage (Some "failed"))
              (set_error (Some (str_exc e))) d "failed").
    destruct (transition_spec kind (set_status Failed) (set_stage (Some "failed"))
                (set_error (Some (str_exc (CalledProcessError code
                                    (job_run_args cfg id (target_kind fj))))))
                d "failed" w id fj Hf)
      as (j3 & w3 & Htr3 & Hcore3 & Hs3 & Hl3 & _).
    rewrite Htr3. exists j3, (snd (release kind w3)). split; [reflexivity|].
    split; [done|]. cbn in Hs3. rewrite Hid in Hs3.
    unfold release, set_running_flag, modify. cbn.
    by rewrite with_lane_store, lane_with_lane.
Qed.


(** ** File names and extensions *)

Lemma chars_app a b : chars (a +:+ b) = chars a ++ chars b.
Proof.
  unfold chars. induction a as [|c a IH]; [done|].
  change (c :: list_ascii_of_string (a +:+ b) = c :: list_ascii_of_string a ++ list_ascii_of_string b).
  by rewrite IH.
Qed.

Lemma last_component_plain l : forall acc,
  forallb (fun c => negb (Ascii.eqb c "/")) l = true ->
  last_component acc l = acc ++ l.
Proof.
  induction l as [|c l IH]; intros acc H; cbn in *; [by rewrite app_nil_r|].
  apply andb_prop in H as [Hc Hl]. apply negb_true_iff in Hc. rewrite Hc.
  rewrite IH by done. by rewrite <- app_assoc.
Qed.

Lemma last_component_slash l1 l2 : forall acc,
  last_component acc (l1 ++ "/"%char :: l2) = last_component [] l2.
Proof.
  induction l1 as [|c l1 IH]; intros acc; cbn; [done|].
  destruct (Ascii.eqb c "/"); apply IH.
Qed.

Lemma rfind_dot_none l : forall i found,
  forallb (fun c => negb (Ascii.eqb c ".")) l = true ->
  rfind_dot i found l = found.
Proof.
  induction l as [|c l IH]; intros i found H; cbn in *; [done|].
  apply andb_prop in H as [Hc Hl]. apply negb_true_iff in Hc. rewrite Hc.
  by apply IH.
Qed.

Lemma rfind_dot_last h ext : forall i found,
  forallb (fun c => negb (Ascii.eqb c ".")) ext = true ->
  rfind_dot i found (h ++ "."%char :: ext) = Some (i + length h)%nat.
Proof.
  induction h as [|c h IH]; intros i found H; cbn [app rfind_dot length].
  - rewrite rfind_dot_none by done. cbn. f_equal. lia.
  - rewrite IH by done. f_equal. lia.
Qed.

Lemma path_suffix_of_upload dir name ext :
  plain_name name = true ->
  ext <> [] ->
  forallb (fun c => negb (Ascii.eqb c ".") && negb (Ascii.eqb c "/")) ext = true ->
  path_suffix (dir +:+ "/" +:+ name +:+ text ("."%char :: ext)) = text ("."%char :: ext).
Proof.
  intros Hname Hext Hplain. unfold plain_name in Hname.
  apply andb_prop in Hname as [Hne Hns]. apply negb_true_iff in Hne.
  assert (forallb (fun c => negb (Ascii.eqb c ".")) ext = true
          /\ forallb (fun c => negb (Ascii.eqb c "/")) ext = true) as [Hnd Hnsl].
  { clear Hext. induction ext as [|c ext IH]; cbn in *; [done|].
    apply andb_prop in Hplain as [Hc Hrest]. apply andb_prop in Hc as [-> ->].
    destruct (IH Hrest) as [-> ->]. done. }
  unfold path_suffix. rewrite !chars_app, chars_text.
  change (chars "/") with ["/"%char]. cbn [app].
  rewrite last_component_slash.
  rewrite last_component_plain; cycle 1.
  { rewrite forallb_app, Hns. cbn. exact Hnsl. }
  cbn [app]. rewrite rfind_dot_last by done. cbn [Nat.add].
  assert (0 < length (chars name))%nat as Hlen.
  { destruct name; [done|]. cbn. lia. }
  destruct ext as [|e ext]; [done|].
  rewrite length_app. cbn [length].
  assert (Nat.ltb 0 (length (chars name)) = true) as -> by (apply Nat.ltb_lt; lia).
  assert (Nat.ltb (length (chars name)) (length (chars name) + S (S (length ext)) - 1) = true)
    as -> by (apply Nat.ltb_lt; lia).
  cbn [andb]. f_equal. by rewrite drop_app_length.
Qed.

Lemma allowed_ext_shape s :
  In s (ALLOWED_IMAGE_EXT ++ ALLOWED_VIDEO_EXT) ->
  exists ext, s = text ("."%char :: ext) /\ ext <> []
              /\ forallb (fun c => negb (Ascii.eqb c ".") && negb (Ascii.eqb c "/")) ext
                 = true.
Proof.
  cbn. intros [<-|[<-|[<-|[<-|[<-|[]]]]]].
  - by exists (chars "jpg").
  - by exists (chars "jpeg").
  - by exists (chars "png").
  - by exists (chars "mp4").
  - by exists (chars "mov").
Qed.

(** X17.  The result file gets the extension of the target.  A target
    accepted by [upload_target] is stored as [TARGET_DIR/<name><ext>] with
    [ext] one of the five allowed extensions, and for such a path
    [build_output_path] answers [OUTPUT_DIR/<hex><ext>]: the fallback
    [.mp4] is not used for it. *)
Theorem the_output_keeps_the_extension_of_the_target (cfg : Config)
    (name hex ext : string) :
  plain_name name = true ->
  In ext (ALLOWED_IMAGE_EXT ++ ALLOWED_VIDEO_EXT) ->
  path_suffix (TARGET_DIR cfg +:+ "/" +:+ name +:+ ext) = ext
  /\ build_output_path cfg hex (TARGET_DIR cfg +:+ "/" +:+ name +:+ ext)
     = OUTPUT_DIR cfg +:+ "/" +:+ hex +:+ ext.
Proof.
  intros Hname Hin.
  destruct (allowed_ext_shape ext Hin) as (e & -> & Hne & Hplain).
  pose proof (path_suffix_of_upload (TARGET_DIR cfg) name e Hname Hne Hplain) as Hsuf.
  split; [done|]. unfold build_output_path. rewrite Hsuf. done.
Qed.

(** ** Requests that follow one another *)

Lemma truthy_path a b : truthy (Some (a +:+ "/" +:+ b)) = true.
Proof. by destruct a. Qed.

Lemma upload_source_refused cfg id file user hex w j :
  store w !! id = Some j -> owner_id j = user ->
  str_mem (upload_suffix file) ALLOWED_IMAGE_EXT = false ->
  upload_source cfg id file user hex w
  = (Raise (HTTPException 400 "Source must be jpg/jpeg/png"), w).
Proof.
  intros Hl Hown Hext. unfold upload_source.
  erewrite bind_ok by (by apply load_job_ok).
  erewrite bind_ok by (rewrite <- Hown; apply assert_owner_same).
  by rewrite Hext.
Qed.

Lemma upload_source_ok cfg id file user hex w j :
  store w !! id = Some j -> job_id j = id -> owner_id j = user ->
  str_mem (upload_suffix file) ALLOWED_IMAGE_EXT = true ->
  exists j' w',
    upload_source cfg id file user hex w = (Ok (job_to_response j'), w')
    /\ j' = set_updated_at (clock w)
              (set_status WaitingTarget
                 (set_source_path
                    (Some (SOURCE_DIR cfg +:+ "/" +:+ hex +:+ upload_suffix file)) j))
    /\ store w' = <[id := j']> (store w)
    /\ lanes_eq w w' /\ cli w' = cli w /\ notified w' = notified w.
Proof.
  intros Hl Hid Hown Hext. unfold upload_source.
  erewrite bind_ok by (by apply load_job_ok).
  erewrite bind_ok by (rewrite <- Hown; apply assert_owner_same).
  rewrite Hext. cbn [negb].
  erewrite bind_ok
    by (unfold save_upload_file; by rewrite save_upload_chunks_unlimited by auto).
  erewrite bind_ok by apply save_job_eq.
  eexists _, _. split; [reflexivity|]. split; [reflexivity|].
  cbn. by rewrite Hid.
Qed.

Lemma upload_target_ok cfg id file user hex w j :
  store w !! id = Some j -> job_id j = id -> owner_id j = user ->
  detect_kind (upload_suffix file) = Some (target_kind j) ->
  Forall (fun c => 0 <= c) (chunks file) ->
  kind_eqb (target_kind j) video
  && ((MAX_VIDEO_SIZE_BYTES <? received (chunks file)) || too_long file) = false ->
  exists j' w',
    upload_target cfg id file user hex w = (Ok (job_to_response j'), w')
    /\ j' = set_updated_at (clock w)
              ((if truthy (source_path j) then set_status Ready else fun x => x)
                 (set_target_path
                    (Some (TARGET_DIR cfg +:+ "/" +:+ hex +:+ upload_suffix file)) j))
    /\ store w' = <[id := j']> (store w)
    /\ lanes_eq w w' /\ cli w' = cli w /\ notified w' = notified w.
Proof.
  intros Hl Hid Hown Hd Hcs Hfits. unfold upload_target.
  erewrite bind_ok by (by apply load_job_ok).
  erewrite bind_ok by (rewrite <- Hown; apply assert_owner_same).
  rewrite Hd.
  assert (kind_eqb (target_kind j) (target_kind j) = true) as -> by (by destruct (target_kind j)).
  cbn [negb].
  destruct (target_kind j) eqn:Hk; cbn [kind_eqb andb] in *.
  - erewrite bind_ok
      by (unfold save_upload_file; by rewrite save_upload_chunks_unlimited by auto).
    erewrite bind_ok by apply save_job_eq.
    eexists _, _. split; [reflexivity|].
    cbn. destruct (truthy (source_path j)); cbn; by rewrite Hid.
  - apply orb_false_iff in Hfits as [Hsize Hlong].
    erewrite bind_ok; cycle 1.
    { unfold save_upload_file.
      rewrite save_upload_chunks_limited by (done || lia). by rewrite Z.add_0_l, Hsize. }
    rewrite Hlong.
    erewrite bind_ok by apply save_job_eq.
    eexists _, _. split; [reflexivity|].
    cbn. destruct (truthy (source_path j)); cbn; by rewrite Hid.
Qed.

(** X18.  The status says [ready] only when the target is uploaded after
    the source.  With the source first and the target second the job is
    [ready]; with the same two uploads the other way round it stays
    [waiting_target], although the answer reports both files as uploaded. *)
Theorem the_order_of_the_uploads_decides_the_status (cfg : Config) (id : string)
    (source target : UploadFile) (user hex_s hex_t : string) (w : World) (j : Job) :
  store w !! id = Some j -> job_id j = id -> owner_id j = user ->
  str_mem (upload_suffix source) ALLOWED_IMAGE_EXT = true ->
  detect_kind (upload_suffix target) = Some (target_kind j) ->
  Forall (fun c => 0 <= c) (chunks target) ->
  kind_eqb (target_kind j) video
  && ((MAX_VIDEO_SIZE_BYTES <? received (chunks target)) || too_long target) = false ->
  (exists r1 w1 r2 w2,
     upload_source cfg id source user hex_s w = (Ok r1, w1)
     /\ upload_target cfg id target user hex_t w1 = (Ok r2, w2)
     /\ r_status r2 = Ready
     /\ source_uploaded r2 = true /\ target_uploaded r2 = true)
  /\ (exists r1 w1 r2 w2,
        upload_target cfg id target user hex_t w = (Ok r1, w1)
        /\ upload_source cfg id source user hex_s w1 = (Ok r2, w2)
        /\ r_status r2 = WaitingTarget
        /\ source_uploaded r2 = true /\ target_uploaded r2 = true).
Proof.
  intros Hl Hid Hown Hext Hd Hcs Hfits. split.
  - destruct (upload_source_ok cfg id source user hex_s w j Hl Hid Hown Hext)
      as (j1 & w1 & Hrun1 & Hj1 & Hs1 & _).
    destruct (upload_target_ok cfg id target user hex_t w1 j1)
      as (j2 & w2 & Hrun2 & Hj2 & _); try (subst j1; done).
    { by rewrite Hs1, lookup_insert_eq. }
    eexists _, _, _, _. split; [exact Hrun1|]. split; [exact Hrun2|].
    assert (truthy (source_path j1) = true) as Hsrc1 by (subst j1; apply truthy_path).
    subst j2. rewrite Hsrc1.
    split; [done|]. split; [exact Hsrc1|apply truthy_path].
  - destruct (upload_target_ok cfg id target user hex_t w j Hl Hid Hown Hd Hcs Hfits)
      as (j1 & w1 & Hrun1 & Hj1 & Hs1 & _).
    assert (job_id j1 = id /\ owner_id j1 = user
            /\ target_path j1 = Some (TARGET_DIR cfg +:+ "/" +:+ hex_t +:+ upload_suffix target))
      as (Hid1 & Hown1 & Ht1) by (subst j1; by destruct (truthy (source_path j))).
    destruct (upload_source_ok cfg id source user hex_s w1 j1)
      as (j2 & w2 & Hrun2 & Hj2 & _); try done.
    { by rewrite Hs1, lookup_insert_eq. }
    eexists _, _, _, _. split; [exact Hrun1|]. split; [exact Hrun2|].
    subst j2. split; [done|]. split; [apply truthy_path|].
    change (truthy (target_path j1) = true). rewrite Ht1. apply truthy_path.
Qed.

Lemma create_job_record_eq owner m hex w :
  exists j0 w0,
    create_job_record owner m hex w = (Ok j0, w0)
    /\ job_id j0 = "api-" +:+ String.substring 0 8 hex
    /\ owner_id j0 = owner /\ mode j0 = m
    /\ target_kind j0 = allowed_target_kind m
    /\ status j0 = WaitingSource
    /\ source_path j0 = None /\ target_path j0 = None /\ output_path j0 = None
    /\ reference_frame_number j0 = None
    /\ webhook_url j0 = None
    /\ store w0 = <[job_id j0 := j0]> (store w)
    /\ lanes_eq w w0 /\ notified w0 = notified w /\ cli w0 = cli w.
Proof.
  unfold create_job_record.
  erewrite bind_ok by reflexivity. erewrite bind_ok by reflexivity.
  rewrite save_job_eq. eexists _, _. split; [reflexivity|]. repeat split.
Qed.


(** X20.  [quick_job] is [create_job_record], [upload_source],
    [upload_target] and [submit_job] one after the other: when the two
    files pass the checks and the engine commands succeed, the answer shows
    a new job of the caller in status [queued], its id has joined the back
    of the queue of the lane of its mode, and the other lane is as it
    was. *)
Theorem an_accepted_quick_job_is_queued (cfg : Config) (requested : string)
    (source target : UploadFile) (user hex_job hex_s hex_t hex_o : string)
    (d : bool) (w : World) :
  let id := "api-" +:+ String.substring 0 8 hex_job in
  let m := if str_mem requested ALLOWED_MODES then requested else DEFAULT_MODE in
  let kind := allowed_target_kind m in
  str_mem (upload_suffix source) ALLOWED_IMAGE_EXT = true ->
  detect_kind (upload_suffix target) = Some kind ->
  Forall (fun c => 0 <= c) (chunks target) ->
  kind_eqb kind video
  && ((MAX_VIDEO_SIZE_BYTES <? received (chunks target)) || too_long target) = false ->
  exists j' w',
    quick_job cfg requested source target user hex_job hex_s hex_t hex_o (0, 0, 0) d w
    = (Ok (job_to_response j'), w')
    /\ store w' = <[id := j']> (store w)
    /\ job_id j' = id /\ owner_id j' = user /\ mode j' = m /\ target_kind j' = kind
    /\ status j' = Queued
    /\ source_path j' = Some (SOURCE_DIR cfg +:+ "/" +:+ hex_s +:+ upload_suffix source)
    /\ target_path j' = Some (TARGET_DIR cfg +:+ "/" +:+ hex_t +:+ upload_suffix target)
    /\ output_path j'
       = Some (build_output_path cfg hex_o
                 (TARGET_DIR cfg +:+ "/" +:+ hex_t +:+ upload_suffix target))
    /\ queue (lane kind w') = queue (lane kind w) ++ [id]
    /\ (forall k, k <> kind -> lane k w' = lane k w).
Proof.
  intros id m kind Hext Hd Hcs Hfits. unfold quick_job. fold m.
  destruct (create_job_record_eq user m hex_job w)
    as (j0 & w0 & Hrun0 & Hid0 & Hown0 & Hm0 & Hk0 & Hst0 & Hsp0 & Htp0 & _ & Hrf0 & _
        & Hs0 & Hla0 & _).
  fold id in Hid0. fold kind in Hk0. rewrite Hid0 in Hs0.
  assert (store w0 !! id = Some j0) as Hl0 by (by rewrite Hs0, lookup_insert_eq).
  erewrite bind_ok by exact Hrun0. rewrite Hid0.
  destruct (upload_source_ok cfg id source user hex_s w0 j0 Hl0 Hid0 Hown0 Hext)
    as (j1 & w1 & Hrun1 & Hj1 & Hs1 & Hla1 & _).
  erewrite bind_ok by exact Hrun1.
  assert (store w1 !! id = Some j1) as Hl1 by (by rewrite Hs1, lookup_insert_eq).
  destruct (upload_target_ok cfg id target user hex_t w1 j1)
    as (j2 & w2 & Hrun2 & Hj2 & Hs2 & Hla2 & _); try (subst j1; cbn; congruence).
  erewrite bind_ok by exact Hrun2.
  assert (store w2 !! id = Some j2) as Hl2 by (by rewrite Hs2, lookup_insert_eq).
  assert (source_path j2 = Some (SOURCE_DIR cfg +:+ "/" +:+ hex_s +:+ upload_suffix source)
          /\ target_path j2
             = Some (TARGET_DIR cfg +:+ "/" +:+ hex_t +:+ upload_suffix target)
          /\ job_id j2 = id /\ owner_id j2 = user /\ mode j2 = m /\ target_kind j2 = kind
          /\ reference_frame_number j2 = None)
    as (Hsp2 & Htp2 & Hid2 & Hown2 & Hm2 & Hk2 & Hrf2).
  { assert (truthy (source_path j1) = true) as Hsrc1 by (subst j1; apply truthy_path).
    subst j2. rewrite Hsrc1. subst j1. done. }
  destruct (submit_job_full cfg id None user hex_o d w2 j2)
    as (j3 & w3 & t & Hrun3 & Ht & Hc3 & Hs3 & Hq3 & Hlo3 & _); try done.
  { by rewrite Hsp2, truthy_path. }
  { by rewrite Htp2, truthy_path. }
  rewrite Hrun3. rewrite Htp2 in Ht. injection Ht as <-.
  pose proof (core_fields _ _ Hc3) as (Hi&Ho&Hmm&Hk&Hst&Hsp&Htp&Hop&_).
  cbn in Hi, Ho, Hmm, Hk, Hst, Hsp, Htp, Hop.
  exists j3, w3. split; [done|].
  split; [by rewrite Hs3, Hs2, Hs1, Hs0, !insert_insert_eq|].
  split; [congruence|]. split; [congruence|]. split; [congruence|].
  split; [congruence|]. split; [done|]. split; [congruence|]. split; [congruence|].
  split; [done|].
  rewrite Hk2 in Hq3, Hlo3.
  assert (forall k, lane k w2 = lane k w) as Hlanes.
  { intros k. rewrite (lanes_eq_lane _ _ _ Hla2), (lanes_eq_lane _ _ _ Hla1).
    by apply lanes_eq_lane. }
  split; [by rewrite Hq3, Hlanes|].
  intros k Hne. by rewrite Hlo3, Hlanes.
Qed.

(** ** The event stream *)

Lemma stream_sends_changes id : forall polls last_payload out fin,
  stream id polls last_payload = (out, fin) ->
  (forall a, head out = Some a -> Some a <> last_payload)
  /\ (forall i a b, out !! i = Some a -> out !! S i = Some b ->
      a <> b /\ is_final (r_status a) = false)
  /\ (fin = Finished <-> exists a, last out = Some a /\ is_final (r_status a) = true)
  /\ (forall a, In a out ->
      exists p j, In p polls /\ is_disconnected p = false
                  /\ store (at_poll p) !! id = Some j /\ a = job_to_response j).
Proof.
  induction polls as [|p polls IH]; intros last_payload out fin H; cbn [stream] in H.
  - injection H as <- <-. repeat split; try done. by intros (a & Ha & _).
  - destruct (is_disconnected p) eqn:Hgone.
    { injection H as <- <-. repeat split; try done. by intros (a & Ha & _). }
    unfold load_job in H. destruct (store (at_poll p) !! id) as [j|] eqn:Hl.
    2: { injection H as <- <-. repeat split; try done. by intros (a & Ha & _). }
    destruct (bool_decide_reflect (Some (job_to_response j) = last_payload)) as [Hsame|Hnew].
    { destruct (IH _ _ _ H) as (H1 & H2 & H3 & H4).
      split; [done|]. split; [done|]. split; [done|].
      intros a Ha. destruct (H4 a Ha) as (q & jq & Hq & Hrest).
      exists q, jq. split; [by right|done]. }
    destruct (is_final (status j)) eqn:Hfinal.
    { injection H as <- <-. split; [|split; [|split]].
      - intros a [= <-]. done.
      - intros i a b Ha Hb. by destruct i.
      - split; [|done]. intros _. by exists (job_to_response j).
      - intros a [<-|[]]. exists p, j. split; [by left|done]. }
    destruct (stream id polls (Some (job_to_response j))) as [rest fin'] eqn:Hrest.
    injection H as <- <-.
    destruct (IH _ _ _ Hrest) as (H1 & H2 & H3 & H4).
    split; [|split; [|split]].
    + intros a [= <-]. done.
    + intros i a b Ha Hb. destruct i as [|i].
      * cbn in Ha, Hb. injection Ha as <-. split; [|done].
        intros Heq. apply (H1 b); [by destruct rest; simplify_eq/=|by rewrite Heq].
      * cbn in Ha, Hb. by apply H2 with (i := i).
    + rewrite H3. destruct rest as [|r rest]; [|done].
      cbn. split; [by intros (a & Ha & _)|].
      intros (a & [= <-] & Ha). cbn in Ha. congruence.
    + intros a [<-|Ha].
      * exists p, j. split; [by left|done].
      * destruct (H4 a Ha) as (q & jq & Hq & Hrest'). exists q, jq. split; [by right|done].
Qed.

(** X21.  The event stream sends a snapshot of the record only when it
    differs from the one it sent last, so no two snapshots in a row are
    equal; every snapshot is the record as some poll found it; and a
    snapshot with status [completed], [failed] or [cancelled] is the last
    one: the stream ends with it, and it ends that way only. *)
Theorem the_event_stream_sends_changes_and_stops_at_the_end (id : string)
    (polls : list Poll) (out : list JobResponse) (fin : StreamEnd) :
  stream id polls None = (out, fin) ->
  (forall i a b, out !! i = Some a -> out !! S i = Some b ->
   a <> b /\ is_final (r_status a) = false)
  /\ (fin = Finished <-> exists a, last out = Some a /\ is_final (r_status a) = true)
  /\ (forall a, In a out ->
      exists p j, In p polls /\ is_disconnected p = false
                  /\ store (at_poll p) !! id = Some j /\ a = job_to_response j).
Proof. intros H. by destruct (stream_sends_changes id polls None out fin H) as (_ & ?). Qed.

(** ** The [.env] file *)

Lemma lstrip_chars_space l : lstrip l = lstrip_chars is_space l.
Proof. induction l as [|c l IH]; cbn; [done|]. by rewrite IH. Qed.

Lemma lstrip_chars_all p pre l :
  forallb p pre = true -> lstrip_chars p (pre ++ l) = lstrip_chars p l.
Proof.
  induction pre as [|c pre IH]; cbn; [done|].
  intros H. apply andb_prop in H as [-> H]. by apply IH.
Qed.

Lemma lstrip_chars_head p a l : p a = false -> lstrip_chars p (a :: l) = a :: l.
Proof. intros H. cbn. by rewrite H. Qed.

Lemma forallb_reversed (p : ascii -> bool) l :
  forallb p l = true -> forallb p (rev l) = true.
Proof.
  rewrite !forallb_forall. intros H x Hx. apply H. by apply in_rev.
Qed.

Lemma rev_last (a : ascii) l : rev (a :: l) = List.last (a :: l) a :: rev (removelast (a :: l)).
Proof.
  rewrite (app_removelast_last a (l := a :: l)) at 1 by done.
  by rewrite rev_app_distr.
Qed.

Lemma strip_wrap p pre v post :
  forallb p pre = true -> forallb p post = true -> edges_free p v = true ->
  rev (lstrip_chars p (rev (lstrip_chars p (pre ++ v ++ post)))) = v.
Proof.
  intros Hpre Hpost Hv. rewrite lstrip_chars_all by done.
  destruct v as [|a v].
  - cbn [app]. rewrite <- (app_nil_r post), lstrip_chars_all by done. done.
  - unfold edges_free in Hv. apply andb_prop in Hv as [Hhead Hlast].
    apply negb_true_iff in Hhead, Hlast.
    rewrite <- app_comm_cons, lstrip_chars_head by done.
    rewrite app_comm_cons, rev_app_distr.
    rewrite lstrip_chars_all by (by apply forallb_reversed).
    rewrite rev_last, lstrip_chars_head by done.
    rewrite <- rev_last. apply rev_involutive.
Qed.

Lemma last_default (l : list ascii) : forall d d', l <> [] -> List.last l d = List.last l d'.
Proof.
  induction l as [|a l IH]; intros d d' H; [done|].
  destruct l as [|b l]; [done|]. cbn [List.last]. by apply IH.
Qed.

Lemma last_after (l1 l2 : list ascii) : forall d,
  l2 <> [] -> List.last (l1 ++ l2) d = List.last l2 d.
Proof.
  induction l1 as [|a l1 IH]; intros d H; [done|].
  assert (forall l : list ascii, l <> [] -> List.last (a :: l) d = List.last l d) as Hcons
    by (intros [|? ?]; done).
  cbn [app]. rewrite Hcons by (by destruct l1, l2). by apply IH.
Qed.

Lemma last_in (l : list ascii) : forall d, In (List.last l d) (d :: l).
Proof.
  induction l as [|a l IH]; intros d; [by left|].
  cbn [List.last]. destruct l as [|b l]; [right; by left|].
  destruct (IH d) as [H|H]; [by left|by right; right].
Qed.

Lemma edges_free_weaken (p p' : ascii -> bool) l :
  (forall c, p c = true -> p' c = true) ->
  edges_free p' l = true -> edges_free p l = true.
Proof.
  intros Himp. destruct l as [|a l]; [done|]. unfold edges_free.
  intros H. apply andb_prop in H as [H1 H2]. apply negb_true_iff in H1, H2.
  apply andb_true_intro. split; apply negb_true_iff.
  - destruct (p a) eqn:E; [|done]. apply Himp in E. congruence.
  - destruct (p (List.last (a :: l) a)) eqn:E; [|done]. apply Himp in E. congruence.
Qed.

Lemma edges_free_all (p : ascii -> bool) l :
  forallb (fun c => negb (p c)) l = true -> edges_free p l = true.
Proof.
  intros H. destruct l as [|a l]; [done|]. unfold edges_free.
  rewrite forallb_forall in H. apply andb_true_intro. split.
  - apply H. by left.
  - apply H. destruct (last_in (a :: l) a) as [<-|Hin]; [by left|done].
Qed.

Lemma edges_free_quoted (p : ascii -> bool) c v :
  p c = false -> edges_free p (c :: v ++ [c]) = true.
Proof.
  intros H. unfold edges_free. rewrite app_comm_cons, last_last. by rewrite H.
Qed.

Lemma edges_free_line K V :
  K <> [] -> forallb (fun c => negb (is_space c)) K = true ->
  edges_free is_space V = true ->
  edges_free is_space (K ++ "="%char :: V) = true.
Proof.
  intros HK Hall HV. destruct K as [|a K]; [done|].
  unfold edges_free. rewrite <- app_comm_cons.
  cbn in Hall. apply andb_prop in Hall as [Ha _]. rewrite Ha. cbn [andb].
  rewrite app_comm_cons, last_after by done.
  destruct V as [|b V]; [done|].
  assert (List.last ("="%char :: b :: V) a = List.last (b :: V) b) as ->.
  { change (List.last (b :: V) a = List.last (b :: V) b). by apply last_default. }
  unfold edges_free in HV. by apply andb_prop in HV as [_ ->].
Qed.

Lemma partition_eq_first K V :
  forallb (fun c => negb (Ascii.eqb c "=")) K = true ->
  partition_eq (K ++ "="%char :: V) = Some (K, V).
Proof.
  induction K as [|c K IH]; intros H; cbn in *; [done|].
  apply andb_prop in H as [Hc H]. apply negb_true_iff in Hc. rewrite Hc.
  by rewrite IH.
Qed.

Lemma strip_id s : edges_free is_space (chars s) = true -> strip s = s.
Proof.
  intros H. unfold strip. rewrite !lstrip_chars_space.
  pose proof (strip_wrap is_space [] (chars s) [] eq_refl eq_refl H) as E.
  cbn [app] in E. rewrite app_nil_r in E. rewrite E. apply text_chars.
Qed.

Lemma strip_char_wrap c pre v post :
  forallb (Ascii.eqb c) pre = true -> forallb (Ascii.eqb c) post = true ->
  edges_free (Ascii.eqb c) v = true ->
  strip_char c (text (pre ++ v ++ post)) = text v.
Proof.
  intros Hpre Hpost Hv. unfold strip_char. rewrite chars_text.
  by rewrite strip_wrap.
Qed.

Lemma strip_char_id c v :
  edges_free (Ascii.eqb c) v = true -> strip_char c (text v) = text v.
Proof.
  intros Hv. pose proof (strip_char_wrap c [] v [] eq_refl eq_refl Hv) as E.
  cbn [app] in E. by rewrite app_nil_r in E.
Qed.

Lemma prefix_one a c s :
  String.prefix (String a "") (String c s) = if ascii_dec a c then true else false.
Proof. cbn [String.prefix]. destruct (ascii_dec a c); [by destruct s|done]. Qed.

Lemma env_line_sets k v q environ :
  plain_key k = true -> plain_value v = true ->
  In q [""; String double_quote ""; String single_quote ""] ->
  env_line (k +:+ "=" +:+ q +:+ v +:+ q) environ = <[k := v]> environ.
Proof.
  intros Hk Hv Hq. unfold plain_key in Hk. unfold plain_value in Hv.
  apply andb_prop in Hk as [Hk Hchars]. apply andb_prop in Hk as [Hne Hhash].
  apply negb_true_iff in Hne, Hhash.
  assert (forallb (fun c => negb (is_space c)) (chars k) = true
          /\ forallb (fun c => negb (Ascii.eqb c "=")) (chars k) = true) as [Hsp Heq].
  { clear -Hchars. induction (chars k) as [|c l IH]; cbn in *; [done|].
    apply andb_prop in Hchars as [Hc Hl]. apply andb_prop in Hc as [-> ->].
    destruct (IH Hl) as [-> ->]. done. }
  assert (edges_free is_space (chars v) = true
          /\ edges_free (Ascii.eqb double_quote) (chars v) = true
          /\ edges_free (Ascii.eqb single_quote) (chars v) = true) as (Hvs & Hvd & Hvq).
  { repeat split; (eapply edges_free_weaken; [|exact Hv]); cbn; intros c ->;
      by rewrite ?orb_true_r. }
  set (V := chars q ++ chars v ++ chars q).
  assert (chars (k +:+ "=" +:+ q +:+ v +:+ q) = chars k ++ "="%char :: V) as Hline.
  { by rewrite !chars_app. }
  assert (edges_free is_space V = true
          /\ strip_char single_quote (strip_char double_quote (text V)) = v)
    as [HVs Hvalue].
  { subst V. destruct Hq as [<-|[<-|[<-|[]]]].
    - change (chars "") with (@nil ascii). cbn [app]. rewrite app_nil_r.
      split; [done|].
      rewrite strip_char_id by done. rewrite strip_char_id by done. apply text_chars.
    - change (chars (String double_quote "")) with [double_quote].
      split; [by apply (edges_free_quoted is_space double_quote)|].
      rewrite strip_char_wrap by done.
      rewrite strip_char_id by done. apply text_chars.
    - change (chars (String single_quote "")) with [single_quote].
      split; [by apply (edges_free_quoted is_space single_quote)|].
      rewrite strip_char_id
        by (by apply (edges_free_quoted (Ascii.eqb double_quote) single_quote)).
      rewrite strip_char_wrap by done.
      apply text_chars. }
  clearbody V.
  assert (strip (k +:+ "=" +:+ q +:+ v +:+ q) = k +:+ "=" +:+ q +:+ v +:+ q) as Hstrip.
  { apply strip_id. rewrite Hline. apply edges_free_line; try done.
    destruct k; [done|]. done. }
  unfold env_line. rewrite Hstrip.
  assert (String.eqb (k +:+ "=" +:+ q +:+ v +:+ q) "" = false) as ->
    by (destruct k; [done|]; done).
  assert (startswith (k +:+ "=" +:+ q +:+ v +:+ q) "#" = false) as ->.
  { destruct k as [|c k]; [done|]. unfold startswith in *.
    change (String.prefix "#" (String c (k +:+ "=" +:+ q +:+ v +:+ q)) = false).
    rewrite prefix_one in *. exact Hhash. }
  cbn [orb]. rewrite Hline, partition_eq_first by done.
  rewrite text_chars. rewrite strip_id by (by apply edges_free_all).
  rewrite Hne. rewrite strip_id by (by rewrite chars_text). by rewrite Hvalue.
Qed.


(** ** Who is asking *)

(** X23.  [verify_token] answers with a user id exactly when the header
    begins with [Bearer ], a secret is configured, the rest of the header
    (stripped) decodes under that secret, and the payload names a subject:
    its [sub] claim if that is truthy, else its [user_id] claim.  The id it
    answers with is never empty. *)
Theorem verify_token_accepts_only_a_decoded_subject (auth : AuthConfig)
    (decode : string -> string -> option Payload) (authorization : option string)
    (u : string) :
  verify_token auth decode authorization = Ok u
  <-> exists a secret payload,
        authorization = Some a /\ startswith a "Bearer " = true
        /\ JWT_SECRET auth = Some secret /\ secret <> ""
        /\ decode (strip (removeprefix a "Bearer ")) secret = Some payload
        /\ u = claim_or (payload "sub") (claim_or (payload "user_id") "")
        /\ u <> "".
Proof.
  unfold verify_token. split.
  - destruct authorization as [[|c a]|]; cbn [truthy negb orb default from_option id]; try done.
    destruct (startswith (String c a) "Bearer ") eqn:Hb; cbn [negb]; [|done].
    destruct (JWT_SECRET auth) as [[|c' secret]|] eqn:Hs; cbn [truthy negb default from_option id];
      try done.
    destruct (decode _ _) as [payload|] eqn:Hd; [|done].
    destruct (String.eqb_spec (claim_or (payload "sub") (claim_or (payload "user_id") "")) "")
      as [|Hne]; [done|].
    intros [= <-]. exists (String c a), (String c' secret), payload. done.
  - intros (a & secret & payload & -> & Hb & Hs & Hne & Hd & -> & Hu).
    destruct a as [|c a]; [done|]. cbn [truthy negb orb default from_option id]. rewrite Hb, Hs.
    destruct secret as [|c' secret]; [done|]. cbn [truthy negb default from_option id]. rewrite Hd.
    by destruct (String.eqb_spec (claim_or (payload "sub") (claim_or (payload "user_id") "")) "").
Qed.

(** X24.  What the middleware and [get_current_user] amount to for a
    handler on any path but [/health]: when JWT is required, or a non-empty
    [Authorization] header is sent, the handler runs for the user
    [verify_token] finds, and an error of [verify_token] is the answer with
    the handler not run and nothing changed; only when JWT is not required
    and no header is sent does the handler run, for the user [anonymous]. *)
Theorem a_handler_runs_for_the_verified_user_only {A : Type} (auth : AuthConfig)
    (decode : string -> string -> option Payload) (path : string)
    (authorization : option string) (handler : string -> M A) (w : World) :
  path <> "/health" ->
  serve auth decode path authorization handler w
  = if JWT_REQUIRED auth || truthy authorization
    then match verify_token auth decode authorization with
         | Ok user_id => handler user_id w
         | Raise exc => (Raise exc, w)
         end
    else handler "anonymous" w.
Proof.
  intros Hpath. unfold serve, require_jwt_for_post, with_current_user, get_current_user.
  destruct (String.eqb_spec path "/health") as [|_]; [done|]. cbn [negb].
  rewrite andb_true_r.
  destruct (JWT_REQUIRED auth); cbn [negb andb orb].
  - by destruct (verify_token auth decode authorization).
  - destruct (truthy authorization); cbn [negb]; [|done].
    by destruct (verify_token auth decode authorization).
Qed.

(** ** What never changes about a job *)

Section Identities.
Variable im : gmap string Identity.
Hypothesis Hkey : keyed im.

Lemma quiet_ret {A} (a : A) (R : A -> Prop) : R a -> quiet im (ret a) R.
Proof. intros H w Hw. done. Qed.

Lemma quiet_raise {A} e (R : A -> Prop) : quiet im (@raise A e) R.
Proof. intros w Hw. done. Qed.

Lemma quiet_bind {A B} (m : M A) (f : A -> M B) (R : A -> Prop) (R' : B -> Prop) :
  quiet im m R -> (forall a, R a -> quiet im (f a) R') -> quiet im (bind m f) R'.
Proof.
  intros Hm Hf w Hw. unfold bind. destruct (Hm w Hw) as (H1 & H2 & H3).
  destruct (m w) as [[a|e] w1]; cbn [fst snd] in *; [|done].
  destruct (Hf a H3 w1 H1) as (H4 & H5 & H6).
  split; [done|]. split; [|done]. intros k. by rewrite H5, H2.
Qed.

Lemma quiet_weaken {A} (m : M A) (R R' : A -> Prop) :
  quiet im m R -> (forall a, R a -> R' a) -> quiet im m R'.
Proof.
  intros Hm HR w Hw. destruct (Hm w Hw) as (H1 & H2 & H3).
  split; [done|]. split; [done|]. destruct (fst (m w)); auto.
Qed.

Lemma quiet_still {A} (m : M A) :
  (forall w, store (snd (m w)) = store w
             /\ forall k, frame (lane k (snd (m w))) = frame (lane k w)) ->
  quiet im m (fun _ => True).
Proof.
  intros H w Hw. destruct (H w) as [Hs Hf].
  split; [unfold identities in *; by rewrite Hs|]. split; [done|].
  by destruct (fst (m w)).
Qed.

Lemma quiet_load_job id : quiet im (load_job id) (fun j => job_id j = id /\ filed im j).
Proof.
  intros w Hw. unfold load_job. destruct (store w !! id) as [j|] eqn:Hl; [|done].
  split; [done|]. split; [done|]. cbn.
  assert (im !! id = Some (identity j)) as Him.
  { rewrite <- Hw. unfold identities. by rewrite lookup_fmap, Hl. }
  pose proof (Hkey _ _ Him) as Hid. cbn in Hid. split; [done|].
  unfold filed. by rewrite Hid.
Qed.

Lemma quiet_save_job j :
  filed im j -> quiet im (save_job j) (fun j' => identity j' = identity j /\ filed im j').
Proof.
  intros Hf w Hw. rewrite save_job_eq. cbn [fst snd].
  split; [|split; [by intros []|done]].
  unfold identities in *. cbn. rewrite fmap_insert, Hw.
  apply insert_id. exact Hf.
Qed.

Lemma quiet_assert_owner j user : quiet im (assert_owner j user) (fun _ => True).
Proof. intros w Hw. unfold assert_owner. by destruct (String.eqb _ _). Qed.

Lemma quiet_save_upload_file file dest m :
  quiet im (save_upload_file file dest m) (fun _ => True).
Proof. apply quiet_still. done. Qed.

Lemma quiet_run_cli c args : quiet im (run_cli c args) (fun _ => True).
Proof.
  apply quiet_still. intros w. rewrite run_cli_eq. split; [done|]. by intros [].
Qed.

Lemma quiet_enqueue_facefusion_job cfg codes j :
  quiet im (enqueue_facefusion_job cfg codes j) (fun _ => True).
Proof.
  unfold enqueue_facefusion_job.
  destruct (source_path j), (target_path j), (output_path j); try apply quiet_raise.
  destruct codes as [[c1 c2] c3]. destruct (resolve_models _ _).
  eapply quiet_bind; [apply quiet_run_cli|]. intros _ _.
  eapply quiet_bind; [apply quiet_run_cli|]. intros _ _.
  apply quiet_run_cli.
Qed.

Lemma quiet_queue_job id kind : quiet im (queue_job id kind) (fun _ => True).
Proof.
  apply quiet_still. intros w. split; [by destruct kind|]. intros k. by destruct k, kind.
Qed.

Lemma quiet_send_webhook d j e :
  filed im j ->
  quiet im (send_webhook d j e) (fun j' => identity j' = identity j /\ filed im j').
Proof.
  intros Hf. unfold send_webhook.
  eapply quiet_bind; [apply quiet_still; intros w; split; [done|by intros []]|].
  intros _ _.
  destruct (webhook_url j) as [[|a u]|]; try (by apply quiet_ret).
  destruct (negb _); [by apply quiet_ret|].
  eapply quiet_bind; [apply quiet_still; intros w; split; [done|by intros []]|].
  intros _ _. destruct d; [by apply quiet_ret|].
  eapply quiet_weaken; [apply quiet_save_job; exact Hf|]. done.
Qed.

Lemma quiet_update_job id (fields : Job -> Job) :
  (forall j, identity (fields j) = identity j) ->
  quiet im (update_job id fields) (fun _ => True).
Proof.
  intros Hfields. unfold update_job.
  eapply quiet_bind; [apply quiet_load_job|]. intros j [Hid Hf].
  eapply quiet_bind.
  { apply quiet_save_job. unfold filed in *.
    pose proof (Hfields j) as E. unfold identity in E. injection E as E1 E2 E3 E4 E5.
    rewrite E1. unfold identity. by rewrite E1, E2, E3, E4, E5. }
  intros j' _. by apply quiet_ret.
Qed.

Lemma quiet_on_output_line id raw_line : quiet im (on_output_line id raw_line) (fun _ => True).
Proof.
  intros w Hw. rewrite on_output_line_eq.
  destruct (parse_progress _) as [[stg pct]|]; [|done].
  revert w Hw. change (quiet im (update_job id (fun j => set_progress pct (set_stage (Some stg) j)) ;;; ret tt)
                         (fun _ => True)).
  eapply quiet_bind; [by apply quiet_update_job|]. intros _ _. by apply quiet_ret.
Qed.

Ltac quiet_step :=
  first
    [ apply quiet_raise
    | apply quiet_ret; done
    | eapply quiet_bind; [apply quiet_load_job|intros ? [? ?]]
    | eapply quiet_bind; [apply quiet_assert_owner|intros _ _]
    | eapply quiet_bind; [apply quiet_save_upload_file|intros _ _]
    | eapply quiet_bind; [apply quiet_enqueue_facefusion_job|intros _ _]
    | eapply quiet_bind; [apply quiet_queue_job|intros _ _]
    | eapply quiet_bind; [apply quiet_save_job; assumption|intros ? [? ?]]
    | eapply quiet_bind; [apply quiet_send_webhook; assumption|intros ? [? ?]] ].

Lemma quiet_upload_source cfg id file user hex :
  quiet im (upload_source cfg id file user hex) (fun _ => True).
Proof.
  unfold upload_source. do 2 quiet_step.
  destruct (negb _); repeat quiet_step.
Qed.

Lemma quiet_upload_target cfg id file user hex :
  quiet im (upload_target cfg id file user hex) (fun _ => True).
Proof.
  unfold upload_target. do 2 quiet_step.
  destruct (detect_kind _) as [k|]; [|quiet_step].
  destruct (negb _); [quiet_step|]. quiet_step.
  destruct (_ && _); [quiet_step|].
  eapply quiet_bind; [apply quiet_save_job|intros ? [? ?]; quiet_step].
  by destruct (truthy _).
Qed.

Lemma quiet_submit_job cfg id rf user hex codes d :
  quiet im (submit_job cfg id rf user hex codes d) (fun _ => True).
Proof.
  unfold submit_job. do 2 quiet_step.
  destruct (_ || _); [quiet_step|].
  eapply quiet_bind; [apply quiet_save_job; by destruct rf|intros j1 [Hi1 Hf1]].
  do 2 quiet_step.
  eapply quiet_bind; [apply quiet_save_job; exact Hf1|intros j2 [Hi2 Hf2]].
  repeat quiet_step.
Qed.

Lemma quiet_set_webhook id url events user :
  quiet im (set_webhook id url events user) (fun _ => True).
Proof.
  unfold set_webhook. do 2 quiet_step. destruct (_ && _); repeat quiet_step.
Qed.

Lemma quiet_get_job id user : quiet im (get_job id user) (fun _ => True).
Proof. unfold get_job. repeat quiet_step. Qed.

Lemma quiet_job_events id user : quiet im (job_events id user) (fun _ => True).
Proof. unfold job_events. repeat quiet_step. Qed.

Lemma quiet_get_result id user on_disk : quiet im (get_result id user on_disk) (fun _ => True).
Proof.
  unfold get_result. do 2 quiet_step. destruct (_ || _); [quiet_step|].
  destruct (negb on_disk); quiet_step.
Qed.

Lemma quiet_cancel_job id user : quiet im (cancel_job id user) (fun _ => True).
Proof. unfold cancel_job. repeat quiet_step. Qed.

(** The worker. *)

Lemma steady_quiet {A} (m : M A) (R : A -> Prop) : quiet im m R -> steady im m R.
Proof.
  intros Hm w Hw Hh. destruct (Hm w Hw) as (H1 & H2 & H3).
  split; [done|]. split; [|done]. intros k id fj Hf. rewrite H2 in Hf. by eapply Hh.
Qed.

Lemma steady_bind {A B} (m : M A) (f : A -> M B) (R : A -> Prop) (R' : B -> Prop) :
  steady im m R -> (forall a, R a -> steady im (f a) R') -> steady im (bind m f) R'.
Proof.
  intros Hm Hf w Hw Hh. unfold bind. destruct (Hm w Hw Hh) as (H1 & H2 & H3).
  destruct (m w) as [[a|e] w1]; cbn [fst snd] in *; [|done].
  by apply Hf.
Qed.

Lemma steady_try_except {A} (body : M A) (handler : Exc -> M A) (R : A -> Prop) :
  steady im body R -> (forall e, steady im (handler e) R) ->
  steady im (try_except body handler) R.
Proof.
  intros Hb Hh w Hw Hheld. unfold try_except. destruct (Hb w Hw Hheld) as (H1 & H2 & H3).
  destruct (body w) as [[a|e] w1]; cbn [fst snd] in *; [done|].
  by apply Hh.
Qed.

Lemma steady_try_finally {A} (body : M A) (fin : M unit) (R : A -> Prop) :
  steady im body R -> steady im fin (fun _ => True) ->
  steady im (try_finally body fin) R.
Proof.
  intros Hb Hf w Hw Hheld. unfold try_finally. destruct (Hb w Hw Hheld) as (H1 & H2 & H3).
  destruct (body w) as [r w1]; cbn [fst snd] in *.
  destruct (Hf w1 H1 H2) as (H4 & H5 & _).
  destruct (fin w1) as [[[]|e] w2]; cbn [fst snd] in *; done.
Qed.

Lemma steady_assign kind (f : Job -> Job) :
  (forall j, identity (f j) = identity j) ->
  steady im (assign kind f) (fun _ => True).
Proof.
  intros Hf w Hw Hh. unfold assign, bind, get_frame, set_frame, modify.
  destruct (frame (lane kind w)) as [[id j]|] eqn:Hfr; [|done]. rewrite Hfr. cbn [fst snd].
  split; [by rewrite <- Hw; unfold identities; rewrite with_lane_store|].
  split; [|done]. intros k id' fj Hfr'.
  destruct (kind_eq_dec k kind) as [->|Hne].
  - rewrite lane_with_lane in Hfr'. cbn in Hfr'. injection Hfr' as <- <-.
    destruct (Hh _ _ _ Hfr) as [Hid Hfiled].
    pose proof (Hf j) as E. unfold identity in E. injection E as E1 E2 E3 E4 E5.
    split; [congruence|]. unfold filed, identity in *. by rewrite E1, E2, E3, E4, E5.
  - rewrite lane_with_lane_ne in Hfr' by done. by eapply Hh.
Qed.

Lemma steady_with_job kind (f : Job -> M Job) :
  (forall j, filed im j -> quiet im (f j) (fun j' => identity j' = identity j /\ filed im j')) ->
  steady im (with_job kind f) (fun _ => True).
Proof.
  intros Hf w Hw Hh. unfold with_job, bind, get_frame.
  destruct (frame (lane kind w)) as [[id j]|] eqn:Hfr; [|done].
  destruct (Hh _ _ _ Hfr) as [Hid Hfiled].
  destruct (Hf j Hfiled w Hw) as (H1 & H2 & H3).
  destruct (f j w) as [[j'|e] w1]; cbn [fst snd] in *.
  - unfold set_frame, modify. rewrite H2, Hfr. cbn [fst snd].
    split; [by rewrite <- H1; unfold identities; rewrite with_lane_store|].
    split; [|done]. intros k id' fj Hfr'.
    destruct (kind_eq_dec k kind) as [->|Hne].
    + rewrite lane_with_lane in Hfr'. cbn in Hfr'. injection Hfr' as <- <-.
      destruct H3 as [E Hfiled']. unfold identity in E. injection E as E1 _.
      split; [congruence|done].
    + rewrite lane_with_lane_ne in Hfr' by done. rewrite H2 in Hfr'. by eapply Hh.
  - split; [done|]. split; [|done]. intros k id' fj Hfr'. rewrite H2 in Hfr'. by eapply Hh.
Qed.

Lemma steady_transition kind f1 f2 f3 d e :
  (forall j, identity (f1 j) = identity j) ->
  (forall j, identity (f2 j) = identity j) ->
  (forall j, identity (f3 j) = identity j) ->
  steady im (transition kind f1 f2 f3 d e) (fun _ => True).
Proof.
  intros H1 H2 H3. unfold transition.
  eapply steady_bind; [by apply steady_assign|intros _ _].
  eapply steady_bind; [by apply steady_assign|intros _ _].
  eapply steady_bind; [by apply steady_assign|intros _ _].
  eapply steady_bind; [apply steady_with_job; intros j Hj; by apply quiet_save_job|intros _ _].
  apply steady_with_job. intros j Hj. by apply quiet_send_webhook.
Qed.

Lemma steady_mark_failed kind d exc : steady im (mark_failed kind d exc) (fun _ => True).
Proof. by apply (steady_transition kind _ _ _ d "failed"). Qed.

Lemma steady_release kind : steady im (release kind) (fun _ => True).
Proof.
  apply steady_quiet, quiet_still. intros w. split; [by destruct kind|].
  intros k. by destruct k, kind.
Qed.

Lemma steady_guarded kind d (m : M unit) :
  steady im m (fun _ => True) -> steady im (guarded kind d m) (fun _ => True).
Proof.
  intros Hm. unfold guarded. apply steady_try_except; [done|]. intros e.
  apply steady_try_finally; [apply steady_mark_failed|apply steady_release].
Qed.

Lemma steady_step_begin cfg kind d id : steady im (step_begin cfg kind d id) (fun _ => True).
Proof.
  unfold step_begin.
  eapply steady_bind; [apply steady_quiet, quiet_load_job|intros j [Hid Hf]].
  eapply steady_bind with (R := fun _ => True).
  { intros w Hw Hh. unfold enter, modify. cbn [fst snd].
    split; [by rewrite <- Hw; unfold identities; rewrite with_lane_store|].
    split; [|done]. intros k id' fj Hfr'.
    destruct (kind_eq_dec k kind) as [->|Hne].
    - rewrite lane_with_lane in Hfr'. cbn in Hfr'. by injection Hfr' as <- <-.
    - rewrite lane_with_lane_ne in Hfr' by done. by eapply Hh. }
  intros _ _.
  eapply steady_bind with (R := fun _ => True).
  { apply steady_quiet, quiet_still. intros w. split; [by destruct kind|].
    intros k. by destruct k, kind. }
  intros _ _.
  apply steady_guarded.
  eapply steady_bind; [by apply (steady_transition kind _ _ _ d "running")|intros _ _].
  unfold launch.
  eapply steady_bind with (R := fun _ => True).
  { apply steady_quiet. intros w Hw. unfold get_frame_id.
    by destruct (frame (lane kind w)) as [[? ?]|]. }
  intros fid _.
  eapply steady_bind with (R := fun _ => True).
  { apply steady_quiet. intros w Hw. unfold get_frame.
    by destruct (frame (lane kind w)) as [[? ?]|]. }
  intros j' _. apply steady_quiet, quiet_still. intros w. split; [done|]. by intros [].
Qed.

Lemma steady_step_output kind d raw_line :
  steady im (step_output kind d raw_line) (fun _ => True).
Proof.
  unfold step_output.
  eapply steady_bind with (R := fun _ => True).
  { apply steady_quiet. intros w Hw. unfold get_frame_id.
    by destruct (frame (lane kind w)) as [[? ?]|]. }
  intros id _. apply steady_guarded, steady_quiet, quiet_on_output_line.
Qed.

Lemma steady_step_exit cfg kind code d : steady im (step_exit cfg kind code d) (fun _ => True).
Proof.
  unfold step_exit.
  eapply steady_bind with (R := fun _ => True).
  { apply steady_quiet. intros w Hw. unfold get_frame_id.
    by destruct (frame (lane kind w)) as [[? ?]|]. }
  intros id _.
  eapply steady_bind with (R := fun _ => True).
  { apply steady_quiet. intros w Hw. unfold get_frame.
    by destruct (frame (lane kind w)) as [[? ?]|]. }
  intros j _.
  apply steady_try_finally; [|apply steady_release].
  apply steady_try_except; [|intros e; apply steady_mark_failed].
  eapply steady_bind with (R := fun _ => True).
  { apply steady_quiet. unfold on_exit. destruct (code =? 0); [by apply quiet_ret|].
    apply quiet_raise. }
  intros _ _. by apply (steady_transition kind _ _ _ d "completed").
Qed.
End Identities.

Lemma prefix_app p s : String.prefix p (p +:+ s) = true.
Proof.
  induction p as [|a p IH]; [by destruct s|].
  change (String.prefix (String a p) (String a (p +:+ s)) = true).
  cbn [String.prefix]. by destruct (ascii_dec a a).
Qed.

Lemma str_mem_In x l : str_mem x l = true -> In x l.
Proof.
  unfold str_mem. rewrite existsb_exists. intros (y & Hin & Heq).
  apply String.eqb_eq in Heq. by subst.
Qed.

Lemma quiet_sound {A} (m : M A) (R : A -> Prop) w :
  quiet (identities w) m R -> sound_identities w ->
  sound_identities (snd (m w)) /\ identities w ⊆ identities (snd (m w)).
Proof.
  intros Hm (Hk & Hh & Hwf). destruct (Hm w eq_refl) as (H1 & H2 & _).
  unfold sound_identities. rewrite H1. split; [|done]. split; [done|]. split; [|done].
  intros k id fj Hf. rewrite H2 in Hf. by eapply Hh.
Qed.

Lemma steady_sound {A} (m : M A) (R : A -> Prop) w :
  steady (identities w) m R -> sound_identities w ->
  sound_identities (snd (m w)) /\ identities w ⊆ identities (snd (m w)).
Proof.
  intros Hm (Hk & Hh & Hwf). destruct (Hm w eq_refl Hh) as (H1 & H2 & _).
  unfold sound_identities. rewrite H1. done.
Qed.

Lemma lane_step_sound kind (m : M unit) (R : unit -> Prop) ev w :
  steady (identities w) m R -> sound_identities w ->
  sound_identities (fst (lane_step kind m ev w))
  /\ identities w ⊆ identities (fst (lane_step kind m ev w)).
Proof.
  intros Hm Hs. destruct (steady_sound m R w Hm Hs) as [(Hk & Hh & Hwf) Hsub].
  unfold lane_step. destruct (m w) as [[[]|e] w1]; cbn [fst snd] in *; [done|].
  assert (identities (kill kind w1) = identities w1) as Hid
    by (unfold identities, kill; by rewrite with_lane_store).
  unfold sound_identities. rewrite Hid. split; [|done]. split; [done|]. split; [|done].
  intros k id fj Hf. apply (Hh k). by destruct k, kind.
Qed.

Lemma create_job_sound payload_mode user hex w :
  store w !! ("api-" +:+ String.substring 0 8 hex) = None ->
  sound_identities w ->
  sound_identities (snd (create_job payload_mode user hex w))
  /\ identities w ⊆ identities (snd (create_job payload_mode user hex w)).
Proof.
  intros Hfresh (Hk & Hh & Hwf). unfold create_job.
  set (m := if str_mem payload_mode ALLOWED_MODES then payload_mode else DEFAULT_MODE).
  assert (In m ALLOWED_MODES) as Hm.
  { subst m. destruct (str_mem payload_mode ALLOWED_MODES) eqn:E.
    - by apply str_mem_In.
    - by left. }
  destruct (create_job_record_eq user m hex w)
    as (j0 & w0 & Hrun & Hid0 & Hown0 & Hm0 & Hk0 & _ & _ & _ & _ & _ & _ & Hs0 & Hla0 & _).
  erewrite bind_ok by exact Hrun. cbn [ret snd].
  assert (identities w !! job_id j0 = None) as Hnone.
  { unfold identities. by rewrite lookup_fmap, Hid0, Hfresh. }
  assert (identities w0 = <[job_id j0 := identity j0]> (identities w)) as Hids.
  { unfold identities. by rewrite Hs0, fmap_insert. }
  unfold sound_identities. rewrite Hids. split; [|by apply insert_subseteq].
  split; [|split].
  - intros id i. rewrite lookup_insert_Some. intros [[<- <-]|[_ Hl]]; [done|by eapply Hk].
  - intros k id fj Hf. rewrite (lanes_eq_lane _ _ _ Hla0) in Hf.
    destruct (Hh _ _ _ Hf) as [Hfid Hfiled]. split; [done|].
    unfold filed in *. rewrite lookup_insert_ne; [done|]. congruence.
  - apply map_Forall_insert_2; [|done]. unfold well_formed, identity. cbn.
    rewrite Hid0, Hm0, Hk0. split; [apply prefix_app|done].
Qed.

Lemma exec_identities cfg a w :
  sound_identities w ->
  sound_identities (fst (exec cfg a w)) /\ identities w ⊆ identities (fst (exec cfg a w)).
Proof.
  intros Hs. pose proof Hs as (Hk & Hh & Hwf).
  assert (sound_identities w /\ identities w ⊆ identities w) as Hstay by done.
  destruct a as [pm user hex|id file user hex|id file user hex|id rf user hex codes d
                |id url events user|id user|id user|id user on_disk|id user
                |kind d|kind d line|kind code d]; cbn [exec].
  - destruct (store w !! _) eqn:Hfresh; [done|]. by apply create_job_sound.
  - eapply quiet_sound; [by apply quiet_upload_source|done].
  - eapply quiet_sound; [by apply quiet_upload_target|done].
  - pose proof (quiet_sound (submit_job cfg id rf user hex codes d) _ w
                  (quiet_submit_job _ Hk cfg id rf user hex codes d) Hs) as H.
    by destruct (submit_job cfg id rf user hex codes d w) as [[r|e] w'].
  - eapply quiet_sound; [by apply quiet_set_webhook|done].
  - eapply quiet_sound; [by apply quiet_get_job|done].
  - eapply quiet_sound; [by apply quiet_job_events|done].
  - eapply quiet_sound; [by apply quiet_get_result|done].
  - eapply quiet_sound; [by apply quiet_cancel_job|done].
  - destruct (_ && _); [|done]. destruct (queue (lane kind w)) as [|id rest]; [done|].
    set (w1 := with_lane kind _ w).
    assert (identities w1 = identities w) as Hid
      by (unfold identities; subst w1; by rewrite with_lane_store).
    assert (sound_identities w1) as Hs1.
    { unfold sound_identities. rewrite Hid. split; [done|]. split; [|done].
      intros k id' fj Hf. apply (Hh k). subst w1. by destruct k, kind. }
    rewrite <- Hid. eapply lane_step_sound; [|done]. rewrite Hid.
    by apply steady_step_begin.
  - destruct (_ && _); [|done]. eapply lane_step_sound; [|done].
    by apply steady_step_output.
  - destruct (_ && _); [|done]. eapply lane_step_sound; [|done].
    by apply steady_step_exit.
Qed.

Lemma quick_job_sound cfg requested source target user hex_job hex_s hex_t hex_o codes d w :
  store w !! ("api-" +:+ String.substring 0 8 hex_job) = None ->
  sound_identities w ->
  sound_identities
    (snd (quick_job cfg requested source target user hex_job hex_s hex_t hex_o codes d w))
  /\ identities w
     ⊆ identities
         (snd (quick_job cfg requested source target user hex_job hex_s hex_t hex_o codes d w)).
Proof.
  intros Hfresh Hs.
  destruct (create_job_sound requested user hex_job w Hfresh Hs) as [Hs0 Hsub0].
  unfold create_job in Hs0, Hsub0. unfold quick_job.
  set (m := if str_mem requested ALLOWED_MODES then requested else DEFAULT_MODE) in *.
  destruct (create_job_record_eq user m hex_job w) as (j0 & w0 & Hrun & _).
  erewrite bind_ok in Hs0, Hsub0 by exact Hrun. cbn [ret snd] in Hs0, Hsub0.
  erewrite bind_ok by exact Hrun.
  pose proof Hs0 as (Hk0 & _).
  assert (quiet (identities w0)
            (upload_source cfg (job_id j0) source user hex_s ;;;
             upload_target cfg (job_id j0) target user hex_t ;;;
             submit_job cfg (job_id j0) None user hex_o codes d) (fun _ => True)) as Hq.
  { eapply quiet_bind; [by apply quiet_upload_source|intros _ _].
    eapply quiet_bind; [by apply quiet_upload_target|intros _ _].
    by apply quiet_submit_job. }
  destruct (quiet_sound _ _ w0 Hq Hs0) as [Hs1 Hsub1].
  split; [done|]. by etrans.
Qed.

Lemma serve_request_identities cfg r w :
  sound_identities w ->
  sound_identities (serve_request cfg r w)
  /\ identities w ⊆ identities (serve_request cfg r w).
Proof.
  intros Hs. destruct r as [a|requested source target user hex_job hex_s hex_t hex_o codes d];
    cbn [serve_request].
  - by apply exec_identities.
  - destruct (store w !! _) eqn:Hfresh; [done|]. by apply quick_job_sound.
Qed.

Lemma run_requests_identities cfg rs : forall w,
  sound_identities w ->
  sound_identities (run_requests cfg rs w)
  /\ identities w ⊆ identities (run_requests cfg rs w).
Proof.
  induction rs as [|r rs IH]; intros w Hs; [done|].
  cbn [run_requests fold_left].
  destruct (serve_request_identities cfg r w Hs) as [Hs1 Hsub1].
  destruct (IH _ Hs1) as [Hs2 Hsub2]. split; [done|]. by etrans.
Qed.

Lemma sound_identities_boot : sound_identities boot.
Proof.
  split; [|split].
  - intros id i. unfold identities. cbn. by rewrite fmap_empty, lookup_empty.
  - by intros [] id fj.
  - unfold identities. cbn. rewrite fmap_empty. apply map_Forall_empty.
Qed.

(** X25.  A record is never removed, and its id, owner, mode, target kind
    and time of creation never change: whatever requests and worker steps
    follow, a job that exists keeps existing under the same id with these
    five fields as they were.  (Job ids are taken not to repeat: a creation
    that would draw the id of an existing job is left out.) *)
Theorem a_job_keeps_its_identity (cfg : Config) (rs more : list Request) (id : string)
    (j : Job) :
  store (run_requests cfg rs boot) !! id = Some j ->
  exists j',
    store (run_requests cfg (rs ++ more) boot) !! id = Some j'
    /\ job_id j' = job_id j /\ owner_id j' = owner_id j /\ mode j' = mode j
    /\ target_kind j' = target_kind j /\ created_at j' = created_at j.
Proof.
  intros Hl. unfold run_requests. rewrite fold_left_app. fold (run_requests cfg rs boot).
  fold (run_requests cfg more (run_requests cfg rs boot)).
  destruct (run_requests_identities cfg rs boot sound_identities_boot) as [Hs _].
  destruct (run_requests_identities cfg more _ Hs) as [_ Hsub].
  assert (identities (run_requests cfg rs boot) !! id = Some (identity j)) as Hi
    by (unfold identities; by rewrite lookup_fmap, Hl).
  pose proof (lookup_weaken _ _ _ _ Hi Hsub) as Hi'.
  unfold identities in Hi'. rewrite lookup_fmap in Hi'.
  apply fmap_Some in Hi' as (j' & Hl' & Heq).
  exists j'. split; [done|]. unfold identity in Heq.
  injection Heq as -> -> -> -> ->. done.
Qed.

(** X26.  In every state the service can reach, a record is filed under
    its own id, the id begins with [api-], the mode is one of the four
    allowed modes and the target kind is the one of the mode.  So the
    models [resolve_models] picks for a stored job depend on its mode
    alone: the choice by the extension of the target is never reached. *)
Theorem every_record_has_an_allowed_mode (cfg : Config) (rs : list Request) (id : string)
    (j : Job) :
  store (run_requests cfg rs boot) !! id = Some j ->
  job_id j = id
  /\ startswith id "api-" = true
  /\ In (mode j) ALLOWED_MODES
  /\ target_kind j = allowed_target_kind (mode j)
  /\ forall t t', resolve_models (mode j) t = resolve_models (mode j) t'.
Proof.
  intros Hl.
  destruct (run_requests_identities cfg rs boot sound_identities_boot)
    as [(Hk & _ & Hwf) _].
  assert (identities (run_requests cfg rs boot) !! id = Some (identity j)) as Hi
    by (unfold identities; by rewrite lookup_fmap, Hl).
  pose proof (Hk _ _ Hi) as Hid. cbn in Hid.
  destruct (Hwf _ _ Hi) as (Hpre & Hmode & Hkind). cbn in Hpre, Hmode, Hkind.
  split; [done|]. split; [by rewrite <- Hid|]. split; [done|]. split; [done|].
  intros t t'. unfold resolve_models.
  destruct Hmode as [<-|[<-|[<-|[<-|[]]]]]; reflexivity.
Qed.

(** ** Tokens and keys *)

Lemma substring_all s : String.substring 0 (String.length s) s = s.
Proof. induction s as [|c s IH]; cbn; [done|]. by rewrite IH. Qed.

Lemma removeprefix_bearer tok : removeprefix ("Bearer " +:+ tok) "Bearer " = tok.
Proof.
  unfold removeprefix, startswith. rewrite prefix_app.
  change (String.substring 0 (String.length tok - 0) tok = tok).
  rewrite Nat.sub_0_r. apply substring_all.
Qed.

(** X27.  A token minted by [create_token] is accepted by [verify_token]
    for the user it was minted for: when the secret is configured, the user
    id is not empty, and the library decodes what it has encoded (a text
    without white space around it, with the user id as its [sub] claim),
    verifying [Bearer <token>] answers that user id. *)
Theorem a_minted_token_is_accepted (auth : AuthConfig)
    (encode : string -> string -> string) (decode : string -> string -> option Payload)
    (secret user_id : string) (payload : Payload) :
  JWT_SECRET auth = Some secret -> secret <> "" -> user_id <> "" ->
  strip (encode secret user_id) = encode secret user_id ->
  decode (encode secret user_id) secret = Some payload ->
  payload "sub" = Some {| claim_truthy := true; claim_str := user_id |} ->
  exists token,
    create_token auth encode user_id = Ok token
    /\ verify_token auth decode (Some ("Bearer " +:+ token)) = Ok user_id.
Proof.
  intros Hs Hne Hu Hstrip Hdec Hsub.
  exists (encode secret user_id). unfold create_token, verify_token. rewrite Hs.
  destruct secret as [|c secret]; [done|]. cbn [truthy negb default from_option id orb].
  split; [done|].
  change (startswith ("Bearer " +:+ encode (String c secret) user_id) "Bearer ")
    with (String.prefix "Bearer " ("Bearer " +:+ encode (String c secret) user_id)).
  rewrite prefix_app. cbn [negb].
  rewrite removeprefix_bearer, Hstrip, Hdec, Hsub. cbn [claim_or claim_truthy claim_str].
  by destruct (String.eqb_spec user_id "").
Qed.

(** X28.  [require_api_key] lets a request pass exactly when a key is
    configured, is not empty, and the header carries that very key; with no
    key configured every request is answered 500, whatever it carries. *)
Theorem require_api_key_accepts_the_configured_key_only (auth : AuthConfig)
    (x_api_key : option string) :
  (require_api_key auth x_api_key = Ok tt
   <-> exists key, AUTH_API_KEY auth = Some key /\ key <> "" /\ x_api_key = Some key)
  /\ (truthy (AUTH_API_KEY auth) = false ->
      require_api_key auth x_api_key
      = Raise (HTTPException 500 "AUTH_API_KEY not configured")).
Proof.
  unfold require_api_key. split.
  - split.
    + destruct (AUTH_API_KEY auth) as [[|c key]|]; cbn [truthy negb]; try done.
      destruct x_api_key as [[|c' k]|]; cbn [truthy negb orb default from_option id];
        try done.
      destruct (String.eqb_spec (String c' k) (String c key)) as [->|]; [|done].
      intros _. by exists (String c key).
    + intros (key & -> & Hne & ->). destruct key as [|c key]; [done|].
      cbn [truthy negb orb default from_option id]. by rewrite String.eqb_refl.
  - intros H. by rewrite H.
Qed.

Lemma append_nil_r s : s +:+ "" = s.
Proof.
  induction s as [|c s IH]; [done|].
  change (String c (s +:+ "") = String c s). by rewrite IH.
Qed.


(** ** Sample runs of the properties above *)

Lemma update_job_then_load_job_witness :
  exists j' w',
    update_job demo_id (set_progress 42) demo_queued = (Ok j', w')
    /\ load_job demo_id w' = (Ok j', w').
Proof.
  destruct (update_job_then_load_job demo_id (set_progress 42) demo_queued demo_job_queued)
    as (j' & w' & Hrun & _ & Hload & _); [vm_compute; reflexivity|vm_compute; reflexivity|].
  exists j', w'. split; assumption.
Defined.


Lemma save_upload_file_enforces_the_limit_witness :
  save_upload_file mp4 "/srv/target_path/clip.mp4" (Some 1000000) boot
  = (Raise (HTTPException 413 "File too large"), boot).
Proof.
  apply (save_upload_file_enforces_the_limit mp4 "/srv/target_path/clip.mp4"
           (Some 1000000) boot).
  - repeat (constructor; [lia|]). constructor.
  - intros m [= <-]. lia.
Defined.


Lemma upload_target_checks_videos_only_witness :
  exists j' w',
    upload_target default_config demo_id png "alice" "eeee" demo_ready
    = (Ok (job_to_response j'), w')
    /\ store w' = <[demo_id := j']> (store demo_ready).
Proof.
  destruct (upload_target_checks_videos_only default_config demo_id png "alice" "eeee"
              demo_ready demo_job)
    as (j' & w' & Hrun & _ & Hs & _); try (vm_compute; reflexivity).
  - repeat (constructor; [lia|]). constructor.
  - exists j', w'. split; assumption.
Defined.

Lemma engine_commands_stop_at_the_first_failure_witness :
  exists a1 a2 w',
    enqueue_facefusion_job default_config (0, 1, 0) demo_job_queued boot
    = (Raise (CalledProcessError 1 a2), w')
    /\ cli w' = [a1; a2].
Proof.
  destruct (engine_commands_stop_at_the_first_failure default_config 0 1 0
              demo_job_queued boot demo_source demo_target demo_output)
    as (a1 & a2 & a3 & issued & r & w' & Hrun & Hcli & _ & _ & _ & _ & _ & _ & H2 & _);
    try (vm_compute; reflexivity).
  destruct H2 as [-> ->]; [reflexivity|lia|].
  exists a1, a2, w'. split; assumption.
Defined.

Lemma failed_submission_leaves_the_output_path_witness :
  exists c cmd j' w',
    submit_job default_config demo_id None "alice" "cccc" (0, 0, 1) true demo_ready
    = (Raise (CalledProcessError c cmd), w')
    /\ store w' = <[demo_id := j']> (store demo_ready)
    /\ status j' = status demo_job.
Proof.
  destruct (failed_submission_leaves_the_output_path default_config demo_id None "alice"
              "cccc" 0 0 1 true demo_ready demo_job)
    as (c & cmd & j' & w' & t & Hrun & _ & _ & _ & Hs & _ & Hst & _);
    try (vm_compute; reflexivity).
  - vm_compute. discriminate.
  - exists c, cmd, j', w'. repeat split; assumption.
Defined.

Lemma a_job_can_be_submitted_twice_witness :
  exists r1 w1 j2 w2,
    submit_job default_config demo_id None "alice" "cccc" (0, 0, 0) true demo_ready
    = (Ok r1, w1)
    /\ submit_job default_config demo_id None "alice" "dddd" (0, 0, 0) true w1
       = (Ok (job_to_response j2), w2)
    /\ queue (lane (target_kind demo_job) w2)
       = queue (lane (target_kind demo_job) demo_ready) ++ [demo_id; demo_id].
Proof.
  destruct (a_job_can_be_submitted_twice default_config demo_id None None "alice"
              "cccc" "dddd" true true demo_ready demo_job)
    as (r1 & w1 & j2 & w2 & t & Hrun1 & Hrun2 & _ & Hq & _);
    try (vm_compute; reflexivity).
  exists r1, w1, j2, w2. repeat split; assumption.
Defined.

Lemma set_webhook_decides_what_is_posted_witness :
  exists j' w',
    set_webhook demo_id "https://hooks.example/ff" (Some ["failed"]) "alice" demo_ready
    = (Ok (job_to_response j'), w')
    /\ pushes (snd (send_webhook true j' "completed" w')) = pushes w'.
Proof.
  destruct (set_webhook_decides_what_is_posted demo_id "https://hooks.example/ff"
              (Some ["failed"]) "alice" demo_ready demo_job)
    as (j' & w' & Hrun & _ & _ & _ & Hpost); try (vm_compute; reflexivity).
  exists j', w'. split; [assumption|].
  rewrite (Hpost true "completed" w'). apply app_nil_r.
Defined.

Lemma queued_jobs_do_not_survive_a_restart_witness :
  exists w',
    start_workers demo_queued = (Ok tt, w')
    /\ store w' !! demo_id = Some demo_job_queued
    /\ worker default_config image [demo_env 0] w' = w'.
Proof.
  destruct (queued_jobs_do_not_survive_a_restart default_config demo_queued demo_id
              demo_job_queued)
    as (w' & Hrun & Hl & _ & Hidle); try (vm_compute; reflexivity).
  exists w'. repeat split; [assumption|assumption|apply Hidle].
Defined.




Lemma the_output_keeps_the_extension_of_the_target_witness :
  build_output_path default_config "cccc" (TARGET_DIR default_config +:+ "/" +:+ "bbbb" +:+ ".png")
  = OUTPUT_DIR default_config +:+ "/" +:+ "cccc" +:+ ".png".
Proof.
  destruct (the_output_keeps_the_extension_of_the_target default_config "bbbb" "cccc" ".png")
    as [_ H]; [vm_compute; reflexivity|do 2 right; left; reflexivity|].
  exact H.
Defined.

Lemma the_order_of_the_uploads_decides_the_status_witness :
  exists r1 w1 r2 w2,
    upload_target default_config demo_id png "alice" "bbbb" demo_created = (Ok r1, w1)
    /\ upload_source default_config demo_id png "alice" "aaaa" w1 = (Ok r2, w2)
    /\ r_status r2 = WaitingTarget
    /\ source_uploaded r2 = true /\ target_uploaded r2 = true.
Proof.
  destruct (the_order_of_the_uploads_decides_the_status default_config demo_id png png
              "alice" "aaaa" "bbbb" demo_created demo_job_created)
    as [_ H]; try (vm_compute; reflexivity).
  - repeat (constructor; [lia|]). constructor.
  - exact H.
Defined.

Lemma an_accepted_quick_job_is_queued_witness :
  exists j' w',
    quick_job default_config "photo_photo_gpen" png png "alice" "0123456789abcdef"
      "aaaa" "bbbb" "cccc" (0, 0, 0) true boot
    = (Ok (job_to_response j'), w')
    /\ status j' = Queued
    /\ queue (lane image w') = [demo_id].
Proof.
  destruct (an_accepted_quick_job_is_queued default_config "photo_photo_gpen" png png
              "alice" "0123456789abcdef" "aaaa" "bbbb" "cccc" true boot)
    as (j' & w' & Hrun & _ & _ & _ & _ & _ & Hst & _ & _ & _ & Hq & _);
    try (vm_compute; reflexivity).
  - repeat (constructor; [lia|]). constructor.
  - exists j', w'. repeat split; assumption.
Defined.

Lemma the_event_stream_sends_changes_and_stops_at_the_end_witness :
  snd (stream demo_id demo_polls None) = Finished
  <-> exists a, last (fst (stream demo_id demo_polls None)) = Some a
                /\ is_final (r_status a) = true.
Proof.
  destruct (the_event_stream_sends_changes_and_stops_at_the_end demo_id demo_polls
              (fst (stream demo_id demo_polls None)) (snd (stream demo_id demo_polls None)))
    as (_ & H & _); [vm_compute; reflexivity|].
  exact H.
Defined.


Lemma a_handler_runs_for_the_verified_user_only_witness :
  serve demo_auth no_token "/jobs/api-01234567" None (get_job demo_id) demo_ready
  = (Raise (HTTPException 401 "Missing bearer token"), demo_ready).
Proof.
  apply (a_handler_runs_for_the_verified_user_only demo_auth no_token
           "/jobs/api-01234567" None (get_job demo_id) demo_ready).
  vm_compute. discriminate.
Defined.

Lemma a_job_keeps_its_identity_witness :
  exists j',
    store (run_requests default_config
             (map Step demo_prepare
              ++ [Quick "cartoon" png mp4 "bob" "89abcdef" "s" "t" "o" (0, 0, 0) true;
                  Step demo_submit; Step (ABegin image true)]) boot) !! demo_id
    = Some j'
    /\ job_id j' = job_id demo_job /\ owner_id j' = owner_id demo_job
    /\ mode j' = mode demo_job /\ target_kind j' = target_kind demo_job
    /\ created_at j' = created_at demo_job.
Proof.
  apply (a_job_keeps_its_identity default_config (map Step demo_prepare)
           [Quick "cartoon" png mp4 "bob" "89abcdef" "s" "t" "o" (0, 0, 0) true;
            Step demo_submit; Step (ABegin image true)] demo_id demo_job).
  vm_compute. reflexivity.
Defined.

Lemma every_record_has_an_allowed_mode_witness :
  job_id demo_job_queued = demo_id
  /\ startswith demo_id "api-" = true
  /\ In (mode demo_job_queued) ALLOWED_MODES
  /\ target_kind demo_job_queued = allowed_target_kind (mode demo_job_queued)
  /\ forall t t',
       resolve_models (mode demo_job_queued) t = resolve_models (mode demo_job_queued) t'.
Proof.
  apply (every_record_has_an_allowed_mode default_config
           (map Step (demo_prepare ++ [demo_submit])) demo_id demo_job_queued).
  vm_compute. reflexivity.
Defined.

Lemma a_minted_token_is_accepted_witness :
  exists token,
    create_token demo_auth demo_encode "alice" = Ok token
    /\ verify_token demo_auth demo_decode (Some ("Bearer " +:+ token)) = Ok "alice".
Proof.
  apply (a_minted_token_is_accepted demo_auth demo_encode demo_decode "s3cret" "alice"
           demo_payload); try (vm_compute; reflexivity); vm_compute; discriminate.
Defined.

